(** * finsight: statement-to-ledger pipeline

    A shallow embedding of the JavaScript statement pipeline
    (issuer detection, PII scrubbing, the three ledger extractors and
    the merchant-learning route) together with the properties the
    specification states about it.

    Conventions of the embedding.
    - A JavaScript string is a [string] of 8-bit code units.
    - [null] / [undefined] results are [None].
    - A number [parseFloat] reads from a two-decimal token is kept as
      the decimal it reads, a count of hundredths in [Z]; the double the
      program holds for it is the one nearest to that decimal
      ([Binary64.ofHundredths]).  The difference of two such doubles is
      rounded again: the ledger keeps the decimal difference, and
      [BalanceBased.storedAmount] computes the double.
    - Regular expressions are values of type [regex], run by a
      backtracking matcher with the priorities of the ECMAScript
      matcher (leftmost start, greedy or lazy quantifiers, ordered
      alternation). *)

From Stdlib Require Import String Ascii List ZArith Bool Arith Lia.
From Stdlib Require Import Floats.SpecFloat.
From Stdlib Require Decimal DecimalString DecimalNat DecimalFacts.
From stdpp Require Import base option gmap strings.
Import ListNotations.

Local Open Scope string_scope.
Local Open Scope list_scope.

(** ** JavaScript string primitives *)

Module JS.

Definition LF : ascii := "010"%char.
Definition CR : ascii := "013"%char.

Definition code (c : ascii) : nat := nat_of_ascii c.

Definition in_range (lo hi : nat) (c : ascii) : bool :=
  (lo <=? code c)%nat && (code c <=? hi)%nat.

Definition is_digit (c : ascii) : bool := in_range 48 57 c.
Definition is_upper (c : ascii) : bool := in_range 65 90 c.
Definition is_lower (c : ascii) : bool := in_range 97 122 c.

(** WhiteSpace and LineTerminator code units below 256: TAB, LF, VT,
    FF, CR, SP and NBSP. *)
Definition is_space (c : ascii) : bool :=
  in_range 9 13 c || (code c =? 32)%nat || (code c =? 160)%nat.

Definition is_line_terminator (c : ascii) : bool :=
  (code c =? 10)%nat || (code c =? 13)%nat.

(** [\w] is [A-Za-z0-9_]. *)
Definition is_word (c : ascii) : bool :=
  is_upper c || is_lower c || is_digit c || (code c =? 95)%nat.

(** Simple case folding of one code unit (the [Canonicalize] step of a
    case-insensitive match): a-z and the Latin-1 letters map to their
    capitals; every other unit is left alone. *)
Definition upper_char (c : ascii) : ascii :=
  if is_lower c then ascii_of_nat (code c - 32)
  else if in_range 224 254 c && negb (code c =? 247)%nat
       then ascii_of_nat (code c - 32)
       else c.

Definition lower_char (c : ascii) : ascii :=
  if is_upper c then ascii_of_nat (code c + 32)
  else if in_range 192 222 c && negb (code c =? 215)%nat
       then ascii_of_nat (code c + 32)
       else c.

Definition str1 (c : ascii) : string := String c EmptyString.

Fixpoint rev_onto (s acc : string) : string :=
  match s with
  | EmptyString => acc
  | String c s' => rev_onto s' (String c acc)
  end.

Definition rev (s : string) : string := rev_onto s EmptyString.

Fixpoint trimStart (s : string) : string :=
  match s with
  | EmptyString => EmptyString
  | String c s' => if is_space c then trimStart s' else s
  end.

Definition trimEnd (s : string) : string := rev (trimStart (rev s)).

(** [s.trim()] *)
Definition trim (s : string) : string := trimEnd (trimStart s).

(** [s.startsWith(p)] *)
Fixpoint startsWith (p s : string) : bool :=
  match p, s with
  | EmptyString, _ => true
  | String a p', String b s' => Ascii.eqb a b && startsWith p' s'
  | String _ _, EmptyString => false
  end.

(** [s.includes(p)] *)
Fixpoint includes (s p : string) : bool :=
  startsWith p s ||
  match s with
  | EmptyString => false
  | String _ s' => includes s' p
  end.

Fixpoint take (n : nat) (s : string) : string :=
  match n, s with
  | S n', String c s' => String c (take n' s')
  | _, _ => EmptyString
  end.

Fixpoint drop (n : nat) (s : string) : string :=
  match n, s with
  | S n', String _ s' => drop n' s'
  | _, _ => s
  end.

(** [s.substring(a, b)] for [a <= b]. *)
Definition substring (a b : nat) (s : string) : string :=
  take (b - a) (drop a s).

(** [s.substring(a)] *)
Definition substringFrom (a : nat) (s : string) : string := drop a s.

(** [s.split(sep)] for a one-unit separator string; the empty string
    splits into one empty piece. *)
Fixpoint split_go (sep : ascii) (s cur : string) : list string :=
  match s with
  | EmptyString => [rev cur]
  | String c s' =>
      if Ascii.eqb c sep then rev cur :: split_go sep s' EmptyString
      else split_go sep s' (String c cur)
  end.

Definition split (sep : ascii) (s : string) : list string :=
  split_go sep s EmptyString.

(** [l.join(sep)] *)
Fixpoint join (sep : string) (l : list string) : string :=
  match l with
  | [] => EmptyString
  | [x] => x
  | x :: l' => x +:+ sep +:+ join sep l'
  end.

(** [l.slice(a, b)] for [a <= b]; both ends are clamped to the array. *)
Definition slice {A} (a b : nat) (l : list A) : list A :=
  firstn (b - a) (skipn a l).

(** [s.padStart(n, "0")] *)
Fixpoint zeros (n : nat) : string :=
  match n with
  | O => EmptyString
  | S n' => String "0" (zeros n')
  end.

Definition padStart0 (n : nat) (s : string) : string :=
  zeros (n - String.length s) +:+ s.

(** [s.replace(/,/g, '')] needs no matcher: it drops every comma. *)
Fixpoint remove_char (x : ascii) (s : string) : string :=
  match s with
  | EmptyString => EmptyString
  | String c s' =>
      if Ascii.eqb c x then remove_char x s' else String c (remove_char x s')
  end.

End JS.

(** ** Regular expressions

    The fragment of ECMAScript regular expressions the pipeline uses:
    literals, classes, [.], sequence, ordered alternation, greedy and
    lazy repetition, capture groups, [^], [$], [\b] and [(?=...)], with
    the flags [i] and [m].  The flag [g] is not part of the pattern: it
    selects the string method ([matchAll] and [replaceAll] below stand
    for [match] and [replace] with a [g] pattern). *)

Module Regex.
Import JS.

Inductive citem : Type :=
| IChar (c : ascii)            (* a single unit *)
| IRange (lo hi : ascii)       (* lo-hi *)
| IDigit                       (* \d *)
| ISpace                       (* \s *)
| IWord.                       (* \w *)

Inductive regex : Type :=
| Eps
| Chr (c : ascii)
| Dot                                  (* .  : anything but a line terminator *)
| Cls (negated : bool) (items : list citem)
| Seq (r1 r2 : regex)
| Alt (r1 r2 : regex)
| Star (greedy : bool) (r : regex)
| Group (i : nat) (r : regex)          (* the i-th capturing group *)
| Bol                                  (* ^ *)
| Eol                                  (* $ *)
| WordB                                (* \b *)
| Ahead (r : regex).                   (* (?=r) *)

Record flags : Type := Flags { icase : bool; multiline : bool }.

Definition no_flags : flags := Flags false false.
Definition flag_i : flags := Flags true false.
Definition flag_m : flags := Flags false true.
Definition flag_mi : flags := Flags true true.

(** Derived forms; each unfolds to the constructors above. *)

Fixpoint lit (s : string) : regex :=
  match s with
  | EmptyString => Eps
  | String c EmptyString => Chr c
  | String c s' => Seq (Chr c) (lit s')
  end.

Fixpoint seq (rs : list regex) : regex :=
  match rs with
  | [] => Eps
  | [r] => r
  | r :: rs' => Seq r (seq rs')
  end.

Fixpoint alt (rs : list regex) : regex :=
  match rs with
  | [] => Eps
  | [r] => r
  | r :: rs' => Alt r (alt rs')
  end.

Definition star (r : regex) : regex := Star true r.            (* r*  *)
Definition plus (r : regex) : regex := Seq r (Star true r).    (* r+  *)
Definition plus_lazy (r : regex) : regex := Seq r (Star false r). (* r+? *)
Definition opt (r : regex) : regex := Alt r Eps.               (* r?  *)
Definition opt_lazy (r : regex) : regex := Alt Eps r.          (* r?? *)

Fixpoint rep (n : nat) (r : regex) : regex :=                  (* r{n} *)
  match n with
  | O => Eps
  | S O => r
  | S n' => Seq r (rep n' r)
  end.

Fixpoint upto (n : nat) (r : regex) : regex :=                 (* r{0,n} *)
  match n with
  | O => Eps
  | S n' => opt (Seq r (upto n' r))
  end.

Fixpoint upto_lazy (n : nat) (r : regex) : regex :=            (* r{0,n}? *)
  match n with
  | O => Eps
  | S n' => opt_lazy (Seq r (upto_lazy n' r))
  end.

(** r{n,m}, r{n,m}? and r{n,} *)
Definition rep_range (n m : nat) (r : regex) : regex :=
  match n with
  | O => upto m r
  | _ => Seq (rep n r) (upto (m - n) r)
  end.
Definition rep_range_lazy (n m : nat) (r : regex) : regex :=
  match n with
  | O => upto_lazy m r
  | _ => Seq (rep n r) (upto_lazy (m - n) r)
  end.
Definition rep_min (n : nat) (r : regex) : regex :=
  match n with
  | O => star r
  | _ => Seq (rep n r) (star r)
  end.

Definition digit : regex := Cls false [IDigit].                (* \d *)
Definition space : regex := Cls false [ISpace].                (* \s *)
Definition cls (items : list citem) : regex := Cls false items.
Definition ncls (items : list citem) : regex := Cls true items.

(** *** Matching one unit *)

Definition item_has (it : citem) (c : ascii) : bool :=
  match it with
  | IChar x => Ascii.eqb x c
  | IRange lo hi => in_range (code lo) (code hi) c
  | IDigit => is_digit c
  | ISpace => is_space c
  | IWord => is_word c
  end.

(** Under [i] a unit belongs to a class when some member of the class
    folds to the same unit; the candidates are the unit itself and its
    two case variants. *)
Definition item_match (fl : flags) (it : citem) (c : ascii) : bool :=
  if icase fl
  then item_has it c || item_has it (upper_char c) || item_has it (lower_char c)
  else item_has it c.

Definition class_match (fl : flags) (negated : bool) (items : list citem)
    (c : ascii) : bool :=
  xorb negated (existsb (fun it => item_match fl it c) items).

Definition chr_match (fl : flags) (x c : ascii) : bool :=
  if icase fl then Ascii.eqb (upper_char x) (upper_char c) else Ascii.eqb x c.

(** *** The backtracking matcher

    A matcher state is a position in the subject: the unit before it
    (if any), the text after it, the number of units consumed since
    the start of the attempt, and the captures made so far. *)

Record mstate : Type := MState {
  prev : option ascii;
  rest : string;
  pos : nat;
  caps : list (nat * string)
}.

Definition advance (c : ascii) (s' : string) (st : mstate) : mstate :=
  MState (Some c) s' (S (pos st)) (caps st).

Definition set_cap (i : nat) (from to : mstate) : mstate :=
  MState (prev to) (rest to) (pos to)
         ((i, take (pos to - pos from) (rest from)) :: caps to).

Definition at_word (o : option ascii) : bool :=
  match o with Some c => is_word c | None => false end.

Definition next (st : mstate) : option ascii :=
  match rest st with
  | EmptyString => None
  | String c _ => Some c
  end.

Definition at_bol (fl : flags) (st : mstate) : bool :=
  match prev st with
  | None => true
  | Some c => multiline fl && is_line_terminator c
  end.

Definition at_eol (fl : flags) (st : mstate) : bool :=
  match next st with
  | None => true
  | Some c => multiline fl && is_line_terminator c
  end.

Definition step1 (ok : ascii -> bool) (st : mstate)
    (k : mstate -> option mstate) : option mstate :=
  match rest st with
  | EmptyString => None
  | String c s' => if ok c then k (advance c s' st) else None
  end.

(** [run fl r st k] matches [r] at [st] and hands every way of doing
    so, in priority order, to the continuation [k]; the first one [k]
    accepts is the answer.  An iteration of a [Star] that consumes
    nothing is rejected, as in ECMAScript, so the repetition count is
    bounded by the length of the remaining text. *)
Fixpoint run (fl : flags) (r : regex) (st : mstate)
    (k : mstate -> option mstate) {struct r} : option mstate :=
  match r with
  | Eps => k st
  | Chr x => step1 (chr_match fl x) st k
  | Dot => step1 (fun c => negb (is_line_terminator c)) st k
  | Cls negated items => step1 (class_match fl negated items) st k
  | Seq r1 r2 => run fl r1 st (fun st1 => run fl r2 st1 k)
  | Alt r1 r2 =>
      match run fl r1 st k with
      | Some res => Some res
      | None => run fl r2 st k
      end
  | Star greedy r1 =>
      (fix loop (n : nat) (st0 : mstate) {struct n} : option mstate :=
         match n with
         | O => k st0
         | S n' =>
             if greedy then
               match run fl r1 st0
                       (fun st1 => if (pos st0 <? pos st1)%nat
                                   then loop n' st1 else None) with
               | Some res => Some res
               | None => k st0
               end
             else
               match k st0 with
               | Some res => Some res
               | None =>
                   run fl r1 st0
                     (fun st1 => if (pos st0 <? pos st1)%nat
                                 then loop n' st1 else None)
               end
         end) (String.length (rest st)) st
  | Group i r1 => run fl r1 st (fun st1 => k (set_cap i st st1))
  | Bol => if at_bol fl st then k st else None
  | Eol => if at_eol fl st then k st else None
  | WordB => if xorb (at_word (prev st)) (at_word (next st)) then k st else None
  | Ahead r1 =>
      match run fl r1 st Some with
      | Some st1 => k (MState (prev st) (rest st) (pos st) (caps st1))
      | None => None
      end
  end.

(** A match result: where it starts, what it covers, and the captures. *)
Record rmatch : Type := RMatch {
  m_index : nat;
  m_text : string;
  m_caps : list (nat * string)
}.

(** [m[i]] for a capture group; [None] is [undefined]. *)
Fixpoint assoc (i : nat) (l : list (nat * string)) : option string :=
  match l with
  | [] => None
  | (j, v) :: l' => if (i =? j)%nat then Some v else assoc i l'
  end.

Definition group (i : nat) (m : rmatch) : option string := assoc i (m_caps m).

(** [$i] in a replacement template: an unset group prints as nothing. *)
Definition group_text (i : nat) (m : rmatch) : string :=
  match group i m with Some v => v | None => EmptyString end.

(** One attempt, anchored at the given position. *)
Definition match_here (fl : flags) (r : regex) (p : option ascii) (s : string)
    (off : nat) : option rmatch :=
  match run fl r (MState p s 0 []) Some with
  | Some st => Some (RMatch off (take (pos st) s) (caps st))
  | None => None
  end.

(** The leftmost match at or after the current position. *)
Fixpoint search_from (fl : flags) (r : regex) (p : option ascii) (s : string)
    (off : nat) : option rmatch :=
  match match_here fl r p s off with
  | Some m => Some m
  | None =>
      match s with
      | EmptyString => None
      | String c s' => search_from fl r (Some c) s' (S off)
      end
  end.

(** [r.exec(s)] / [s.match(r)] for a pattern without [g]. *)
Definition exec (fl : flags) (r : regex) (s : string) : option rmatch :=
  search_from fl r None s 0.

(** [r.test(s)] *)
Definition test (fl : flags) (r : regex) (s : string) : bool :=
  match exec fl r s with Some _ => true | None => false end.

(** All matches, left to right, as [g] finds them: after a match of
    length [n > 0] the scan resumes [n] units on; after an empty match
    it resumes one unit on.  [skip] counts the units still covered by
    the previous match. *)
Fixpoint scan (fl : flags) (r : regex) (p : option ascii) (s : string)
    (skip off : nat) : list rmatch :=
  match skip with
  | S skip' =>
      match s with
      | EmptyString => []
      | String c s' => scan fl r (Some c) s' skip' (S off)
      end
  | O =>
      match match_here fl r p s off with
      | Some m =>
          m :: match s with
               | EmptyString => []
               | String c s' =>
                   scan fl r (Some c) s' (Nat.pred (String.length (m_text m))) (S off)
               end
      | None =>
          match s with
          | EmptyString => []
          | String c s' => scan fl r (Some c) s' 0 (S off)
          end
      end
  end.

(** [s.match(r)] for a pattern with [g]: the matched texts; the empty
    list stands for [null]. *)
Definition matchAll (fl : flags) (r : regex) (s : string) : list string :=
  map m_text (scan fl r None s 0 0).

(** [s.replace(r, f)] for a pattern with [g]; [f] receives the match. *)
Fixpoint replace_go (fl : flags) (r : regex) (f : rmatch -> string)
    (p : option ascii) (s : string) (skip off : nat) : string :=
  match skip with
  | S skip' =>
      match s with
      | EmptyString => EmptyString
      | String c s' => replace_go fl r f (Some c) s' skip' (S off)
      end
  | O =>
      match match_here fl r p s off with
      | Some m =>
          f m +:+
          match s with
          | EmptyString => EmptyString
          | String c s' =>
              match String.length (m_text m) with
              | O => String c (replace_go fl r f (Some c) s' 0 (S off))
              | S n => replace_go fl r f (Some c) s' n (S off)
              end
          end
      | None =>
          match s with
          | EmptyString => EmptyString
          | String c s' => String c (replace_go fl r f (Some c) s' 0 (S off))
          end
      end
  end.

Definition replaceAll (fl : flags) (r : regex) (f : rmatch -> string)
    (s : string) : string :=
  replace_go fl r f None s 0 0.

(** [s.replace(r, f)] for a pattern without [g]: the first match only. *)
Definition replaceFirst (fl : flags) (r : regex) (f : rmatch -> string)
    (s : string) : string :=
  match exec fl r s with
  | Some m =>
      take (m_index m) s +:+ f m +:+ drop (m_index m + String.length (m_text m)) s
  | None => s
  end.

(** [s.split(r)]: the pieces between the matches.  A match is tried at
    every position before the end of [s]; an empty match at the start
    of the current piece is passed over. *)
Fixpoint split_go (fl : flags) (r : regex) (p : option ascii) (s : string)
    (skip : nat) (cur : string) : list string :=
  match s with
  | EmptyString => [rev cur]
  | String c s' =>
      match skip with
      | S skip' => split_go fl r (Some c) s' skip' cur
      | O =>
          match match_here fl r p s 0 with
          | Some m =>
              match String.length (m_text m), cur with
              | O, EmptyString => split_go fl r (Some c) s' 0 (String c cur)
              | O, _ => rev cur :: split_go fl r (Some c) s' 0 (str1 c)
              | S n, _ => rev cur :: split_go fl r (Some c) s' n EmptyString
              end
          | None => split_go fl r (Some c) s' 0 (String c cur)
          end
      end
  end.

Definition split (fl : flags) (r : regex) (s : string) : list string :=
  match s with
  | EmptyString =>
      match match_here fl r None s 0 with Some _ => [] | None => [s] end
  | _ => split_go fl r None s 0 EmptyString
  end.

End Regex.

(** ** Values shared by the extractors *)

Module Ledger.
Import JS Regex.

(** The issuer tags [detectBank] can return. *)
Inductive bank : Type := rbc | cibc | td | scotiabank | bmo.

Inductive txn_type : Type := debit | credit.

(** A transaction object.  The balance-based parser sets [balance];
    the two line-scan parsers leave it out. *)
Record transaction : Type := Transaction {
  date : string;
  type : txn_type;
  merchant : string;
  description : string;
  amount : Z;
  balance : option Z
}.

(** Reads the leading decimal digits of [s]. *)
Fixpoint read_digits (s : string) (acc : Z) : Z * string :=
  match s with
  | String c s' =>
      if is_digit c then read_digits s' (10 * acc + Z.of_nat (code c - 48))%Z
      else (acc, s)
  | EmptyString => (acc, s)
  end.

Definition digit_at (s : string) : Z * string :=
  match s with
  | String c s' => if is_digit c then (Z.of_nat (code c - 48), s') else (0%Z, s)
  | EmptyString => (0%Z, s)
  end.

(** [parseFloat] on the one shape the parsers hand to it: optional
    digits, a point and two digits (a token of [[\d,]+\.\d{2}] with its
    commas removed, or [`${m[1]}.${m[2]}`]).  The value is returned in
    hundredths, so ["1014.71"] is [101471]. *)
Definition parseFloat (s : string) : Z :=
  let '(ip, s1) := read_digits s 0 in
  match s1 with
  | String "." s2 =>
      let '(d1, s3) := digit_at s2 in
      let '(d2, _) := digit_at s3 in
      (100 * ip + 10 * d1 + d2)%Z
  | _ => (100 * ip)%Z
  end.

(** [parseFloat(n.replace(/,/g, ''))] *)
Definition parseNumber (n : string) : Z := parseFloat (remove_char "," n).

(** [/[\d,]+\.\d{2}/] : a decimal-formatted numeric token. *)
Definition amountRe : regex :=
  seq [plus (cls [IDigit; IChar ","]); Chr "."; rep 2 digit].

(** [Math.max(x, ...xs)] *)
Definition mathMax (x : Z) (xs : list Z) : Z := fold_left Z.max xs x.

Definition monthTable : list (string * string) :=
  [("January", "01"); ("February", "02"); ("March", "03"); ("April", "04");
   ("May", "05"); ("June", "06"); ("July", "07"); ("August", "08");
   ("September", "09"); ("October", "10"); ("November", "11");
   ("December", "12");
   ("Jan", "01"); ("Feb", "02"); ("Mar", "03"); ("Apr", "04");
   ("May", "05"); ("Jun", "06"); ("Jul", "07"); ("Aug", "08");
   ("Sep", "09"); ("Oct", "10"); ("Nov", "11"); ("Dec", "12")].

Definition shortMonthTable : list (string * string) :=
  [("Jan", "01"); ("Feb", "02"); ("Mar", "03"); ("Apr", "04");
   ("May", "05"); ("Jun", "06"); ("Jul", "07"); ("Aug", "08");
   ("Sep", "09"); ("Oct", "10"); ("Nov", "11"); ("Dec", "12")].

Fixpoint lookupMonth (tbl : list (string * string)) (k : string) : option string :=
  match tbl with
  | [] => None
  | (k', v) :: tbl' => if String.eqb k k' then Some v else lookupMonth tbl' k
  end.

(** [convertToISO(dateStr, year)] over a month table.  A month missing
    from the table prints as [undefined], as the template literal does.
    Every call site passes [`${month} ${day}`] with both parts matched
    by a date pattern, so [parts[1]] is always present. *)
Definition convertToISO (months : list (string * string))
    (dateStr year : string) : string :=
  let parts := Regex.split no_flags (plus space) (trim dateStr) in
  let month :=
    match lookupMonth months (nth 0 parts EmptyString) with
    | Some m => m
    | None => "undefined"
    end in
  let day := padStart0 2 (nth 1 parts EmptyString) in
  year +:+ "-" +:+ month +:+ "-" +:+ day.

(** The alternation of the twelve month abbreviations, in the order a
    date pattern lists them. *)
Definition monthsFrom (names : list string) : regex := alt (map lit names).

Definition monthsNovFirst : list string :=
  ["Nov"; "Dec"; "Jan"; "Feb"; "Mar"; "Apr"; "May"; "Jun"; "Jul"; "Aug";
   "Sep"; "Oct"].

Definition monthsJanFirst : list string :=
  ["Jan"; "Feb"; "Mar"; "Apr"; "May"; "Jun"; "Jul"; "Aug"; "Sep"; "Oct";
   "Nov"; "Dec"].

(** [/^(Nov|Dec|...|Oct)\s+(\d+)/] : the CIBC date, ["Nov 3"]. *)
Definition cibcDateRe : regex :=
  seq [Bol; Group 1 (monthsFrom monthsNovFirst); plus space;
       Group 2 (plus digit)].

(** [/^(\d{1,2})\s+(Jan|Feb|...|Dec)/] : the RBC date, ["27 Oct"]. *)
Definition rbcDateRe : regex :=
  seq [Bol; Group 1 (rep_range 1 2 digit); plus space;
       Group 2 (monthsFrom monthsJanFirst)].

(** The scrubbing markers every [cleanMerchantName] removes first:
    [replace(/\s+/g, ' ').trim()], then the three marker rewrites,
    each followed by [trim()]. *)
Definition stripMarkers (merchant : string) : string :=
  let merchant := trim (replaceAll no_flags (plus space) (fun _ => " ") merchant) in
  let merchant := trim (replaceAll no_flags (lit "[REDACTED]")
                          (fun _ => EmptyString) merchant) in
  let merchant := trim (replaceAll no_flags (lit "[RECIPIENT]")
                          (fun _ => "E-Transfer Recipient") merchant) in
  trim (replaceAll no_flags (lit "[REF]") (fun _ => EmptyString) merchant).

(** [merchant.replace(/\s+SUFFIX\.?$/i, '')] *)
Definition dropSuffix (suffix merchant : string) : string :=
  replaceFirst flag_i (seq [plus space; lit suffix; opt (Chr "."); Eol])
    (fun _ => EmptyString) merchant.

(** The chain [if (merchant.includes(k)) return v; ...]. *)
Fixpoint firstAlias (aliases : list (string * string)) (merchant : string)
    : option string :=
  match aliases with
  | [] => None
  | (k, v) :: aliases' =>
      if includes merchant k then Some v else firstAlias aliases' merchant
  end.

(** [merchant || 'Unknown Merchant'] *)
Definition orUnknownMerchant (merchant : string) : string :=
  match merchant with
  | EmptyString => "Unknown Merchant"
  | _ => merchant
  end.

End Ledger.

(** ** Numbers as the program holds them

    Every JavaScript number is an IEEE 754 binary64 value: 53 bits of
    mantissa, results rounded to nearest with ties to even. *)

Module Binary64.

Definition prec : Z := 53.
Definition emax : Z := 1024.

Definition double : Type := spec_float.

(** An integer as a mantissa with exponent 0, not yet rounded. *)
Definition integer (n : Z) : double :=
  match n with
  | Z0 => S754_zero false
  | Zpos m => S754_finite false m 0
  | Zneg m => S754_finite true m 0
  end.

(** The double nearest to [n / 100]: what [parseFloat] returns on a
    token whose decimal reading is [n] hundredths. *)
Definition ofHundredths (n : Z) : double :=
  SFdiv prec emax (integer n) (integer 100).

(** [x - y] *)
Definition minus (x y : double) : double := SFsub prec emax x y.

End Binary64.

(** ** parsers/balance-based.js *)

Module BalanceBased.
Import JS Regex Ledger.

(** [/(?:Your\s+)?[Oo]pening balance[^\$]*\$?([\d,]+\.\d{2})/i] *)
Definition openingRe : regex :=
  seq [opt (seq [lit "Your"; plus space]);
       cls [IChar "O"; IChar "o"]; lit "pening balance";
       star (ncls [IChar "$"]); opt (Chr "$");
       Group 1 amountRe].

(** [/^\d+[\.,]\d{2}$/] : a line that is just a balance. *)
Definition justBalanceRe : regex :=
  seq [Bol; plus digit; cls [IChar "."; IChar ","]; rep 2 digit; Eol].

(** The transaction patterns, all with flag [i]. *)
Definition patterns : list regex :=
  [ seq [lit "VISA DEBIT"; star Dot; lit "PURCHASE"];
    seq [lit "VISA DEBIT"; star Dot; lit "REVERSAL"];
    lit "INTL VISA DEB";
    lit "E-TRANSFER";
    lit "e-Transfer";
    lit "PREAUTHORIZED DEBIT";
    lit "DEPOSIT";
    lit "INTERNET TRANSFER";
    lit "SERVICE CHARGE";
    lit "Contactless Interac purchase";
    lit "Online Banking payment";
    lit "Telephone Bill Pmt";
    lit "Misc Payment";
    lit "Monthly fee" ].

(** [/^([A-Z][A-Z\s_\-\/\*\.]+?)(?=\d)/] *)
Definition merchantRe : regex :=
  seq [Bol;
       Group 1 (seq [cls [IRange "A" "Z"];
                     plus_lazy (cls [IRange "A" "Z"; ISpace; IChar "_";
                                     IChar "-"; IChar "/"; IChar "*";
                                     IChar "."])]);
       Ahead digit].

(** [/^[A-Z]/] *)
Definition startsUpperRe : regex := seq [Bol; cls [IRange "A" "Z"]].

(** [/\s+\d/] *)
Definition spaceDigitRe : regex := seq [plus space; digit].

(** [/REVERSAL|DEPOSIT|E-TRANSFER.*sent|e-Transfer.*sent|Misc Payment/i] *)
Definition isCreditRe : regex :=
  alt [lit "REVERSAL"; lit "DEPOSIT";
       seq [lit "E-TRANSFER"; star Dot; lit "sent"];
       seq [lit "e-Transfer"; star Dot; lit "sent"];
       lit "Misc Payment"].

Definition aliases : list (string * string) :=
  [("UBER", "Uber"); ("SPOTIFY", "Spotify"); ("WEALTHSIMPLE", "Wealthsimple");
   ("GOODLIFE", "GoodLife Fitness"); ("SPORTCHEK", "SportChek");
   ("MARKS.COM", "Marks"); ("FOOD BASICS", "Food Basics");
   ("STARBUCKS", "Starbucks"); ("REXALL", "Rexall Pharmacy")].

Definition cleanMerchantName (merchant : string) : string :=
  let merchant := stripMarkers merchant in
  let merchant := dropSuffix "INC" merchant in
  let merchant := dropSuffix "LTD" merchant in
  match firstAlias aliases merchant with
  | Some name => name
  | None => orUnknownMerchant merchant
  end.

(** The merchant guess: taken from the line after the current one. *)
Definition guessMerchant (allLines : list string) (currentIndex : nat) : string :=
  match nth_error allLines (currentIndex + 1) with
  | Some next =>
      let nextLine := trim next in
      match exec no_flags merchantRe nextLine with
      | Some m => trim (group_text 1 m)
      | None =>
          if test no_flags startsUpperRe nextLine
          then trim (nth 0 (Regex.split no_flags spaceDigitRe nextLine) EmptyString)
          else "Unknown"
      end
  | None => "Unknown"
  end.

(** [allLines.slice(currentIndex, currentIndex + 3).join(' ')] *)
Definition searchText (allLines : list string) (currentIndex : nat) : string :=
  join " " (slice currentIndex (currentIndex + 3) allLines).

(** The downward loop [for (i = allNumbers.length - 1; i >= 0; i--)]
    that stops at the first token holding a comma; [None] when the loop
    ends with [currentBalance] still [null]. *)
Fixpoint rightmostComma (backwards : list string) : option Z :=
  match backwards with
  | [] => None
  | n :: backwards' =>
      if includes n "," then Some (parseNumber n) else rightmostComma backwards'
  end.

(** The balance read from a non-empty token array. *)
Definition selectBalance (first : string) (others : list string) : Z :=
  match rightmostComma (List.rev (first :: others)) with
  | Some b => b
  | None => mathMax (parseNumber first) (map parseNumber others)
  end.

(** The tail of [parseTransactionLine], from [const amount = ...] on.
    [isCredit] is the result of the keyword match on the line.  The
    field [amount] keeps the difference of the two decimal readings;
    the double the program stores there is [storedAmount] below. *)
Definition makeTransaction (isCredit : bool) (date line merchant : string)
    (previousBalance currentBalance : Z) : transaction :=
  let amount := (previousBalance - currentBalance)%Z in
  let type := if (amount <? 0)%Z then credit else debit in
  {| date := date;
     type := type;
     merchant := cleanMerchantName merchant;
     description := trim (substring 0 50 line);
     amount := amount;
     balance := Some currentBalance |}.

Definition parseTransactionLine (line date : string) (allLines : list string)
    (currentIndex : nat) (previousBalance : option Z) (bk : bank)
    : option transaction :=
  if test no_flags justBalanceRe line then None
  else if includes line "CORRECTION" then None
  else if negb (existsb (fun p => test flag_i p line) patterns) then None
  else
    let merchant := guessMerchant allLines currentIndex in
    match matchAll no_flags amountRe (searchText allLines currentIndex) with
    | [] => None
    | first :: others =>
        let currentBalance := selectBalance first others in
        match previousBalance with
        | None => None
        | Some previous =>
            Some (makeTransaction (test flag_i isCreditRe line) date line
                    merchant previous currentBalance)
        end
    end.

(** The lines [parseTransactions] passes over as headers and junk. *)
Definition junkMarkers : list string :=
  ["Transaction details"; "Details of your account"; "Page "; "continued";
   "DateDescription"; "Balance forward"; "Opening balance"; "Closing balance";
   "Account Statement"].

Definition isJunk (line : string) : bool :=
  match line with
  | EmptyString => true
  | _ => existsb (includes line) junkMarkers
  end.

(** The date a line opens, if it starts with one. *)
Definition lineDate (bk : bank) (year line : string) : option string :=
  match bk with
  | cibc =>
      match exec no_flags cibcDateRe line with
      | Some m =>
          Some (convertToISO monthTable
                  (group_text 1 m +:+ " " +:+ group_text 2 m) year)
      | None => None
      end
  | rbc =>
      match exec no_flags rbcDateRe line with
      | Some m =>
          Some (convertToISO monthTable
                  (group_text 2 m +:+ " " +:+ group_text 1 m) year)
      | None => None
      end
  | _ => None
  end.

(** The body of the [for] loop, run over the lines still to visit;
    [i] is the index of the first of them in [lines]. *)
Fixpoint scanLines (bk : bank) (year : string) (lines todo : list string)
    (i : nat) (currentDate : option string) (previousBalance : option Z)
    : list transaction :=
  match todo with
  | [] => []
  | raw :: todo' =>
      let line := trim raw in
      if isJunk line
      then scanLines bk year lines todo' (S i) currentDate previousBalance
      else
        let currentDate :=
          match lineDate bk year line with
          | Some d => Some d
          | None => currentDate
          end in
        match currentDate with
        | None => scanLines bk year lines todo' (S i) currentDate previousBalance
        | Some d =>
            match parseTransactionLine line d lines i previousBalance bk with
            | Some transaction =>
                transaction ::
                scanLines bk year lines todo' (S i) currentDate
                  (balance transaction)
            | None =>
                scanLines bk year lines todo' (S i) currentDate previousBalance
            end
        end
  end.

(** The opening balance that seeds [previousBalance]. *)
Definition openingBalance (text : string) : option Z :=
  match exec flag_i openingRe text with
  | Some m => Some (parseNumber (group_text 1 m))
  | None => None
  end.

Definition parseTransactions (text year : string) (bk : bank)
    : list transaction :=
  let lines := JS.split LF text in
  scanLines bk year lines lines 0 None (openingBalance text).

(** [const amount = previousBalance - currentBalance] on the doubles
    the two balances are held as: the value of the [amount] field. *)
Definition storedAmount (previousBalance currentBalance : Z) : Binary64.double :=
  Binary64.minus (Binary64.ofHundredths previousBalance)
                 (Binary64.ofHundredths currentBalance).

(** The [amount] fields of the transactions the loop emits from the
    seed [previousBalance]: each is built from the balance handed on
    ([previousBalance = transaction.balance]) and its own balance.
    Without a previous balance no transaction is built. *)
Fixpoint storedAmounts (previousBalance : option Z) (out : list transaction)
    : list Binary64.double :=
  match out with
  | [] => []
  | transaction :: out' =>
      match previousBalance, balance transaction with
      | Some previous, Some currentBalance =>
          storedAmount previous currentBalance ::
          storedAmounts (balance transaction) out'
      | _, _ => []
      end
  end.

End BalanceBased.

(** ** parsers/cibc.js *)

Module Cibc.
Import JS Regex Ledger.

(** An entry of the [patterns] table.  [merchantNext] and [merchant]
    are optional in the source; an absent [merchantNext] is falsy. *)
Record pattern : Type := Pattern {
  ptype : string;
  regex_ : regex;
  merchantNext : bool;
  pmerchant : option string;
  isCredit : bool
}.

Definition patterns : list pattern :=
  [ Pattern "VISA DEBIT RETAIL PURCHASE"
      (seq [lit "VISA DEBIT"; star Dot; lit "PURCHASE"]) true None false;
    Pattern "VISA DEBIT PURCHASE REVERSAL"
      (seq [lit "VISA DEBIT"; star Dot; lit "REVERSAL"]) true None true;
    Pattern "INTL VISA DEB RETAIL PURCHASE"
      (seq [lit "INTL VISA DEB"; star Dot; lit "PURCHASE"]) true None false;
    Pattern "E-TRANSFER"
      (lit "E-TRANSFER") false (Some "E-Transfer") true;
    Pattern "PREAUTHORIZED DEBIT"
      (lit "PREAUTHORIZED DEBIT") true None false;
    Pattern "DEPOSIT"
      (seq [Bol; lit "DEPOSIT"; Eol]) true None true;
    Pattern "INTERNET TRANSFER"
      (lit "INTERNET TRANSFER") false (Some "Internet Transfer") false;
    Pattern "SERVICE CHARGE"
      (lit "SERVICE CHARGE") true None false ].

(** [/^([A-Z][A-Z\s\/\.\*\-\[\]]+?)(?:\s+[\d,\.]+|$)/] *)
Definition merchantRe : regex :=
  seq [Bol;
       Group 1 (seq [cls [IRange "A" "Z"];
                     plus_lazy (cls [IRange "A" "Z"; ISpace; IChar "/";
                                     IChar "."; IChar "*"; IChar "-";
                                     IChar "["; IChar "]"])]);
       Alt (seq [plus space; plus (cls [IDigit; IChar ","; IChar "."])]) Eol].

Definition aliases : list (string * string) :=
  [("UBER", "Uber"); ("SPOTIFY", "Spotify"); ("WEALTHSIMPLE", "Wealthsimple");
   ("GOODLIFE", "GoodLife Fitness"); ("SPORTCHEK", "SportChek");
   ("MARKS.COM", "Marks"); ("CIBC Securities", "CIBC Securities")].

Definition cleanMerchantName (merchant : string) : string :=
  let merchant := stripMarkers merchant in
  let merchant := dropSuffix "INC" merchant in
  let merchant := dropSuffix "LTD" merchant in
  let merchant := dropSuffix "CORP" merchant in
  match firstAlias aliases merchant with
  | Some name => name
  | None => orUnknownMerchant merchant
  end.

(** [pattern.merchant || 'Unknown'], then the next line when
    [merchantNext] is set. *)
Definition guessMerchant (p : pattern) (allLines : list string)
    (currentIndex : nat) : string :=
  let merchant :=
    match pmerchant p with
    | Some (String c s) => String c s
    | _ => "Unknown"
    end in
  if merchantNext p then
    match nth_error allLines (currentIndex + 1) with
    | Some next =>
        match exec no_flags merchantRe (trim next) with
        | Some m => trim (group_text 1 m)
        | None => merchant
        end
    | None => merchant
    end
  else merchant.

Definition searchText (allLines : list string) (currentIndex : nat) : string :=
  join " " (slice currentIndex (currentIndex + 3) allLines).

(** The [for (const pattern of patterns)] loop: the first pattern that
    matches the line and finds an amount returns; a pattern that matches
    but finds no amount falls through to the next one. *)
Fixpoint tryPatterns (ps : list pattern) (line date : string)
    (allLines : list string) (currentIndex : nat) : option transaction :=
  match ps with
  | [] => None
  | p :: ps' =>
      if test flag_i (regex_ p) line then
        let merchant := guessMerchant p allLines currentIndex in
        match exec no_flags (Group 1 amountRe) (searchText allLines currentIndex) with
        | Some amountMatch =>
            let amount := parseNumber (group_text 1 amountMatch) in
            Some {| date := date;
                    type := if isCredit p then credit else debit;
                    merchant := cleanMerchantName merchant;
                    description := ptype p;
                    amount := if isCredit p then amount else (- amount)%Z;
                    balance := None |}
        | None => tryPatterns ps' line date allLines currentIndex
        end
      else tryPatterns ps' line date allLines currentIndex
  end.

Definition parseTransactionLine (line date : string) (allLines : list string)
    (currentIndex : nat) : option transaction :=
  if includes line "CORRECTION" then None
  else tryPatterns patterns line date allLines currentIndex.

Definition junkMarkers : list string :=
  ["Transaction details"; "Page "; "continued on next page";
   "DateDescription"; "Balance forward"; "Opening balance"; "Closing balance";
   "CIBC Account Statement"].

Definition isJunk (line : string) : bool :=
  match line with
  | EmptyString => true
  | _ => existsb (includes line) junkMarkers
  end.

(** [transactions.push(t)] when a transaction came back. *)
Definition pushed (t : option transaction) : list transaction :=
  match t with Some x => [x] | None => [] end.

(** The [while (i < lines.length)] loop. *)
Fixpoint scanLines (year : string) (lines todo : list string) (i : nat)
    (currentDate : option string) : list transaction :=
  match todo with
  | [] => []
  | raw :: todo' =>
      let line := trim raw in
      if isJunk line then scanLines year lines todo' (S i) currentDate
      else
        match exec no_flags cibcDateRe line with
        | Some dateMatch =>
            let d := convertToISO shortMonthTable
                       (group_text 1 dateMatch +:+ " " +:+ group_text 2 dateMatch)
                       year in
            let restOfLine := substringFrom (String.length (m_text dateMatch)) line in
            pushed (parseTransactionLine restOfLine d lines i)
              ++ scanLines year lines todo' (S i) (Some d)
        | None =>
            match currentDate with
            | Some d =>
                pushed (parseTransactionLine line d lines i)
                  ++ scanLines year lines todo' (S i) currentDate
            | None => scanLines year lines todo' (S i) currentDate
            end
        end
  end.

Definition parseTransactions (text year : string) : list transaction :=
  let lines := JS.split LF text in
  scanLines year lines lines 0 None.

End Cibc.

(** ** The RBC line-scan parser *)

Module Rbc.
Import JS Regex Ledger.

(** [/^\d+,?\d*\.\d{2}$/] : a line that is just a balance. *)
Definition justBalanceRe : regex :=
  seq [Bol; plus digit; opt (Chr ","); star digit; Chr "."; rep 2 digit; Eol].

(** [/KEYWORD\s+(.+?)(?:\d+\.\d{2}|$)/i] : the text between a keyword
    and the first amount. *)
Definition afterKeywordRe (keyword : string) : regex :=
  seq [lit keyword; plus space; Group 1 (plus_lazy Dot);
       Alt (seq [plus digit; Chr "."; rep 2 digit]) Eol].

(** [/^([A-Z\s_]+\d{2,4}?)/] *)
Definition interacMerchantRe : regex :=
  seq [Bol;
       Group 1 (seq [plus (cls [IRange "A" "Z"; ISpace; IChar "_"]);
                     rep_range_lazy 2 4 digit])].

(** [/Online Banking payment\s*-\s*\[REF\]\s*([A-Z\s]+)/i] *)
Definition onlineMerchantRe : regex :=
  seq [lit "Online Banking payment"; star space; Chr "-"; star space;
       lit "[REF]"; star space; Group 1 (plus (cls [IRange "A" "Z"; ISpace]))].

(** [/^([A-Z\s]+?)(\d|$)/] *)
Definition onlineNextRe : regex :=
  seq [Bol; Group 1 (plus_lazy (cls [IRange "A" "Z"; ISpace]));
       Group 2 (Alt digit Eol)].

Record pattern : Type := Pattern {
  ptype : string;
  regex_ : regex;
  isCredit : bool;
  extractMerchant : string -> list string -> nat -> string
}.

Definition afterKeyword (keyword fallback line : string) : string :=
  match exec flag_i (afterKeywordRe keyword) line with
  | Some m => trim (group_text 1 m)
  | None => fallback
  end.

Definition patterns : list pattern :=
  [ Pattern "E-Transfer" (lit "e-Transfer sent") false
      (fun line _ _ => afterKeyword "e-Transfer sent" "E-Transfer" line);
    Pattern "Interac Purchase" (lit "Contactless Interac purchase") false
      (fun _ lines idx =>
         match nth_error lines (idx + 1) with
         | Some next =>
             match exec no_flags interacMerchantRe (trim next) with
             | Some m => trim (group_text 1 m)
             | None => "Contactless Purchase"
             end
         | None => "Contactless Purchase"
         end);
    Pattern "Online Banking Payment" (lit "Online Banking payment") false
      (fun line lines idx =>
         match exec flag_i onlineMerchantRe line with
         | Some m => trim (group_text 1 m)
         | None =>
             match nth_error lines (idx + 1) with
             | Some next =>
                 match exec no_flags onlineNextRe (trim next) with
                 | Some m => trim (group_text 1 m)
                 | None => "Online Payment"
                 end
             | None => "Online Payment"
             end
         end);
    Pattern "Telephone Bill Payment" (lit "Telephone Bill Pmt") false
      (fun line _ _ => afterKeyword "Telephone Bill Pmt" "Bill Payment" line);
    Pattern "Misc Payment" (lit "Misc Payment") true
      (fun line _ _ => afterKeyword "Misc Payment" "Misc Payment" line);
    Pattern "Monthly Fee" (lit "Monthly fee") false
      (fun _ _ _ => "RBC Monthly Fee") ].

Definition aliases : list (string * string) :=
  [("FOOD BASICS", "Food Basics"); ("STARBUCKS", "Starbucks");
   ("REXALL", "Rexall Pharmacy"); ("GREEN FRESH", "Green Fresh");
   ("EVERGREEN", "Evergreen Kitchen"); ("MARSHALLS", "Marshalls");
   ("LAGO BAR", "Lago Bar & Grill"); ("FIDO", "Fido Mobile");
   ("COKE_", "Coca-Cola Vending"); ("SUPPLEMENT", "Supplement King");
   ("ZERO LATENCY", "Zero Latency")].

Definition cleanMerchantName (merchant : string) : string :=
  let merchant := stripMarkers merchant in
  (* /\s+\d{2,4}$/ : a trailing location code *)
  let merchant :=
    replaceFirst no_flags (seq [plus space; rep_range 2 4 digit; Eol])
      (fun _ => EmptyString) merchant in
  let merchant := dropSuffix "INC" merchant in
  let merchant := dropSuffix "LTD" merchant in
  match firstAlias aliases merchant with
  | Some name => name
  | None =>
      orUnknownMerchant (replaceAll no_flags (Chr "_") (fun _ => " ") merchant)
  end.

(** [/(\d{1,3})\.(\d{2})$/] : the tail kept from a glued number. *)
Definition gluedTailRe : regex :=
  seq [Group 1 (rep_range 1 3 digit); Chr "."; Group 2 (rep 2 digit); Eol].

(** The amount read from the single number on the next line. *)
Definition oneNumberAmount (numStr : string) : Z :=
  let intPart := remove_char "," (nth 0 (JS.split "." numStr) EmptyString) in
  if (3 <=? String.length intPart)%nat && (String.length intPart <=? 5)%nat
     && negb (includes numStr ",")
  then
    match exec no_flags gluedTailRe numStr with
    | Some m => parseFloat (group_text 1 m +:+ "." +:+ group_text 2 m)
    | None => 0%Z
    end
  else parseNumber numStr.

(** The amount read from the tokens of the next line; [0] when there
    are none.  [1000] is [100000] hundredths. *)
Definition amountOf (allNumbers : list string) : Z :=
  match allNumbers with
  | [] => 0%Z
  | [numStr] => oneNumberAmount numStr
  | [n0; n1] =>
      if (100000 <? parseNumber n1)%Z then parseNumber n0 else parseNumber n1
  | _ =>
      let nums := map parseNumber allNumbers in
      nth (List.length nums - 2) nums 0%Z
  end.

(** [let amount = 0; if (currentIndex + 1 < allLines.length) ...] *)
Definition nextLineAmount (allLines : list string) (currentIndex : nat) : Z :=
  match nth_error allLines (currentIndex + 1) with
  | Some next => amountOf (matchAll no_flags amountRe (trim next))
  | None => 0%Z
  end.

Fixpoint tryPatterns (ps : list pattern) (line date : string)
    (allLines : list string) (currentIndex : nat) : option transaction :=
  match ps with
  | [] => None
  | p :: ps' =>
      if test flag_i (regex_ p) line then
        let merchant := extractMerchant p line allLines currentIndex in
        let amount := nextLineAmount allLines currentIndex in
        if (0 <? amount)%Z then
          Some {| date := date;
                  type := if isCredit p then credit else debit;
                  merchant := cleanMerchantName merchant;
                  description := ptype p;
                  amount := if isCredit p then amount else (- amount)%Z;
                  balance := None |}
        else tryPatterns ps' line date allLines currentIndex
      else tryPatterns ps' line date allLines currentIndex
  end.

Definition parseTransactionLine (line date : string) (allLines : list string)
    (currentIndex : nat) : option transaction :=
  if test no_flags justBalanceRe line then None
  else tryPatterns patterns line date allLines currentIndex.

Definition junkMarkers : list string :=
  ["Details of your account activity"; "Page "; "DateDescription";
   "Opening Balance"; "Closing Balance"; "Your RBC personal banking";
   "Royal Bank of Canada"].

Definition isJunk (line : string) : bool :=
  match line with
  | EmptyString => true
  | _ => existsb (includes line) junkMarkers
  end.

Definition pushed (t : option transaction) : list transaction :=
  match t with Some x => [x] | None => [] end.

Fixpoint scanLines (year : string) (lines todo : list string) (i : nat)
    (currentDate : option string) : list transaction :=
  match todo with
  | [] => []
  | raw :: todo' =>
      let line := trim raw in
      if isJunk line then scanLines year lines todo' (S i) currentDate
      else
        match exec no_flags rbcDateRe line with
        | Some dateMatch =>
            let d := convertToISO monthTable
                       (group_text 2 dateMatch +:+ " " +:+ group_text 1 dateMatch)
                       year in
            let restOfLine :=
              trim (substringFrom (String.length (m_text dateMatch)) line) in
            pushed (parseTransactionLine restOfLine d lines i)
              ++ scanLines year lines todo' (S i) (Some d)
        | None =>
            match currentDate with
            | Some d =>
                pushed (parseTransactionLine line d lines i)
                  ++ scanLines year lines todo' (S i) currentDate
            | None => scanLines year lines todo' (S i) currentDate
            end
        end
  end.

Definition parseTransactions (text year : string) : list transaction :=
  let lines := JS.split LF text in
  scanLines year lines lines 0 None.

End Rbc.

(** ** scrubbers: the RBC and CIBC redaction passes *)

Module Scrubbers.
Import JS Regex Ledger.

(** What a substitution rule is for; the names follow the numbered
    comments of the two [scrub] functions. *)
Inductive purpose : Type :=
| AccountNumber | StandaloneAccountNumber | PersonName | UnitNumber
| StreetAddress | CityPostal | BranchAddress | ETransferRecipient
| ReferenceCode | TransactionReference | DocumentCode | Barcode | Phone
| BranchTransit | MerchantReference | CadConversion | PreauthId
| BlankLines.

(** One statement [scrubbed = scrubbed.replace(pattern, replacement)];
    every pattern of the two passes carries the flag [g]. *)
Record rule : Type := Rule {
  what : purpose;
  rflags : flags;
  pattern : regex;
  replacement : rmatch -> string
}.

Definition apply (r : rule) (scrubbed : string) : string :=
  replaceAll (rflags r) (pattern r) (replacement r) scrubbed.

(** The statements of a pass, run top to bottom. *)
Definition run (rules : list rule) (text : string) : string :=
  fold_left (fun scrubbed r => apply r scrubbed) rules text.

Definition const (s : string) : rmatch -> string := fun _ => s.

Definition upperAZ : citem := IRange "A" "Z".

(** [[A-Z]\d[A-Z]\s?\d[A-Z]\d] : a Canadian postal code. *)
Definition postalCode : regex :=
  seq [cls [upperAZ]; digit; cls [upperAZ]; opt space;
       digit; cls [upperAZ]; digit].

(** [/\n{3,}/g] to two line feeds. *)
Definition blankLines : rule :=
  Rule BlankLines no_flags (rep_min 3 (Chr LF)) (const (str1 LF +:+ str1 LF)).

Module RBC.

Definition keepPatterns : list string :=
  ["ROYAL BANK"; "RBC"; "ACCOUNT"; "STATEMENT"; "TRANSACTION";
   "SERVICE"; "DEPOSIT"; "BALANCE"; "DETAILS"; "SUMMARY";
   "OPENING"; "CLOSING"; "WITHDRAWALS"; "DEPOSITS"; "CONTACT";
   "IMPORTANT"; "PROTECT"; "INFORMATION"; "CANADIAN"].

(** The callback of the full-name rule. *)
Definition nameCallback (m : rmatch) : string :=
  let matched := m_text m in
  if existsb (includes matched) keepPatterns then matched
  else
    let words := Regex.split no_flags (plus space) (trim matched) in
    if (2 <=? List.length words)%nat && (List.length words <=? 4)%nat
       && (String.length matched <? 50)%nat
    then "[NAME REDACTED]"
    else matched.

(** [/^( [A-Z]+\s+[A-Z\-]+ (?:\s+[A-Z\-]+)* )$/gm], written here with
    spaces between the parts of the group. *)
Definition nameRule : rule :=
  Rule PersonName flag_m
    (seq [Bol;
          Group 1 (seq [plus (cls [upperAZ]); plus space;
                        plus (cls [upperAZ; IChar "-"]);
                        star (seq [plus space; plus (cls [upperAZ; IChar "-"])])]);
          Eol])
    nameCallback.

(** [/(e-Transfer sent)\s+([A-Za-z\s]+?)\s+([A-Z0-9]{6})/g] to
    ['$1 [RECIPIENT] [REF]'] *)
Definition eTransferRule : rule :=
  Rule ETransferRecipient no_flags
    (seq [Group 1 (lit "e-Transfer sent"); plus space;
          Group 2 (plus_lazy (cls [upperAZ; IRange "a" "z"; ISpace]));
          plus space;
          Group 3 (rep 6 (cls [upperAZ; IRange "0" "9"]))])
    (fun m => group_text 1 m +:+ " [RECIPIENT] [REF]").

Definition rules : list rule :=
  [ (* 1. /(?:Your\s+)?account number[:\s]*(\d{5}-\d{7})/gi *)
    Rule AccountNumber flag_i
      (seq [opt (seq [lit "Your"; plus space]); lit "account number";
            star (cls [IChar ":"; ISpace]);
            Group 1 (seq [rep 5 digit; Chr "-"; rep 7 digit])])
      (const "Account number: [REDACTED]");
    (* 2. /\b\d{5}-\d{7}\b/g *)
    Rule StandaloneAccountNumber no_flags
      (seq [WordB; rep 5 digit; Chr "-"; rep 7 digit; WordB])
      (const "[REDACTED]");
    (* 3. mailing address block: the name in capitals ... *)
    nameRule;
    (* ... /^[A-Z]?\d{1,4}[A-Z]?$/gm *)
    Rule UnitNumber flag_m
      (seq [Bol; opt (cls [upperAZ]); rep_range 1 4 digit; opt (cls [upperAZ]);
            Eol])
      (const "[UNIT]");
    (* ... /^\d{1,5}\s+[A-Z\s]+(?:STREET|ST|...|CRES)$/gmi *)
    Rule StreetAddress flag_mi
      (seq [Bol; rep_range 1 5 digit; plus space; plus (cls [upperAZ; ISpace]);
            alt (map lit ["STREET"; "ST"; "DRIVE"; "DR"; "AVENUE"; "AVE";
                          "ROAD"; "RD"; "BOULEVARD"; "BLVD"; "LANE"; "LN";
                          "COURT"; "CT"; "CRESCENT"; "CRES"]);
            Eol])
      (const "[ADDRESS]");
    (* ... /^[A-Z\s]+\s+[A-Z]{2}\s+[A-Z]\d[A-Z]\s?\d[A-Z]\d$/gm *)
    Rule CityPostal flag_m
      (seq [Bol; plus (cls [upperAZ; ISpace]); plus space;
            rep 2 (cls [upperAZ]); plus space; postalCode; Eol])
      (const "[CITY/POSTAL]");
    (* 4. /^\d{1,5}\s+[A-Z\s]+(?:DR|ST|AVE|RD|BLVD),\s+[A-Z\s]+,\s+[A-Z]{2}\s+
          [A-Z]\d[A-Z]\s?\d[A-Z]\d$/gm *)
    Rule BranchAddress flag_m
      (seq [Bol; rep_range 1 5 digit; plus space; plus (cls [upperAZ; ISpace]);
            alt (map lit ["DR"; "ST"; "AVE"; "RD"; "BLVD"]); Chr ",";
            plus space; plus (cls [upperAZ; ISpace]); Chr ","; plus space;
            rep 2 (cls [upperAZ]); plus space; postalCode; Eol])
      (const "[BRANCH ADDRESS]");
    (* 5. e-transfer recipient names, one-line format *)
    eTransferRule;
    (* 6. /\b[A-Z0-9]{6}\b(?=\d)/g *)
    Rule ReferenceCode no_flags
      (seq [WordB; rep 6 (cls [upperAZ; IRange "0" "9"]); WordB; Ahead digit])
      (const "[REF]");
    (* 7. /(Contactless Interac purchase|Online Banking payment|
           Telephone Bill Pmt)\s+-\s+\d{4}/g *)
    Rule TransactionReference no_flags
      (seq [Group 1 (alt (map lit ["Contactless Interac purchase";
                                   "Online Banking payment";
                                   "Telephone Bill Pmt"]));
            plus space; Chr "-"; plus space; rep 4 digit])
      (fun m => group_text 1 m +:+ " - [REF]");
    (* 8. /RBPDA\d+_\d+_\d+[-\s\w]*/g *)
    Rule DocumentCode no_flags
      (seq [lit "RBPDA"; plus digit; Chr "_"; plus digit; Chr "_"; plus digit;
            star (cls [IChar "-"; ISpace; IWord])])
      (const "[DOC-REF]");
    (* 9. /\*\d{8}\*/g *)
    Rule Barcode no_flags (seq [Chr "*"; rep 8 digit; Chr "*"])
      (const "[BARCODE]");
    (* 10. /\d-\d{3}-\d{3}-\d{4}/g *)
    Rule Phone no_flags
      (seq [digit; Chr "-"; rep 3 digit; Chr "-"; rep 3 digit; Chr "-";
            rep 4 digit])
      (const "[PHONE]");
    (* 11. *)
    blankLines ].

Definition scrub (text : string) : string := run rules text.

End RBC.

Module CIBC.

Definition keepPatterns : list string :=
  ["CIBC"; "VISA"; "ACCOUNT"; "STATEMENT"; "TRANSACTION"; "SERVICE";
   "DEPOSIT"; "BALANCE"].

Definition nameCallback (m : rmatch) : string :=
  let matched := m_text m in
  if existsb (includes matched) keepPatterns then matched
  else "[NAME REDACTED]".

(** [/^[A-Z][A-Z\s]+$/gm] *)
Definition nameRule : rule :=
  Rule PersonName flag_m
    (seq [Bol; cls [upperAZ]; plus (cls [upperAZ; ISpace]); Eol])
    nameCallback.

(** [/(E-TRANSFER\s+)(\d+)\s*\n\s*([^\n]+)/g] to ['$1[REF]\n[RECIPIENT]'] *)
Definition eTransferRule : rule :=
  Rule ETransferRecipient no_flags
    (seq [Group 1 (seq [lit "E-TRANSFER"; plus space]); Group 2 (plus digit);
          star space; Chr LF; star space;
          Group 3 (plus (ncls [IChar LF]))])
    (fun m => group_text 1 m +:+ "[REF]" +:+ str1 LF +:+ "[RECIPIENT]").

Definition rules : list rule :=
  [ (* 1. account holder names *)
    nameRule;
    (* 2. /Account number[:\s]+[\d-]+/gi *)
    Rule AccountNumber flag_i
      (seq [lit "Account number"; plus (cls [IChar ":"; ISpace]);
            plus (cls [IDigit; IChar "-"])])
      (const "Account number: [REDACTED]");
    (* 3. /Branch transit number[:\s]+\d+/gi *)
    Rule BranchTransit flag_i
      (seq [lit "Branch transit number"; plus (cls [IChar ":"; ISpace]);
            plus digit])
      (const "Branch transit number: [REDACTED]");
    (* 4. e-transfer recipient names, multi-line format *)
    eTransferRule;
    (* 5. /([A-Z\/\*\s\.]+)\s{2,}(\d{10,})/g to '$1' *)
    Rule MerchantReference no_flags
      (seq [Group 1 (plus (cls [upperAZ; IChar "/"; IChar "*"; ISpace;
                                IChar "."]));
            rep_min 2 space; Group 2 (rep_min 10 digit)])
      (fun m => group_text 1 m);
    (* 6. /\d+\.\d{2} CAD @ [\d\.]+/g *)
    Rule CadConversion no_flags
      (seq [plus digit; Chr "."; rep 2 digit; lit " CAD @ ";
            plus (cls [IDigit; IChar "."])])
      (const EmptyString);
    (* 7. /^\d{10}\s*$/gm *)
    Rule PreauthId flag_m (seq [Bol; rep 10 digit; star space; Eol])
      (const "[REF]");
    (* 8. *)
    blankLines ].

Definition scrub (text : string) : string := run rules text.

End CIBC.

(** The issuers that have a scrubber, and the dispatch
    [require(`./scrubbers/${bank}`).scrub(text)]. *)
Inductive issuer : Type := IssuerRBC | IssuerCIBC.

Definition rulesOf (i : issuer) : list rule :=
  match i with
  | IssuerRBC => RBC.rules
  | IssuerCIBC => CIBC.rules
  end.

Definition scrub (i : issuer) (text : string) : string :=
  match i with
  | IssuerRBC => RBC.scrub text
  | IssuerCIBC => CIBC.scrub text
  end.

End Scrubbers.

(** ** utils/detectBank.js *)

Module DetectBank.
Import JS Ledger.

Definition unableToDetect : string :=
  "Unable to detect bank from statement. Supported banks: CIBC, RBC".

(** [inl tag] is a returned tag, [inr msg] is [throw new Error(msg)]. *)
Definition detectBank (text : string) : bank + string :=
  let header := substring 0 500 text in
  if includes header "Royal Bank of Canada" ||
     includes header "RBC" && includes header "account statement" ||
     includes header "www.rbcroyalbank.com"
  then inl rbc
  else if includes header "CIBC Account Statement" ||
          includes header "CIBC" && includes header "Account Statement"
  then inl cibc
  else if includes header "TD Canada Trust"
  then inl td
  else if includes header "Scotiabank" || includes header "Scotia"
  then inl scotiabank
  else if includes header "BMO" || includes header "Bank of Montreal"
  then inl bmo
  else inr unableToDetect.

End DetectBank.

(** ** app/api/learn-merchant/route.ts

    The route writes a short Python script, runs it and relays the JSON
    it prints.  The script and the route are in the sources; the class
    [MerchantDictionary] the script calls is not, and its learning
    operation is taken from the specification (section 4.5). *)

Module LearnMerchant.
Import JS Ledger.

(** The optional sample transaction of a correction. *)
Record sample : Type := Sample {
  sample_type : txn_type;
  sample_description : string;
  sample_amount : Z
}.

(** The request body. *)
Record request : Type := Request {
  normalized_merchant : string;
  canonical_name : string;
  category : option string;
  transaction : option sample
}.

Inductive provenance : Type := seed | user_edit.

Record entry : Type := Entry {
  e_canonical_name : string;
  e_category : option string;
  e_aliases : list string;
  e_created_by : provenance;
  e_version : nat;
  e_change_history : list (string * string);   (* timestamp, change *)
  e_transaction_count : nat;
  e_total_spend : Z;
  e_last_seen : string
}.

(** The merchant dictionary: one JSON document keyed by normalized
    merchant key. *)
Definition dictionary : Type := gmap string entry.

Section Learning.

(** What the specification leaves open: the closed category set, the
    exclusion list for transfers between accounts, the minimum name
    length, the clock, and how usage statistics are accumulated. *)
Variable category_set : list string.
Variable is_transfer_kind : sample -> bool.
Variable min_name_length : nat.
Variable now : string.
Variable accumulate : entry -> option sample -> nat * Z * string.

(** What the route leaves to its environment.  [sh] is [/bin/sh] on a
    command line: the argument vector of the process it starts
    ([sys.argv]), after quote removal and every expansion the shell
    performs, or [None] when the shell or the process cannot run (a
    syntax error, the time-out).  [stringify] is [JSON.stringify] and
    [loads] is [json.loads] on a sample transaction ([None]: it
    raises).  [execError] is the message of a failed [exec]. *)
Variable sh : string -> option (list string).
Variable stringify : sample -> string.
Variable loads : string -> option sample.
Variable execError : string -> string.
Variable tempScriptPath : string.
Variable projectRoot : string.

(** Whether [from merchant_dictionary import MerchantDictionary]
    succeeds once the script has moved to a directory. *)
Variable hasDictionaryModule : string -> bool.

(** Modelled from the spec: the guardrail of [learn_from_user_edit]
    ([merchant_dictionary.py] is not among the sources).  It rejects a
    credit sample, a transfer between accounts, a canonical name
    shorter than the minimum, and a category outside the closed set;
    [Some reason] is a rejection. *)
Definition guardrail (canonical : string) (cat : option string)
    (txn : option sample) : option string :=
  match txn with
  | Some (Sample credit _ _) => Some "credit transactions are not learned"
  | _ =>
      if match txn with Some s => is_transfer_kind s | None => false end
      then Some "transfers between accounts are not learned"
      else if (String.length canonical <? min_name_length)%nat
      then Some "canonical name is too short"
      else
        match cat with
        | Some c =>
            if existsb (String.eqb c) category_set then None
            else Some "category is not in the category set"
        | None => None
        end
  end.

(** Modelled from the spec: [learn_from_user_edit].  The guardrail is
    evaluated before any mutation.  On acceptance a new key gets an
    entry with version 1 and provenance [user_edit]; an existing key
    has its name and category updated, its version incremented, a
    change-history record appended and its statistics recomputed. *)
Definition learn_from_user_edit (d : dictionary) (key canonical : string)
    (cat : option string) (txn : option sample)
    : (bool * string) * dictionary :=
  match guardrail canonical cat txn with
  | Some reason => ((false, reason), d)
  | None =>
      match d !! key with
      | None =>
          let e := Entry canonical cat [key] user_edit 1
                     [(now, "user_correction")] 0 0%Z now in
          ((true, "learned new merchant"), <[key := e]> d)
      | Some old =>
          let '(count, spend, seen) := accumulate old txn in
          let e := Entry canonical
                     (match cat with Some c => Some c | None => e_category old end)
                     (e_aliases old) (e_created_by old) (S (e_version old))
                     (e_change_history old ++ [(now, "user_correction")])
                     count spend seen in
          ((true, "updated merchant"), <[key := e]> d)
      end
  end.

(** [sys.argv[i] if len(sys.argv) > i and sys.argv[i] != 'null' else None] *)
Definition optionalArgument (argv : list string) (i : nat) : option string :=
  match nth_error argv i with
  | Some a => if String.eqb a "null" then None else Some a
  | None => None
  end.

(** The arguments of the learning call the script makes when started
    with [argv]: [sys.argv[2]], [sys.argv[3]], the optional category
    and [json.loads(transaction_json) if transaction_json else None].
    [None] is an exception raised before the call: an argument is
    missing, the import fails or [json.loads] raises. *)
Definition scriptCall (argv : list string)
    : option (string * string * option string * option sample) :=
  match nth_error argv 1, nth_error argv 2, nth_error argv 3 with
  | Some project_root, Some normalized_merchant, Some canonical_name =>
      if hasDictionaryModule project_root then
        let category := optionalArgument argv 4 in
        match optionalArgument argv 5 with
        | Some transaction_json =>
            if String.eqb transaction_json EmptyString
            then Some (normalized_merchant, canonical_name, category, None)
            else
              match loads transaction_json with
              | Some transaction =>
                  Some (normalized_merchant, canonical_name, category,
                        Some transaction)
              | None => None
              end
        | None => Some (normalized_merchant, canonical_name, category, None)
        end
      else None
  | _, _, _ => None
  end.

(** The Python script started with [argv]: load the dictionary file,
    learn, save only on success, print the result.  [file] is the
    persisted dictionary; the result holds what the script prints and
    the file after the run; [None] is an exception, which ends the
    process before anything is saved. *)
Definition pythonScript (argv : list string) (file : dictionary)
    : option ((bool * string) * dictionary) :=
  match scriptCall argv with
  | Some (normalized_merchant, canonical_name, category, transaction) =>
      let loaded := file in
      let '((success, message), learned) :=
        learn_from_user_edit loaded normalized_merchant canonical_name
          category transaction in
      let saved := if success then learned else file in
      Some ((success, message), saved)
  | None => None
  end.

Definition dquote : ascii := "034"%char.

(** [`"${s}"`] and [`'${s}'`] *)
Definition inDoubleQuotes (s : string) : string :=
  String dquote (s +:+ str1 dquote).

Definition inSingleQuotes (s : string) : string := "'" +:+ s +:+ "'".

(** The array [args] of the route: the request fields are put between
    quotes as they are. *)
Definition args (req : request) : list string :=
  [ inDoubleQuotes projectRoot;
    inDoubleQuotes (normalized_merchant req);
    inDoubleQuotes (canonical_name req);
    match category req with
    | Some c => if String.eqb c EmptyString then "null" else inDoubleQuotes c
    | None => "null"
    end;
    match transaction req with
    | Some t => inSingleQuotes (stringify t)
    | None => "null"
    end ].

(** [`python3 "${tempScriptPath}" ${args.join(' ')}`] *)
Definition command (req : request) : string :=
  "python3 " +:+ inDoubleQuotes tempScriptPath +:+ " " +:+ join " " (args req).

(** [execAsync(command)]: the shell starts the script with the
    argument vector it makes of the command line.  [inr] is the result
    read from the last line the script prints ([JSON.parse] of
    [json.dumps(result)]); [inl] is the rejected promise. *)
Definition execAsync (file : dictionary) (cmd : string)
    : (string + bool * string) * dictionary :=
  match sh cmd with
  | Some argv =>
      match pythonScript argv file with
      | Some (result, file') => (inr result, file')
      | None => (inl (execError cmd), file)
      end
  | None => (inl (execError cmd), file)
  end.

(** The JSON bodies the route answers with. *)
Inductive body : Type :=
| Outcome (success : bool) (message : string)
| Failure (error : string).

Record response : Type := Response { status : nat; json : body }.

(** [POST]: validate the required fields, run the command, relay the
    result; a rejected [execAsync] is answered from the [catch].
    Writing and removing the temporary script are taken to succeed. *)
Definition POST (file : dictionary) (req : request) : response * dictionary :=
  if String.eqb (normalized_merchant req) EmptyString ||
     String.eqb (canonical_name req) EmptyString
  then
    (Response 400
       (Failure "Missing required fields: normalized_merchant and canonical_name"),
     file)
  else
    match execAsync file (command req) with
    | (inr (success, message), file') =>
        if success then (Response 200 (Outcome true message), file')
        else (Response 400 (Outcome false message), file')
    | (inl message, file') => (Response 500 (Failure message), file')
    end.

End Learning.

End LearnMerchant.

(** ** What [parse] returns *)

Module Statement.
Import JS Regex Ledger.

Record period : Type := Period {
  start_date : string;
  end_date : string
}.

(** The [summary] object; a key that was never set is [None]. *)
Record accountSummary : Type := Summary {
  opening_balance : option Z;
  total_withdrawals : option Z;
  total_deposits : option Z;
  closing_balance : option Z
}.

Record result : Type := Result {
  statement_period : option period;
  summary : accountSummary;
  transactions : list transaction
}.

(** [[A-Z][a-z]{2}\s+\d+] : ["Nov 1"]. *)
Definition shortDate : regex :=
  seq [cls [IRange "A" "Z"]; rep 2 (cls [IRange "a" "z"]); plus space;
       plus digit].

(** [[A-Z][a-z]+\s+\d+] : ["October 24"]. *)
Definition longDate : regex :=
  seq [cls [IRange "A" "Z"]; plus (cls [IRange "a" "z"]); plus space;
       plus digit].

(** [/(?:For\s+)?([A-Z][a-z]{2}\s+\d+)\s+to\s+([A-Z][a-z]{2}\s+\d+),\s+(\d{4})/] *)
Definition cibcPeriodRe : regex :=
  seq [opt (seq [lit "For"; plus space]);
       Group 1 shortDate; plus space; lit "to"; plus space;
       Group 2 shortDate; Chr ","; plus space; Group 3 (rep 4 digit)].

(** [/From\s+([A-Z][a-z]+\s+\d+),\s+(\d{4})\s+to\s+([A-Z][a-z]+\s+\d+),\s+(\d{4})/] *)
Definition rbcPeriodRe : regex :=
  seq [lit "From"; plus space;
       Group 1 longDate; Chr ","; plus space; Group 2 (rep 4 digit);
       plus space; lit "to"; plus space;
       Group 3 longDate; Chr ","; plus space; Group 4 (rep 4 digit)].

(** The CIBC period: one year for both ends. *)
Definition cibcPeriod (months : list (string * string)) (text : string)
    : option period :=
  match exec no_flags cibcPeriodRe text with
  | Some periodMatch =>
      let startDate := group_text 1 periodMatch in
      let endDate := group_text 2 periodMatch in
      let year := group_text 3 periodMatch in
      Some {| start_date := convertToISO months startDate year;
              end_date := convertToISO months endDate year |}
  | None => None
  end.

(** The RBC period: each end has its year. *)
Definition rbcPeriod (text : string) : option period :=
  match exec no_flags rbcPeriodRe text with
  | Some periodMatch =>
      let startDate := group_text 1 periodMatch in
      let startYear := group_text 2 periodMatch in
      let endDate := group_text 3 periodMatch in
      let endYear := group_text 4 periodMatch in
      Some {| start_date := convertToISO monthTable startDate startYear;
              end_date := convertToISO monthTable endDate endYear |}
  | None => None
  end.

(** One key of the summary: [m = text.match(re)] with flag [i], then
    [parseFloat(m[1].replace(/,/g, ''))] when there is a match. *)
Definition summaryField (re : regex) (text : string) : option Z :=
  match exec flag_i re text with
  | Some m => Some (parseNumber (group_text 1 m))
  | None => None
  end.

(** [period ? period.start_date.split('-')[0] : '2025'] *)
Definition yearOf (period : option period) : string :=
  match period with
  | Some p => nth 0 (JS.split "-" (start_date p)) EmptyString
  | None => "2025"
  end.

End Statement.

(** ** parsers/balance-based.js: the statement as a whole *)

Module BalanceBasedParse.
Import JS Regex Ledger Statement.

Definition parseStatementPeriod (text : string) (bk : bank) : option period :=
  match bk with
  | cibc => cibcPeriod monthTable text
  | rbc => rbcPeriod text
  | _ => None
  end.

(** [/(?:Total\s+)?[Ww]ithdrawals[^\d]*-?\s*([\d,]+\.\d{2})/i] *)
Definition withdrawalsRe : regex :=
  seq [opt (seq [lit "Total"; plus space]);
       cls [IChar "W"; IChar "w"]; lit "ithdrawals";
       star (ncls [IDigit]); opt (Chr "-"); star space;
       Group 1 amountRe].

(** [/(?:Total\s+)?[Dd]eposits[^\d]*\+?\s*([\d,]+\.\d{2})/i] *)
Definition depositsRe : regex :=
  seq [opt (seq [lit "Total"; plus space]);
       cls [IChar "D"; IChar "d"]; lit "eposits";
       star (ncls [IDigit]); opt (Chr "+"); star space;
       Group 1 amountRe].

(** [/(?:Your\s+)?[Cc]losing balance[^\$]*\$?([\d,]+\.\d{2})/i] *)
Definition closingRe : regex :=
  seq [opt (seq [lit "Your"; plus space]);
       cls [IChar "C"; IChar "c"]; lit "losing balance";
       star (ncls [IChar "$"]); opt (Chr "$");
       Group 1 amountRe].

Definition parseAccountSummary (text : string) (bk : bank) : accountSummary :=
  {| opening_balance := summaryField BalanceBased.openingRe text;
     total_withdrawals := summaryField withdrawalsRe text;
     total_deposits := summaryField depositsRe text;
     closing_balance := summaryField closingRe text |}.

Definition parse (scrubbedText : string) (bk : bank) : result :=
  let period := parseStatementPeriod scrubbedText bk in
  let summary := parseAccountSummary scrubbedText bk in
  let year := yearOf period in
  let transactions := BalanceBased.parseTransactions scrubbedText year bk in
  {| statement_period := period;
     summary := summary;
     transactions := transactions |}.

End BalanceBasedParse.

(** ** parsers/cibc.js: the statement as a whole *)

Module CibcParse.
Import JS Regex Ledger Statement.

Definition parseStatementPeriod (text : string) : option period :=
  cibcPeriod shortMonthTable text.

(** [/Opening balance[^\$]*\$?([\d,]+\.\d{2})/i] *)
Definition openingRe : regex :=
  seq [lit "Opening balance"; star (ncls [IChar "$"]); opt (Chr "$");
       Group 1 amountRe].

(** [/Withdrawals[^\d]*-?([\d,]+\.\d{2})/i] *)
Definition withdrawalsRe : regex :=
  seq [lit "Withdrawals"; star (ncls [IDigit]); opt (Chr "-");
       Group 1 amountRe].

(** [/Deposits[^\d]*\+?([\d,]+\.\d{2})/i] *)
Definition depositsRe : regex :=
  seq [lit "Deposits"; star (ncls [IDigit]); opt (Chr "+");
       Group 1 amountRe].

(** [/Closing balance[^\$]*\$?([\d,]+\.\d{2})/i] *)
Definition closingRe : regex :=
  seq [lit "Closing balance"; star (ncls [IChar "$"]); opt (Chr "$");
       Group 1 amountRe].

Definition parseAccountSummary (text : string) : accountSummary :=
  {| opening_balance := summaryField openingRe text;
     total_withdrawals := summaryField withdrawalsRe text;
     total_deposits := summaryField depositsRe text;
     closing_balance := summaryField closingRe text |}.

Definition parse (scrubbedText : string) : result :=
  let period := parseStatementPeriod scrubbedText in
  let summary := parseAccountSummary scrubbedText in
  let year := yearOf period in
  let transactions := Cibc.parseTransactions scrubbedText year in
  {| statement_period := period;
     summary := summary;
     transactions := transactions |}.

End CibcParse.

(** ** The RBC line-scan parser: the statement as a whole *)

Module RbcParse.
Import JS Regex Ledger Statement.

Definition parseStatementPeriod (text : string) : option period :=
  rbcPeriod text.

(** [/(?:Your\s+)?opening balance[^\$]*\$?([\d,]+\.\d{2})/i] *)
Definition openingRe : regex :=
  seq [opt (seq [lit "Your"; plus space]); lit "opening balance";
       star (ncls [IChar "$"]); opt (Chr "$"); Group 1 amountRe].

(** [/Total withdrawals[^\d]*-?\s*([\d,]+\.\d{2})/i] *)
Definition withdrawalsRe : regex :=
  seq [lit "Total withdrawals"; star (ncls [IDigit]); opt (Chr "-");
       star space; Group 1 amountRe].

(** [/Total deposits[^\d]*\+?\s*([\d,]+\.\d{2})/i] *)
Definition depositsRe : regex :=
  seq [lit "Total deposits"; star (ncls [IDigit]); opt (Chr "+");
       star space; Group 1 amountRe].

(** [/(?:Your\s+)?closing balance[^\$]*\$?([\d,]+\.\d{2})/i] *)
Definition closingRe : regex :=
  seq [opt (seq [lit "Your"; plus space]); lit "closing balance";
       star (ncls [IChar "$"]); opt (Chr "$"); Group 1 amountRe].

Definition parseAccountSummary (text : string) : accountSummary :=
  {| opening_balance := summaryField openingRe text;
     total_withdrawals := summaryField withdrawalsRe text;
     total_deposits := summaryField depositsRe text;
     closing_balance := summaryField closingRe text |}.

Definition parse (scrubbedText : string) : result :=
  let period := parseStatementPeriod scrubbedText in
  let summary := parseAccountSummary scrubbedText in
  let year := yearOf period in
  let transactions := Rbc.parseTransactions scrubbedText year in
  {| statement_period := period;
     summary := summary;
     transactions := transactions |}.

End RbcParse.

(** ** The command-line entry points: scrubPII-v2.js and the two
    parseTransactions scripts

    Each detects the issuer, loads a module and runs it inside one
    [try]; the [catch] rethrows with a prefix when the message names
    the detection failure and rethrows unchanged otherwise.  [inl] is a
    returned value, [inr] the message of the error thrown. *)

Module EntryPoints.
Import JS Ledger Statement.

(** The tag as a template literal prints it. *)
Definition tagName (b : bank) : string :=
  match b with
  | rbc => "rbc"
  | cibc => "cibc"
  | td => "td"
  | scotiabank => "scotiabank"
  | bmo => "bmo"
  end.

(** The [catch] block. *)
Definition rethrow (prefix message : string) : string :=
  if includes message "Unable to detect bank" then prefix +:+ message
  else message.

Section Modules.

(** The message of the error [require] throws for a path without a
    module; Node builds it from the path and the require stack. *)
Variable cannotFindModule : string -> string.

(** [require(`./scrubbers/${bank}`)]: the repository has a scrubber for
    RBC and one for CIBC. *)
Definition requireScrubber (b : bank) : (string -> string) + string :=
  match b with
  | rbc => inl Scrubbers.RBC.scrub
  | cibc => inl Scrubbers.CIBC.scrub
  | _ => inr (cannotFindModule ("./scrubbers/" +:+ tagName b))
  end.

(** [scrubPII(text)] of scrubPII-v2.js *)
Definition scrubPII (text : string) : string + string :=
  match DetectBank.detectBank text with
  | inl bank =>
      match requireScrubber bank with
      | inl scrub => inl (scrub text)
      | inr message => inr (rethrow "Cannot scrub PII: " message)
      end
  | inr message => inr (rethrow "Cannot scrub PII: " message)
  end.

(** [require(`./parsers/${bank}`)]: the repository has a line-scan
    parser for RBC and one for CIBC. *)
Definition requireParser (b : bank) : (string -> result) + string :=
  match b with
  | rbc => inl RbcParse.parse
  | cibc => inl CibcParse.parse
  | _ => inr (cannotFindModule ("./parsers/" +:+ tagName b))
  end.

(** [parseTransactions(text)] of parseTransactions-v2.js *)
Definition parseTransactionsV2 (text : string) : result + string :=
  match DetectBank.detectBank text with
  | inl bank =>
      match requireParser bank with
      | inl parse => inl (parse text)
      | inr message => inr (rethrow "Cannot parse transactions: " message)
      end
  | inr message => inr (rethrow "Cannot parse transactions: " message)
  end.

End Modules.

(** [parseTransactions(text)] of parseTransactions-v3.js: always the
    balance-based parser, with the detected tag. *)
Definition parseTransactionsV3 (text : string) : result + string :=
  match DetectBank.detectBank text with
  | inl bank => inl (BalanceBasedParse.parse text bank)
  | inr message => inr (rethrow "Cannot parse transactions: " message)
  end.

End EntryPoints.

(** ** scrubPII.js: the first, single-issuer scrubber *)

Module LegacyScrubber.
Import JS Regex Ledger Scrubbers.

Definition keepPatterns : list string :=
  ["CIBC"; "VISA"; "ACCOUNT"; "STATEMENT"; "TRANSACTION"; "SERVICE";
   "DEPOSIT"; "BALANCE"].

Definition rules : list rule :=
  [ (* 1. /^[A-Z][A-Z\s]+$/gm *)
    Rule PersonName flag_m
      (seq [Bol; cls [IRange "A" "Z"]; plus (cls [IRange "A" "Z"; ISpace]); Eol])
      (fun m =>
         if existsb (includes (m_text m)) keepPatterns then m_text m
         else "[NAME REDACTED]");
    (* 2. /Account number[:\s]+[\d-]+/gi *)
    Rule AccountNumber flag_i
      (seq [lit "Account number"; plus (cls [IChar ":"; ISpace]);
            plus (cls [IDigit; IChar "-"])])
      (fun _ => "Account number: [REDACTED]");
    (* 3. /Branch transit number[:\s]+\d+/gi *)
    Rule BranchTransit flag_i
      (seq [lit "Branch transit number"; plus (cls [IChar ":"; ISpace]);
            plus digit])
      (fun _ => "Branch transit number: [REDACTED]");
    (* 4. /(E-TRANSFER\s+)(\d+)\s*\n\s*([^\n]+)/g *)
    Rule ETransferRecipient no_flags
      (seq [Group 1 (seq [lit "E-TRANSFER"; plus space]); Group 2 (plus digit);
            star space; Chr LF; star space;
            Group 3 (plus (ncls [IChar LF]))])
      (fun m => group_text 1 m +:+ "[REF]" +:+ str1 LF +:+ "[RECIPIENT]");
    (* 5. /([A-Z\/\*\s\.]+)\s{2,}(\d{10,})/g *)
    Rule MerchantReference no_flags
      (seq [Group 1 (plus (cls [IRange "A" "Z"; IChar "/"; IChar "*"; ISpace;
                                IChar "."]));
            rep_min 2 space; Group 2 (rep_min 10 digit)])
      (fun m => group_text 1 m);
    (* 6. /\d+\.\d{2} CAD @ [\d\.]+/g *)
    Rule CadConversion no_flags
      (seq [plus digit; Chr "."; rep 2 digit; lit " CAD @ ";
            plus (cls [IDigit; IChar "."])])
      (fun _ => EmptyString);
    (* 7. /^\d{10}\s*$/gm *)
    Rule PreauthId flag_m (seq [Bol; rep 10 digit; star space; Eol])
      (fun _ => "[REF]");
    (* 8. /\n{3,}/g *)
    Rule BlankLines no_flags (rep_min 3 (Chr LF))
      (fun _ => str1 LF +:+ str1 LF) ].

Definition scrubPII (text : string) : string :=
  fold_left (fun scrubbed r => apply r scrubbed) rules text.

End LegacyScrubber.

(** ** Notions used to state the properties *)

Module Props.
Import JS Regex Ledger.

(** No decimal-formatted numeric token occurs in [text]. *)
Definition noAmountToken (text : string) : Prop :=
  exec no_flags amountRe text = None.

Definition hasComma (token : string) : bool := includes token ",".

(** [token] is the rightmost element of [tokens] that holds a comma. *)
Definition rightmostWithComma (token : string) (tokens : list string) : Prop :=
  exists before after,
    tokens = before ++ token :: after /\
    hasComma token = true /\
    Forall (fun t => hasComma t = false) after.

(** [v] is the numerically largest value of [tokens]. *)
Definition largestOf (v : Z) (tokens : list string) : Prop :=
  In v (map parseNumber tokens) /\
  Forall (fun t => (parseNumber t <= v)%Z) tokens.

(** The reading of the new balance the specification describes. *)
Definition newBalanceOf (b : Z) (tokens : list string) : Prop :=
  (exists token, rightmostWithComma token tokens /\ b = parseNumber token) \/
  (Forall (fun t => hasComma t = false) tokens /\ largestOf b tokens).

(** The lines a transaction at index [i] is read from: the line itself
    and at most the two after it. *)
Definition window (allLines : list string) (i : nat) : list string :=
  firstn 3 (skipn i allLines).

(** Every transaction of [out] has the amount [previous - balance],
    where [previous] is the balance of the transaction emitted before
    it, and the seed for the first one. *)
Fixpoint reconciled (previous : option Z) (out : list transaction) : Prop :=
  match out with
  | [] => True
  | t :: out' =>
      (exists p b, previous = Some p /\ balance t = Some b /\
                   amount t = (p - b)%Z) /\
      reconciled (balance t) out'
  end.

(** The running balances [B_i = B_(i-1) - a_i]. *)
Fixpoint runningBalances (b0 : Z) (amounts : list Z) : list Z :=
  match amounts with
  | [] => []
  | a :: amounts' => (b0 - a)%Z :: runningBalances (b0 - a)%Z amounts'
  end.

(** An issuer profile of [detectBank]: a tag and a header predicate in
    disjunctive form; each alternative lists the literal substrings
    that must all occur. *)
Record profile : Type := Profile {
  tag : bank;
  alternatives : list (list string)
}.

Definition profiles : list profile :=
  [ Profile rbc [["Royal Bank of Canada"]; ["RBC"; "account statement"];
                 ["www.rbcroyalbank.com"]];
    Profile cibc [["CIBC Account Statement"]; ["CIBC"; "Account Statement"]];
    Profile td [["TD Canada Trust"]];
    Profile scotiabank [["Scotiabank"]; ["Scotia"]];
    Profile bmo [["BMO"]; ["Bank of Montreal"]] ].

Definition matchesHeader (header : string) (p : profile) : bool :=
  existsb (forallb (includes header)) (alternatives p).

(** The position of the first rule with a given purpose. *)
Fixpoint position (w : Scrubbers.purpose -> bool) (rules : list Scrubbers.rule)
    : option nat :=
  match rules with
  | [] => None
  | r :: rules' =>
      if w (Scrubbers.what r) then Some 0
      else match position w rules' with
           | Some n => Some (S n)
           | None => None
           end
  end.

Definition isPersonName (p : Scrubbers.purpose) : bool :=
  match p with Scrubbers.PersonName => true | _ => false end.

Definition isETransfer (p : Scrubbers.purpose) : bool :=
  match p with Scrubbers.ETransferRecipient => true | _ => false end.

(** The rule for [first] is applied before the rule for [second]. *)
Definition appliedBefore (first second : Scrubbers.purpose -> bool)
    (rules : list Scrubbers.rule) : Prop :=
  exists i j, position first rules = Some i /\
              position second rules = Some j /\ (i < j)%nat.

(** A text made of [n] copies of one unit. *)
Fixpoint filler (c : ascii) (n : nat) : string :=
  match n with
  | O => EmptyString
  | S n' => String c (filler c n')
  end.

(** A match attempt that found nothing. *)
Definition failed {A} (o : option A) : bool :=
  match o with None => true | Some _ => false end.

(** No pattern of the pass matches [text]. *)
Definition unmatched (rules : list Scrubbers.rule) (text : string) : Prop :=
  Forall (fun r => exec (Scrubbers.rflags r) (Scrubbers.pattern r) text = None)
         rules.

(** The part of a statement [detectBank] looks at. *)
Definition header (text : string) : string := substring 0 500 text.

(** A text whose first 500 characters hold no issuer name. *)
Definition longHeader (last : string) : string :=
  filler "x" 500 +:+ last.

(** The text the RBC parser searches for an amount: the next line,
    trimmed; nothing when the current line is the last. *)
Definition rbcSearched (allLines : list string) (i : nat) : string :=
  match nth_error allLines (i + 1) with
  | Some next => trim next
  | None => EmptyString
  end.

(** [/VISA DEBIT.*PURCHASE/i] and [/VISA DEBIT.*REVERSAL/i] of the CIBC
    pattern table. *)
Definition purchaseRe : regex := seq [lit "VISA DEBIT"; star Dot; lit "PURCHASE"].
Definition reversalRe : regex := seq [lit "VISA DEBIT"; star Dot; lit "REVERSAL"].

(** The pass with the rules for [w] moved to the front, the others
    kept in their order. *)
Definition movedFirst (w : Scrubbers.purpose -> bool)
    (rules : list Scrubbers.rule) : list Scrubbers.rule :=
  filter (fun r => w (Scrubbers.what r)) rules ++
  filter (fun r => negb (w (Scrubbers.what r))) rules.

Definition nameRuleOf (i : Scrubbers.issuer) : Scrubbers.rule :=
  match i with
  | Scrubbers.IssuerRBC => Scrubbers.RBC.nameRule
  | Scrubbers.IssuerCIBC => Scrubbers.CIBC.nameRule
  end.

Definition eTransferRuleOf (i : Scrubbers.issuer) : Scrubbers.rule :=
  match i with
  | Scrubbers.IssuerRBC => Scrubbers.RBC.eTransferRule
  | Scrubbers.IssuerCIBC => Scrubbers.CIBC.eTransferRule
  end.

(** Every unit of [s] satisfies [ok]. *)
Fixpoint allChars (ok : ascii -> bool) (s : string) : bool :=
  match s with
  | EmptyString => true
  | String c s' => ok c && allChars ok s'
  end.

(** [s] is empty or starts with a unit that does not satisfy [ok]. *)
Definition stops (ok : ascii -> bool) (s : string) : bool :=
  match s with
  | EmptyString => true
  | String c _ => negb (ok c)
  end.

(** The last unit of [s], or [p] when [s] is empty. *)
Fixpoint lastOr (p : option ascii) (s : string) : option ascii :=
  match s with
  | EmptyString => p
  | String c s' => lastOr (Some c) s'
  end.

(** A plain money token: digits, a point and two digits. *)
Definition plain (c : ascii) (ds : string) (d1 d2 : ascii) : string :=
  String c (ds +:+ String "." (String d1 (String d2 EmptyString))).

Definition Plain (t : string) : Prop :=
  exists c ds d1 d2,
    t = plain c ds d1 d2 /\ is_digit c = true /\ allChars is_digit ds = true /\
    is_digit d1 = true /\ is_digit d2 = true.

Definition tokenChar (c : ascii) : bool := is_digit c || Ascii.eqb c ".".

Definition noLF (s : string) : bool :=
  allChars (fun c => negb (Ascii.eqb c LF)) s.

(** A statement layout in which no window holds two balances: the
    opening balance on the first line, then for every transaction a
    line with the transaction, a line with its running balance and an
    empty line. *)
Definition depositLine : string := "Nov 3 DEPOSIT".

Definition spacedBlock (t : string) : list string :=
  [depositLine; t; EmptyString].

Definition openingLine (t0 : string) : string := "Opening balance $" +:+ t0.

Definition spacedStatement (t0 : string) (ts : list string) : string :=
  join (str1 LF) (openingLine t0 :: flat_map spacedBlock ts).

(** A non-negative count of hundredths printed as a plain token. *)
Definition digitChar (k : nat) : ascii := ascii_of_nat (48 + k).

Definition money (z : Z) : string :=
  let n := Z.to_nat z in
  DecimalString.NilEmpty.string_of_uint (Nat.to_uint (n / 100)) +:+
  String "." (String (digitChar (n mod 100 / 10))
                (String (digitChar (n mod 10)) EmptyString)).

(** A number with a three-digit integer part and two decimals. *)
Definition threeDigit (c1 c2 c3 d1 d2 : ascii) : string :=
  String c1 (String c2 (String c3 (String "." (String d1 (String d2 EmptyString))))).

(** The balance handed on after the last transaction of [out]. *)
Fixpoint lastBalance (previous : option Z) (out : list transaction) : option Z :=
  match out with
  | [] => previous
  | t :: out' => lastBalance (balance t) out'
  end.

(** The type of a transaction agrees with the sign of its amount; a
    [strict] reading excludes zero. *)
Definition signAgrees (strict : bool) (t : transaction) : Prop :=
  match type t with
  | credit => if strict then (0 < amount t)%Z else (0 <= amount t)%Z
  | debit => if strict then (amount t < 0)%Z else (amount t <= 0)%Z
  end.

(** The convention of the balance-based parser: money going out is a
    debit with a non-negative amount. *)
Definition signOpposes (t : transaction) : Prop :=
  match type t with
  | debit => (0 <= amount t)%Z
  | credit => (amount t < 0)%Z
  end.

(** Three line feeds in a row, and the number of line feeds a text
    starts with. *)
Definition blankRun : string := String LF (String LF (String LF EmptyString)).

Fixpoint leadingLF (s : string) : nat :=
  match s with
  | String c s' => if Ascii.eqb c LF then S (leadingLF s') else O
  | EmptyString => O
  end.

(** The month numbers, and a date [year-MM-DD]: a month number and a
    day of two digits ([strict]) or of two or more. *)
Definition monthNumbers : list string := map snd shortMonthTable.

Definition isoDate (strict : bool) (year d : string) : Prop :=
  exists mm dd,
    In mm monthNumbers /\
    allChars is_digit dd = true /\
    (if strict return Prop then String.length dd = 2%nat else (2 <= String.length dd)%nat) /\
    d = year +:+ "-" +:+ mm +:+ "-" +:+ dd.

(** The capture groups a pattern can set. *)
Fixpoint groups (r : regex) : list nat :=
  match r with
  | Seq r1 r2 | Alt r1 r2 => groups r1 ++ groups r2
  | Star _ r1 | Ahead r1 => groups r1
  | Group i r1 => i :: groups r1
  | _ => []
  end.

(** A year of four digits. *)
Definition fourDigits (y : string) : Prop :=
  allChars is_digit y = true /\ String.length y = 4%nat.

(** The year a statement is dated in: the text of group [i] of the
    first match of the period pattern [re], or 2025 when the text has
    no period line. *)
Definition printedYear (re : regex) (i : nat) (text yyyy : string) : Prop :=
  match exec no_flags re text with
  | Some periodMatch => yyyy = group_text i periodMatch
  | None => yyyy = "2025"
  end.

(** Every transaction of [out] is dated [yyyy-MM-DD] in the year
    [yyyy]. *)
Definition datedIn (strict : bool) (yyyy : string) (out : list transaction)
    : Prop :=
  fourDigits yyyy /\ Forall (fun t => isoDate strict yyyy (date t)) out.

(** The pattern fits at no position of [pre] when [rest] follows. *)
Fixpoint fitsNowhere (fl : flags) (r : regex) (p : option ascii)
    (pre rest : string) : bool :=
  match pre with
  | EmptyString => true
  | String c pre' =>
      failed (match_here fl r p (pre +:+ rest) 0)
      && fitsNowhere fl r (Some c) pre' rest
  end.

(** Units by what they are to the opening-balance pattern: not a
    dollar sign; a unit of an integer part (digit or comma); neither. *)
Definition notDollar (c : ascii) : bool := negb (Ascii.eqb c "$").

Definition amountChar (c : ascii) : bool := is_digit c || Ascii.eqb c ",".

Definition plainChar (c : ascii) : bool := notDollar c && negb (amountChar c).

(** A money token that may hold commas: an integer part, a point and
    two digits. *)
Definition decimal (intPart : string) (d1 d2 : ascii) : string :=
  intPart +:+ String "." (String d1 (String d2 EmptyString)).

(** What follows the words in the opening-balance pattern: [\$?] and
    the token. *)
Definition afterWords (st : mstate) : option mstate :=
  Regex.run flag_i (Seq (opt (Chr "$")) (Group 1 amountRe)) st Some.

Definition isReferenceCode (p : Scrubbers.purpose) : bool :=
  match p with Scrubbers.ReferenceCode => true | _ => false end.

(** A unit of a block in capitals: a capital letter or white space. *)
Definition capsOrSpace (c : ascii) : bool := is_upper c || is_space c.

(** The current date once the loop of the balance-based parser has
    passed the lines [passed]: the date of the last of them that is
    not skipped as junk and opens with one. *)
Fixpoint dateAfter (bk : bank) (year : string) (currentDate : option string)
    (passed : list string) : option string :=
  match passed with
  | [] => currentDate
  | raw :: passed' =>
      let line := trim raw in
      dateAfter bk year
        (if BalanceBased.isJunk line then currentDate
         else
           match BalanceBased.lineDate bk year line with
           | Some d => Some d
           | None => currentDate
           end)
        passed'
  end.

(** The balances the transaction lines of a text carry, as the
    balance-based extractor reads them: for every line that is not
    skipped as junk, lies under a date, is not just a balance or a
    correction, matches a transaction pattern and has a decimal token
    in its window, the rightmost comma token, or else the largest
    token, of the line and the two after it. *)
Fixpoint carriedBalances (bk : bank) (year : string) (lines todo : list string)
    (i : nat) (currentDate : option string) : list Z :=
  match todo with
  | [] => []
  | raw :: todo' =>
      let line := trim raw in
      if BalanceBased.isJunk line
      then carriedBalances bk year lines todo' (S i) currentDate
      else
        let currentDate :=
          match BalanceBased.lineDate bk year line with
          | Some d => Some d
          | None => currentDate
          end in
        match currentDate with
        | None => carriedBalances bk year lines todo' (S i) currentDate
        | Some _ =>
            if test no_flags BalanceBased.justBalanceRe line
               || includes line "CORRECTION"
               || negb (existsb (fun re => test flag_i re line)
                          BalanceBased.patterns)
            then carriedBalances bk year lines todo' (S i) currentDate
            else
              match matchAll no_flags amountRe (join " " (window lines i)) with
              | [] => carriedBalances bk year lines todo' (S i) currentDate
              | first :: others =>
                  BalanceBased.selectBalance first others ::
                  carriedBalances bk year lines todo' (S i) currentDate
              end
        end
  end.

Definition balancesCarried (bk : bank) (year text : string) : list Z :=
  let lines := JS.split LF text in
  carriedBalances bk year lines lines 0 None.

(** The drops from each balance to the next, as the program subtracts
    them. *)
Fixpoint balanceDrops (b0 : Z) (balances : list Z) : list Binary64.double :=
  match balances with
  | [] => []
  | b :: balances' => BalanceBased.storedAmount b0 b :: balanceDrops b balances'
  end.

End Props.

(** ** Sample statements *)

Module Examples.
Import JS Ledger.

(** A text given line by line. *)
Definition ofLines (ls : list string) : string := join (str1 LF) ls.

(** Opening balance 1,000.00, then a debit of 100.00 and a credit of
    50.00, each transaction on one line that carries its running
    balance. *)
Definition twoDeposits : string :=
  ofLines ["Opening balance $1,000.00";
           "Nov 3 DEPOSIT 900.00";
           "Nov 4 DEPOSIT 950.00"].

(** The same two transactions and a third, each followed by the line
    with its running balance and set apart from the next. *)
Definition threeSpaced : string :=
  ofLines ["Opening balance $1,000.00";
           "Nov 3 DEPOSIT"; "900.00"; EmptyString;
           "Nov 4 DEPOSIT"; "950.00"; EmptyString;
           "Nov 5 VISA DEBIT PURCHASE"; "UBER 300.50 1,250.50"; EmptyString].

(** A reversal line whose balance goes down. *)
Definition reversalLines : list string :=
  ["Nov 5 VISA DEBIT PURCHASE REVERSAL"; "UBER 25.00 1,225.50"].

(** A correction entry that carries an amount. *)
Definition correctionStatement : string :=
  ofLines ["Opening balance $1,000.00";
           "Nov 3 VISA DEBIT PURCHASE CORRECTION";
           "STORE 12.34 1,012.34"].

(** A purchase line without an amount, then a complete purchase. *)
Definition missingAmountLines : list string :=
  ["Nov 3 VISA DEBIT PURCHASE"; "UBER TRIP"; EmptyString;
   "Nov 4 VISA DEBIT PURCHASE"; "SPOTIFY 11.00 989.00"].

(** A reversal entry of the CIBC format that does not repeat the word
    PURCHASE. *)
Definition plainReversalLines : list string :=
  ["Nov 5 VISA DEBIT REVERSAL"; "SPOTIFY 11.00"].

(** An RBC purchase whose next line glues store code 87 to 3.98. *)
Definition gluedLines : list string :=
  ["27 Oct Contactless Interac purchase - [REF]"; "FOOD BASICS 873.98"].

(** An e-transfer with its recipient on the next line, followed by
    another line in capitals. *)
Definition eTransferThenName : string :=
  ofLines ["E-TRANSFER 123"; "JOHN SMITH"; "JANE DOE"].

(** A reversal entry that repeats the word PURCHASE. *)
Definition purchaseReversalStatement : string :=
  ofLines ["Nov 4 VISA DEBIT PURCHASE REVERSAL"; "UBER TRIP 10.00"].

End Examples.

(** * Properties *)

(** ** The matcher *)

Section MatcherFacts.
Import JS Regex.

Variable fl : flags.
Variable r : regex.

(** A search that finds nothing finds nothing further on either. *)
Lemma search_from_none_inv p c s off :
  search_from fl r p (String c s) off = None ->
  match_here fl r p (String c s) off = None /\
  search_from fl r (Some c) s (S off) = None.
Proof.
  simpl. destruct (match_here fl r p (String c s) off); [discriminate|].
  intros H; split; [reflexivity | exact H].
Qed.

Lemma search_from_none_here p s off :
  search_from fl r p s off = None -> match_here fl r p s off = None.
Proof.
  destruct s as [|c s]; simpl;
    destruct (match_here fl r p _ off); congruence.
Qed.

(** The offset only labels the result. *)
Lemma match_here_none_offset p s off off' :
  match_here fl r p s off = None -> match_here fl r p s off' = None.
Proof.
  unfold match_here. destruct (run fl r _ Some); congruence.
Qed.

Lemma search_from_none_offset s : forall p off off',
  search_from fl r p s off = None -> search_from fl r p s off' = None.
Proof.
  induction s as [|c s IH]; intros p off off' H.
  - simpl in *. destruct (match_here fl r p EmptyString off) eqn:E; [discriminate|].
    now rewrite (match_here_none_offset _ _ _ off' E).
  - apply search_from_none_inv in H as [Hh Ht]. simpl.
    rewrite (match_here_none_offset _ _ _ off' Hh). eapply IH, Ht.
Qed.

(** With no match anywhere, a global replace copies its subject. *)
Lemma replace_go_no_match f s : forall p off,
  search_from fl r p s off = None -> replace_go fl r f p s 0 off = s.
Proof.
  induction s as [|c s IH]; intros p off H.
  - simpl in *. destruct (match_here fl r p EmptyString off); congruence.
  - apply search_from_none_inv in H as [Hh Ht]. simpl. rewrite Hh.
    f_equal. apply IH, Ht.
Qed.

Lemma replaceAll_no_match f s :
  exec fl r s = None -> replaceAll fl r f s = s.
Proof. apply replace_go_no_match. Qed.

(** With no match anywhere, a global match finds no token. *)
Lemma scan_no_match s : forall p off,
  search_from fl r p s off = None -> scan fl r p s 0 off = [].
Proof.
  induction s as [|c s IH]; intros p off H.
  - simpl in *. destruct (match_here fl r p EmptyString off); congruence.
  - apply search_from_none_inv in H as [Hh Ht]. simpl. rewrite Hh.
    apply IH, Ht.
Qed.

Lemma matchAll_no_match s :
  exec fl r s = None -> matchAll fl r s = [].
Proof.
  intros H. unfold matchAll. now rewrite (scan_no_match _ _ _ H).
Qed.

(** A global match that finds something starts with the first match. *)
Lemma scan_some_search s : forall p off m,
  search_from fl r p s off = Some m ->
  exists ms, scan fl r p s 0 off = m :: ms.
Proof.
  induction s as [|c s IH]; intros p off m H; simpl in *.
  - destruct (match_here fl r p EmptyString off) eqn:E; [|discriminate].
    injection H as <-. eauto.
  - destruct (match_here fl r p (String c s) off) eqn:E.
    + injection H as <-. eauto.
    + eapply IH, H.
Qed.

Lemma matchAll_nil_exec s :
  matchAll fl r s = [] -> exec fl r s = None.
Proof.
  unfold matchAll, exec. intros H.
  destruct (search_from fl r None s 0) as [m|] eqn:E; [|reflexivity].
  destruct (scan_some_search _ _ _ _ E) as [ms Hms].
  rewrite Hms in H. discriminate.
Qed.

End MatcherFacts.

Section ContinuationFacts.
Import JS Regex Props.

(** Whether a match attempt fails depends on its continuation only
    through the positions at which the continuation fails. *)
Lemma run_failed_ext fl r : forall st k1 k2,
  (forall s, failed (k1 s) = failed (k2 s)) ->
  failed (run fl r st k1) = failed (run fl r st k2).
Proof.
  induction r; intros st k1 k2 H; simpl.
  - apply H.
  - unfold step1. destruct (rest st); [reflexivity|].
    destruct chr_match; [apply H|reflexivity].
  - unfold step1. destruct (rest st); [reflexivity|].
    destruct negb; [apply H|reflexivity].
  - unfold step1. destruct (rest st); [reflexivity|].
    destruct class_match; [apply H|reflexivity].
  - apply IHr1. intros s. apply IHr2, H.
  - specialize (IHr1 st k1 k2 H). specialize (IHr2 st k1 k2 H).
    destruct (run fl r1 st k1), (run fl r1 st k2); simpl in *; congruence.
  - generalize (String.length (rest st)). intros n. revert st.
    induction n as [|n IHn]; intros st; [apply H|].
    match goal with
    | |- failed (if greedy then match run fl r st ?c1 with _ => _ end else _) =
         failed (if greedy then match run fl r st ?c2 with _ => _ end else _) =>
        assert (Hc : failed (run fl r st c1) = failed (run fl r st c2))
    end.
    { apply IHr. intros s.
      destruct (pos st <? pos s)%nat; [apply IHn|reflexivity]. }
    specialize (H st).
    destruct greedy.
    + destruct (run fl r st _), (run fl r st _); simpl in *; congruence.
    + destruct (k1 st), (k2 st); simpl in *; congruence.
  - apply IHr. intros s. apply H.
  - destruct at_bol; [apply H|reflexivity].
  - destruct at_eol; [apply H|reflexivity].
  - destruct xorb; [apply H|reflexivity].
  - destruct (run fl r st Some); [apply H|reflexivity].
Qed.

(** Wrapping a pattern in a capture group does not change where it
    matches. *)
Lemma match_here_group_none fl i r p s off :
  match_here fl r p s off = None ->
  match_here fl (Group i r) p s off = None.
Proof.
  unfold match_here. simpl. intros H.
  pose proof (run_failed_ext fl r (MState p s 0 [])
                (fun st1 => Some (set_cap i (MState p s 0 []) st1)) Some
                (fun _ => eq_refl)) as E.
  destruct (run fl r (MState p s 0 []) Some); [discriminate|].
  destruct (run fl r (MState p s 0 []) _); [discriminate|reflexivity].
Qed.

Lemma search_from_group_none fl i r s : forall p off,
  search_from fl r p s off = None ->
  search_from fl (Group i r) p s off = None.
Proof.
  induction s as [|c s IH]; intros p off H.
  - apply search_from_none_here in H. simpl.
    now rewrite (match_here_group_none _ i _ _ _ _ H).
  - apply search_from_none_inv in H as [Hh Ht]. simpl.
    rewrite (match_here_group_none _ i _ _ _ _ Hh). apply IH, Ht.
Qed.

Lemma exec_group_none fl i r s :
  exec fl r s = None -> exec fl (Group i r) s = None.
Proof. apply search_from_group_none. Qed.

End ContinuationFacts.

(** ** Redaction (C4) *)

Section RedactionFacts.
Import JS Regex Scrubbers Props.

Lemma apply_unmatched r text :
  exec (rflags r) (pattern r) text = None -> apply r text = text.
Proof. apply replaceAll_no_match. Qed.

Lemma run_unmatched rules text :
  unmatched rules text -> run rules text = text.
Proof.
  unfold run. induction 1 as [|r rules Hr _ IH]; simpl; [reflexivity|].
  now rewrite (apply_unmatched _ _ Hr).
Qed.

Lemma scrub_is_run i text : scrub i text = run (rulesOf i) text.
Proof. destruct i; reflexivity. Qed.

(** C4: the redaction pass of every issuer is a total function from
    strings to strings (it has no failing branch), and for every input
    in which none of the issuer's substitution patterns matches, its
    output is the input unchanged. *)
Theorem C4_redaction_noop_when_unmatched :
  forall (i : issuer) (text : string),
    unmatched (rulesOf i) text -> scrub i text = text.
Proof.
  intros i text H. rewrite scrub_is_run. apply run_unmatched, H.
Qed.

Lemma C4_witness :
  unmatched (rulesOf IssuerCIBC) "Nov 3 coffee 4.50" /\
  scrub IssuerCIBC "Nov 3 coffee 4.50" = "Nov 3 coffee 4.50".
Proof.
  assert (H : unmatched (rulesOf IssuerCIBC) "Nov 3 coffee 4.50").
  { unfold unmatched. repeat constructor; vm_compute; reflexivity. }
  split; [exact H|].
  apply (C4_redaction_noop_when_unmatched IssuerCIBC "Nov 3 coffee 4.50" H).
Defined.

End RedactionFacts.

(** ** Issuer detection (C5) *)

Section DetectionFacts.
Import JS Ledger Props DetectBank.

(** [detectBank] is the first profile, in the fixed order of
    [profiles], whose predicate holds of the header. *)
Lemma detectBank_first_profile text :
  detectBank text =
  match find (matchesHeader (header text)) profiles with
  | Some p => inl (tag p)
  | None => inr unableToDetect
  end.
Proof.
  unfold detectBank, header, profiles, matchesHeader. simpl.
  generalize (substring 0 500 text). intros h.
  repeat match goal with
         | |- context [includes h ?s] => destruct (includes h s); simpl
         end; reflexivity.
Qed.

Lemma find_none_forall {A} (f : A -> bool) l :
  find f l = None <-> Forall (fun x => f x = false) l.
Proof.
  induction l as [|x l IH]; simpl.
  - split; [constructor | reflexivity].
  - destruct (f x) eqn:E.
    + split; [discriminate|]. intros H. inversion H; congruence.
    + rewrite IH. split; [now constructor | intros H; now inversion H].
Qed.

(** C5: [detectBank] depends on its input only through the first 500
    characters; it returns the tag of the first profile, in the fixed
    priority order, whose literal-substring predicate holds of that
    prefix; and it throws exactly when no profile's predicate holds. *)
Theorem C5_detectBank_prefix_priority_error :
  (forall t1 t2, header t1 = header t2 -> detectBank t1 = detectBank t2) /\
  (forall text before p after,
      profiles = before ++ p :: after ->
      Forall (fun q => matchesHeader (header text) q = false) before ->
      matchesHeader (header text) p = true ->
      detectBank text = inl (tag p)) /\
  (forall text,
      (exists msg, detectBank text = inr msg) <->
      Forall (fun p => matchesHeader (header text) p = false) profiles).
Proof.
  split; [|split].
  - intros t1 t2 H. rewrite !detectBank_first_profile. now rewrite H.
  - intros text before p after Hsplit Hbefore Hp.
    rewrite detectBank_first_profile, Hsplit.
    clear Hsplit. induction Hbefore as [|q before Hq _ IH]; simpl.
    + now rewrite Hp.
    + now rewrite Hq.
  - intros text. rewrite detectBank_first_profile, <- find_none_forall.
    destruct (find _ profiles).
    + split; [intros [msg H]; discriminate | discriminate].
    + split; [reflexivity | eauto].
Qed.

Lemma C5_witness :
  detectBank (longHeader "Royal Bank of Canada") =
  detectBank (longHeader "CIBC Account Statement") /\
  detectBank "CIBC Account Statement by RBC" = inl cibc.
Proof.
  destruct C5_detectBank_prefix_priority_error as [Hprefix [Hfirst _]].
  split.
  - apply Hprefix. vm_compute. reflexivity.
  - apply (Hfirst "CIBC Account Statement by RBC"
             [Profile rbc [["Royal Bank of Canada"]; ["RBC"; "account statement"];
                           ["www.rbcroyalbank.com"]]]
             (Profile cibc [["CIBC Account Statement"];
                            ["CIBC"; "Account Statement"]])
             [Profile td [["TD Canada Trust"]];
              Profile scotiabank [["Scotiabank"]; ["Scotia"]];
              Profile bmo [["BMO"]; ["Bank of Montreal"]]]).
    + reflexivity.
    + repeat constructor.
    + vm_compute. reflexivity.
Defined.

End DetectionFacts.

(** ** Balance reconciliation (C1, C10) *)

Section ReconciliationFacts.
Import JS Regex Ledger Props BalanceBased.

Lemma searchText_window allLines i :
  searchText allLines i = join " " (window allLines i).
Proof.
  unfold searchText, slice, window.
  now replace (i + 3 - i)%nat with 3%nat by lia.
Qed.

(** The downward loop finds the rightmost token with a comma. *)
Lemma rightmostComma_rev tokens :
  match rightmostComma (List.rev tokens) with
  | Some b => exists token, rightmostWithComma token tokens /\ b = parseNumber token
  | None => Forall (fun t => hasComma t = false) tokens
  end.
Proof.
  induction tokens as [|x tokens IH] using rev_ind; simpl.
  - constructor.
  - rewrite rev_app_distr. simpl. fold (hasComma x).
    destruct (hasComma x) eqn:Hx.
    + exists x. split; [|reflexivity].
      exists tokens, []. repeat split; [exact Hx | constructor].
    + destruct (rightmostComma (List.rev tokens)) as [b|].
      * destruct IH as [token [[before [after [Heq [Hc Hafter]]]] Hb]].
        exists token. split; [|exact Hb].
        exists before, (after ++ [x]). repeat split.
        -- rewrite Heq, <- app_assoc. reflexivity.
        -- exact Hc.
        -- apply Forall_app. split; [exact Hafter | now constructor].
      * apply Forall_app. split; [exact IH | now constructor].
Qed.

(** [Math.max] returns one of its arguments, and none exceeds it. *)
Lemma mathMax_spec xs : forall x,
  In (mathMax x xs) (x :: xs) /\
  Forall (fun v => (v <= mathMax x xs)%Z) (x :: xs).
Proof.
  unfold mathMax.
  induction xs as [|y xs IH]; intros x; simpl.
  - split; [now left | repeat constructor; lia].
  - destruct (IH (Z.max x y)) as [Hin Hall].
    inversion Hall as [|? ? Hm Hrest]; subst. split.
    + destruct Hin as [Hin|Hin]; [|now right; right].
      destruct (Z.max_spec x y) as [[_ E]|[_ E]].
      * right. left. now rewrite <- Hin.
      * left. now rewrite <- Hin.
    + constructor; [lia|]. constructor; [lia | exact Hrest].
Qed.

(** The balance the code selects is the one the specification names. *)
Lemma selectBalance_spec first others :
  newBalanceOf (selectBalance first others) (first :: others).
Proof.
  unfold selectBalance.
  pose proof (rightmostComma_rev (first :: others)) as H.
  destruct (rightmostComma (List.rev (first :: others))) as [b|].
  - left. exact H.
  - right. split; [exact H|].
    destruct (mathMax_spec (map parseNumber others) (parseNumber first))
      as [Hin Hall].
    split; [exact Hin|].
    change (parseNumber first :: map parseNumber others)
      with (map parseNumber (first :: others)) in Hall.
    now rewrite Forall_map in Hall.
Qed.

(** What a returned transaction was built from. *)
Lemma parseTransactionLine_inv line date allLines i previous bk t :
  parseTransactionLine line date allLines i previous bk = Some t ->
  exists p first others,
    previous = Some p /\
    matchAll no_flags amountRe (searchText allLines i) = first :: others /\
    includes line "CORRECTION" = false /\
    t = makeTransaction (test flag_i isCreditRe line) date line
          (guessMerchant allLines i) p (selectBalance first others).
Proof.
  unfold parseTransactionLine.
  destruct (test no_flags justBalanceRe line); [discriminate|].
  destruct (includes line "CORRECTION"); [discriminate|].
  destruct (negb _); [discriminate|].
  destruct (matchAll no_flags amountRe (searchText allLines i))
    as [|first others]; [discriminate|].
  destruct previous as [p|]; [|discriminate].
  intros H. injection H as <-. exists p, first, others. auto.
Qed.

Lemma parseTransactionLine_reconciles line date allLines i previous bk t :
  parseTransactionLine line date allLines i previous bk = Some t ->
  exists p b, previous = Some p /\ balance t = Some b /\ amount t = (p - b)%Z.
Proof.
  intros H. apply parseTransactionLine_inv in H
    as [p [first [others [Hp [_ [_ Ht]]]]]].
  exists p, (selectBalance first others). subst t. auto.
Qed.

(** The loop hands each emitted balance on as the next previous one. *)
Lemma scanLines_reconciled bk year lines todo : forall i currentDate previous,
  reconciled previous (scanLines bk year lines todo i currentDate previous).
Proof.
  induction todo as [|raw todo IH]; intros i currentDate previous; simpl;
    [exact I|].
  destruct (isJunk (trim raw)); [apply IH|].
  destruct (match lineDate bk year (trim raw) with
            | Some d => Some d
            | None => currentDate
            end) as [d|]; [|apply IH].
  destruct (parseTransactionLine (trim raw) d lines i previous bk) as [t|] eqn:E;
    [|apply IH].
  simpl. split; [|apply IH].
  eapply parseTransactionLine_reconciles, E.
Qed.

(** The loop over two stretches of lines is the loop over the first,
    then the loop over the second from the state the first leaves. *)
Lemma dateAfter_app bk year pre : forall post d,
  dateAfter bk year d (pre ++ post) =
  dateAfter bk year (dateAfter bk year d pre) post.
Proof.
  induction pre as [|raw pre IH]; intros post d; [reflexivity|].
  cbn [app dateAfter]. apply IH.
Qed.

Lemma scanLines_app bk year lines pre : forall post i d p,
  scanLines bk year lines (pre ++ post) i d p =
  scanLines bk year lines pre i d p ++
  scanLines bk year lines post (i + List.length pre) (dateAfter bk year d pre)
    (lastBalance p (scanLines bk year lines pre i d p)).
Proof.
  induction pre as [|raw pre IH]; intros post i d p.
  - cbn [app scanLines dateAfter lastBalance List.length].
    now rewrite Nat.add_0_r.
  - cbn [List.length]. replace (i + S (List.length pre))%nat
      with (S i + List.length pre)%nat by lia.
    simpl. destruct (isJunk (trim raw)); [apply IH|].
    destruct (match lineDate bk year (trim raw) with
              | Some d' => Some d'
              | None => d
              end) as [d'|]; [|apply IH].
    destruct (parseTransactionLine (trim raw) d' lines i p bk) as [t|];
      [|apply IH].
    simpl. f_equal. apply IH.
Qed.

Lemma nth_error_parts {A} (l : list A) : forall k x,
  nth_error l k = Some x ->
  l = firstn k l ++ x :: skipn (S k) l /\
  firstn (S k) l = firstn k l ++ [x] /\
  List.length (firstn k l) = k.
Proof.
  induction l as [|y l IH]; intros k x H.
  - destruct k; discriminate.
  - destruct k as [|k].
    + injection H as ->. repeat split.
    + destruct (IH k x H) as [H1 [H2 H3]].
      cbn [firstn skipn app List.length].
      repeat split; [f_equal; exact H1 | f_equal; exact H2 | now f_equal].
Qed.

(** A transaction line, read with a previous balance, is a transaction. *)
Lemma parseTransactionLine_emits line date allLines i p bk first others :
  test no_flags justBalanceRe line = false ->
  includes line "CORRECTION" = false ->
  existsb (fun re => test flag_i re line) patterns = true ->
  matchAll no_flags amountRe (join " " (window allLines i)) = first :: others ->
  parseTransactionLine line date allLines i (Some p) bk =
  Some (makeTransaction (test flag_i isCreditRe line) date line
          (guessMerchant allLines i) p (selectBalance first others)).
Proof.
  intros Hbal Hcorr Hpat Htok. unfold parseTransactionLine.
  rewrite Hbal, Hcorr, Hpat, searchText_window, Htok. reflexivity.
Qed.

(** C1: in the balance-reconciliation extractor, every emitted
    transaction takes its new balance from the decimal tokens of its
    line and the up-to-two lines after it: the rightmost token holding
    a comma, or, when no token has one, the numerically largest; its
    amount is the previous balance minus that new balance; and the new
    balance is the previous balance of the next emitted transaction.
    Conversely every transaction line yields its transaction: when the
    loop reaches, with a current date and a previous balance, a line
    that is not skipped, matches a transaction pattern and has a
    decimal token in its window, the output is what was emitted before
    that line, then the transaction built from the previous balance and
    the selected one (its amount field holds the difference of the two
    doubles), then what the loop emits from the following lines with
    the selected balance as previous balance. *)
Theorem C1_balance_selection_and_delta :
  (forall line date allLines i previous bk t,
      parseTransactionLine line date allLines i previous bk = Some t ->
      exists p b,
        previous = Some p /\
        newBalanceOf b (matchAll no_flags amountRe (join " " (window allLines i))) /\
        balance t = Some b /\
        amount t = (p - b)%Z) /\
  (forall text year bk,
      reconciled (openingBalance text) (parseTransactions text year bk)) /\
  (forall text year bk k raw d p first others,
      let lines := JS.split LF text in
      let line := trim raw in
      let before :=
        scanLines bk year lines (firstn k lines) 0 None (openingBalance text) in
      nth_error lines k = Some raw ->
      isJunk line = false ->
      dateAfter bk year None (firstn (S k) lines) = Some d ->
      test no_flags justBalanceRe line = false ->
      includes line "CORRECTION" = false ->
      existsb (fun re => test flag_i re line) patterns = true ->
      matchAll no_flags amountRe (join " " (window lines k)) = first :: others ->
      lastBalance (openingBalance text) before = Some p ->
      exists t b,
        newBalanceOf b (first :: others) /\
        balance t = Some b /\
        amount t = (p - b)%Z /\
        storedAmounts (Some p) [t] = [storedAmount p b] /\
        parseTransactions text year bk =
          before ++
          t :: scanLines bk year lines (skipn (S k) lines) (S k) (Some d) (Some b)).
Proof.
  split; [|split].
  - intros line date allLines i previous bk t H.
    apply parseTransactionLine_inv in H
      as [p [first [others [Hp [Htok [_ Ht]]]]]].
    exists p, (selectBalance first others).
    rewrite <- searchText_window, Htok. subst t.
    repeat split; [exact Hp | apply selectBalance_spec].
  - intros text year bk. apply scanLines_reconciled.
  - intros text year bk k raw d p first others lines line before
      Hnth Hjunk Hdate Hbal Hcorr Hpat Htok Hprev.
    destruct (nth_error_parts lines k raw Hnth) as [Hsplit [Hfirst Hlen]].
    exists (makeTransaction (test flag_i isCreditRe line) d line
              (guessMerchant lines k) p (selectBalance first others)),
           (selectBalance first others).
    split; [apply selectBalance_spec|].
    split; [reflexivity|]. split; [reflexivity|]. split; [reflexivity|].
    pose proof (scanLines_app bk year lines (firstn k lines)
                  (raw :: skipn (S k) lines) 0 None (openingBalance text)) as H.
    rewrite <- Hsplit in H. unfold parseTransactions. fold lines. rewrite H.
    fold before. f_equal. rewrite Hlen, Hprev. cbn [Nat.add].
    rewrite Hfirst, dateAfter_app in Hdate. cbn [dateAfter] in Hdate.
    fold line in Hdate. rewrite Hjunk in Hdate.
    cbn [scanLines]. fold line. rewrite Hjunk. cbv zeta. rewrite Hdate.
    rewrite (parseTransactionLine_emits line d lines k p bk first others
               Hbal Hcorr Hpat Htok).
    reflexivity.
Qed.

End ReconciliationFacts.

Section ReconciliationClaims.
Import JS Regex Ledger Props BalanceBased Examples.

Lemma C1_witness :
  (exists p b,
     Some 125050%Z = Some p /\
     newBalanceOf b (matchAll no_flags amountRe (join " " (window reversalLines 0))) /\
     Some 122550%Z = Some b /\
     2500%Z = (p - b)%Z) /\
  (exists t b,
     newBalanceOf b ["950.00"] /\
     balance t = Some b /\
     amount t = (90000 - b)%Z /\
     storedAmounts (Some 90000%Z) [t] = [storedAmount 90000 b] /\
     parseTransactions threeSpaced "2025" cibc =
       [makeTransaction true "2025-11-03" "Nov 3 DEPOSIT" "Unknown" 100000 90000]
       ++ t :: scanLines cibc "2025" (JS.split LF threeSpaced)
                 (skipn 5 (JS.split LF threeSpaced)) 5 (Some "2025-11-04") (Some b)).
Proof.
  destruct C1_balance_selection_and_delta as [Hline [_ Hloop]]. split.
  - apply (Hline "Nov 5 VISA DEBIT PURCHASE REVERSAL" "2025-11-05" reversalLines
             0%nat (Some 125050%Z) cibc
             (makeTransaction true "2025-11-05"
                "Nov 5 VISA DEBIT PURCHASE REVERSAL" "UBER" 125050 122550)).
    vm_compute. reflexivity.
  - apply (Hloop threeSpaced "2025" cibc 4%nat "Nov 4 DEPOSIT" "2025-11-04"
             90000%Z "950.00" []); vm_compute; reflexivity.
Defined.



End ReconciliationClaims.

(** ** A layout on which the running balances are selected (C2)

    The statements built by [spacedStatement] put every running
    balance on a line of its own, set apart from the next transaction:
    for every number of transactions and every sign pattern the
    extractor then selects exactly the running balances. *)

Section SpacedLayoutFacts.
Import JS Regex Ledger Props Examples.

(** Concatenation. *)
Lemma append_nil s : EmptyString +:+ s = s.
Proof. reflexivity. Qed.

Lemma append_cons c s t : String c s +:+ t = String c (s +:+ t).
Proof. reflexivity. Qed.

Lemma append_nil_r s : s +:+ EmptyString = s.
Proof. induction s; [reflexivity|]. rewrite append_cons. now f_equal. Qed.

Lemma append_assoc s t u : (s +:+ t) +:+ u = s +:+ (t +:+ u).
Proof. induction s; [reflexivity|]. rewrite !append_cons. now f_equal. Qed.

Lemma length_append s t :
  String.length (s +:+ t) = (String.length s + String.length t)%nat.
Proof. induction s; [reflexivity|]. rewrite append_cons. simpl. now f_equal. Qed.

(** A greedy repetition of a class runs to the end of the units the
    class accepts when the continuation succeeds there. *)

Section StarClass.
Variable fl : flags.
Variable neg : bool.
Variable items : list citem.

Lemma run_star_cons p c s n cs k :
  run fl (Star true (Cls neg items)) (MState p (String c s) n cs) k =
  if class_match fl neg items c then
    match run fl (Star true (Cls neg items)) (MState (Some c) s (S n) cs) k with
    | Some res => Some res
    | None => k (MState p (String c s) n cs)
    end
  else k (MState p (String c s) n cs).
Proof.
  cbn -[Nat.ltb]. unfold step1. cbn -[Nat.ltb].
  destruct (class_match fl neg items c); [|reflexivity].
  now rewrite (proj2 (Nat.ltb_lt n (S n)) (Nat.lt_succ_diag_r n)).
Qed.

Lemma run_star_class ds : forall p tail n cs k res,
  allChars (class_match fl neg items) ds = true ->
  stops (class_match fl neg items) tail = true ->
  k (MState (lastOr p ds) tail (n + String.length ds) cs) = Some res ->
  run fl (Star true (Cls neg items)) (MState p (ds +:+ tail) n cs) k = Some res.
Proof.
  induction ds as [|c ds IH]; intros p tail n cs k res Hall Hstop Hk.
  - rewrite append_nil. simpl in Hk. rewrite Nat.add_0_r in Hk.
    destruct tail as [|c tail]; [exact Hk|].
    rewrite run_star_cons. simpl in Hstop.
    destruct (class_match fl neg items c); [discriminate | exact Hk].
  - simpl in Hall. apply andb_prop in Hall as [Hc Hall].
    rewrite append_cons, run_star_cons, Hc.
    rewrite (IH (Some c) tail (S n) cs k res Hall Hstop); [reflexivity|].
    simpl in Hk. now rewrite Nat.add_succ_r in Hk.
Qed.

Lemma run_plus_class c ds p tail n cs k res :
  class_match fl neg items c = true ->
  allChars (class_match fl neg items) ds = true ->
  stops (class_match fl neg items) tail = true ->
  k (MState (lastOr (Some c) ds) tail (S n + String.length ds) cs) = Some res ->
  run fl (plus (Cls neg items)) (MState p (String c (ds +:+ tail)) n cs) k = Some res.
Proof.
  intros Hc Hall Hstop Hk. unfold plus.
  change (run fl (Cls neg items) (MState p (String c (ds +:+ tail)) n cs)
            (fun st1 => run fl (Star true (Cls neg items)) st1 k) = Some res).
  cbn [run]. unfold step1. cbn [rest]. rewrite Hc.
  unfold advance. cbn [pos Regex.caps].
  apply run_star_class; assumption.
Qed.

End StarClass.

Lemma allChars_impl (f g : ascii -> bool) s :
  (forall c, f c = true -> g c = true) -> allChars f s = true -> allChars g s = true.
Proof.
  intros H. induction s as [|c s IH]; simpl; [reflexivity|].
  intros E. apply andb_prop in E as [E1 E2]. now rewrite (H c E1), IH.
Qed.

Lemma take_append s t : take (String.length s) (s +:+ t) = s.
Proof. induction s; [destruct t; reflexivity|]. rewrite append_cons. simpl. now f_equal. Qed.

Lemma amountClass_digit fl c :
  is_digit c = true -> class_match fl false [IDigit; IChar ","] c = true.
Proof.
  intros H. unfold class_match, item_match. destruct (icase fl); simpl; now rewrite H.
Qed.

Lemma digitClass_digit fl c :
  is_digit c = true -> class_match fl false [IDigit] c = true.
Proof.
  intros H. unfold class_match, item_match. destruct (icase fl); simpl; now rewrite H.
Qed.

Lemma lastOr_append s t p : lastOr p (s +:+ t) = lastOr (lastOr p s) t.
Proof. revert p. induction s; intros p; [reflexivity|]. rewrite append_cons. simpl. apply IHs. Qed.

Lemma run_digit fl c s p n cs k :
  is_digit c = true ->
  run fl digit (MState p (String c s) n cs) k = k (MState (Some c) s (S n) cs).
Proof.
  intros H. unfold digit. cbn [run]. unfold step1. cbn [rest].
  now rewrite (digitClass_digit _ _ H).
Qed.

Lemma run_amount fl c ds d1 d2 p tail n cs k res :
  is_digit c = true -> allChars is_digit ds = true ->
  is_digit d1 = true -> is_digit d2 = true ->
  k (MState (Some d2) tail (n + String.length (plain c ds d1 d2)) cs) = Some res ->
  run fl amountRe (MState p (plain c ds d1 d2 +:+ tail) n cs) k = Some res.
Proof.
  intros Hc Hds H1 H2 Hk. unfold amountRe, plain.
  rewrite append_cons, append_assoc.
  change (run fl (plus (cls [IDigit; IChar ","]))
            (MState p
               (String c (ds +:+ (String "." (String d1 (String d2 EmptyString))
                                  +:+ tail))) n cs)
            (fun st1 => run fl (Seq (Chr ".") (Seq digit digit)) st1 k) = Some res).
  apply run_plus_class.
  - now apply amountClass_digit.
  - eapply allChars_impl; [|exact Hds]. apply amountClass_digit.
  - destruct fl as [[] ?]; reflexivity.
  - rewrite !append_cons, append_nil. cbn [run]. unfold step1. cbn [rest].
    replace (chr_match fl "." ".") with true by (destruct fl as [[] ?]; reflexivity).
    unfold advance. cbn [rest pos Regex.caps prev].
    rewrite (run_digit _ _ _ _ _ _ _ H1), (run_digit _ _ _ _ _ _ _ H2).
    rewrite <- Hk. f_equal. f_equal. unfold plain. simpl. rewrite length_append. simpl. lia.
Qed.

Lemma match_here_amount c ds d1 d2 p tail off :
  is_digit c = true -> allChars is_digit ds = true ->
  is_digit d1 = true -> is_digit d2 = true ->
  match_here no_flags amountRe p (plain c ds d1 d2 +:+ tail) off =
  Some (RMatch off (plain c ds d1 d2) []).
Proof.
  intros Hc Hds H1 H2. unfold match_here.
  rewrite (run_amount no_flags c ds d1 d2 p tail 0 [] Some
             (MState (Some d2) tail (String.length (plain c ds d1 d2)) []));
    try assumption; [|reflexivity].
  cbn [pos Regex.caps]. now rewrite take_append.
Qed.

(** Skipping over a matched text. *)
Lemma scan_skip fl r xs : forall p tail off,
  scan fl r p (xs +:+ tail) (String.length xs) off =
  scan fl r (lastOr p xs) tail 0 (off + String.length xs).
Proof.
  induction xs as [|c xs IH]; intros p tail off.
  - rewrite append_nil. simpl. now rewrite Nat.add_0_r.
  - rewrite append_cons. simpl. rewrite IH. f_equal. lia.
Qed.

Lemma scan_amount c ds d1 d2 p tail off :
  is_digit c = true -> allChars is_digit ds = true ->
  is_digit d1 = true -> is_digit d2 = true ->
  scan no_flags amountRe p (plain c ds d1 d2 +:+ tail) 0 off =
  RMatch off (plain c ds d1 d2) [] ::
  scan no_flags amountRe (Some d2) tail 0 (off + String.length (plain c ds d1 d2)).
Proof.
  intros Hc Hds H1 H2.
  pose proof (match_here_amount c ds d1 d2 p tail off Hc Hds H1 H2) as Hm.
  remember (plain c ds d1 d2) as t eqn:Et.
  assert (Hshape : t = String c (ds +:+ String "." (String d1 (String d2 EmptyString))))
    by exact Et.
  rewrite Hshape in *. clear Et Hshape.
  rewrite append_cons in *.
  cbn [scan]. rewrite Hm. cbn [m_text String.length Nat.pred]. f_equal.
  rewrite scan_skip. f_equal.
  - rewrite lastOr_append. reflexivity.
  - lia.
Qed.

Lemma scan_header tail :
  scan no_flags amountRe None (depositLine +:+ (" " +:+ tail)) 0 0 =
  scan no_flags amountRe (Some " "%char) tail 0 14.
Proof. reflexivity. Qed.

Lemma matchAll_window c ds d1 d2 :
  is_digit c = true -> allChars is_digit ds = true ->
  is_digit d1 = true -> is_digit d2 = true ->
  matchAll no_flags amountRe (join " " [depositLine; plain c ds d1 d2; EmptyString]) =
  [plain c ds d1 d2].
Proof.
  intros Hc Hds H1 H2. unfold matchAll. cbn [join].
  rewrite scan_header, scan_amount by assumption.
  reflexivity.
Qed.

Lemma digit_cases c :
  is_digit c = true ->
  In c ["0"; "1"; "2"; "3"; "4"; "5"; "6"; "7"; "8"; "9"]%char.
Proof.
  destruct c as [[] [] [] [] [] [] [] []]; vm_compute; intros H;
    try discriminate; tauto.
Qed.

Lemma tokenChar_cases c :
  tokenChar c = true ->
  In c ["0"; "1"; "2"; "3"; "4"; "5"; "6"; "7"; "8"; "9"; "."]%char.
Proof.
  destruct c as [[] [] [] [] [] [] [] []]; vm_compute; intros H;
    try discriminate; tauto.
Qed.

Lemma plain_tokenChars c ds d1 d2 :
  is_digit c = true -> allChars is_digit ds = true ->
  is_digit d1 = true -> is_digit d2 = true ->
  allChars tokenChar (plain c ds d1 d2) = true.
Proof.
  intros Hc Hds H1 H2. unfold plain. simpl. unfold tokenChar at 1. rewrite Hc. simpl.
  induction ds as [|x ds IH].
  - simpl. unfold tokenChar. rewrite H1, H2. reflexivity.
  - simpl in Hds. apply andb_prop in Hds as [Hx Hds].
    rewrite append_cons. simpl. unfold tokenChar at 1. rewrite Hx. simpl. now apply IH.
Qed.

(** A pattern whose first unit does not occur in the subject. *)
Lemma includes_absent c0 p s :
  allChars (fun c => negb (Ascii.eqb c0 c)) s = true ->
  includes s (String c0 p) = false.
Proof.
  induction s as [|b s IH]; intros H; simpl in *; [reflexivity|].
  apply andb_prop in H as [Hb Hs]. apply negb_true_iff in Hb. rewrite Hb. simpl.
  now apply IH.
Qed.

Lemma token_lacks c0 s :
  tokenChar c0 = false ->
  allChars tokenChar s = true ->
  allChars (fun c => negb (Ascii.eqb c0 c)) s = true.
Proof.
  intros H0. apply allChars_impl. intros c Hc.
  destruct (Ascii.eqb_spec c0 c) as [->|]; [congruence | reflexivity].
Qed.

Lemma token_not_junk c s :
  allChars tokenChar (String c s) = true ->
  BalanceBased.isJunk (String c s) = false.
Proof.
  intros H. unfold BalanceBased.isJunk, BalanceBased.junkMarkers. cbn [existsb].
  rewrite !includes_absent; [reflexivity | | | | | | | | | ];
    apply token_lacks; (reflexivity || exact H).
Qed.

Lemma token_no_comma s :
  allChars tokenChar s = true -> includes s "," = false.
Proof. intros H. apply includes_absent, token_lacks; [reflexivity | exact H]. Qed.

(** Reversal and trimming. *)
Lemma rev_onto_twice s : forall a b,
  rev_onto (rev_onto s a) b = rev_onto a (s +:+ b).
Proof.
  induction s as [|c s IH]; intros a b; [reflexivity|].
  simpl. rewrite IH. reflexivity.
Qed.

Lemma rev_involutive s : JS.rev (JS.rev s) = s.
Proof. unfold JS.rev. rewrite rev_onto_twice. simpl. apply append_nil_r. Qed.

Lemma allChars_rev_onto f s : forall acc,
  allChars f (rev_onto s acc) = allChars f s && allChars f acc.
Proof.
  induction s as [|c s IH]; intros acc; [reflexivity|].
  simpl. rewrite IH. simpl. destruct (f c), (allChars f s); reflexivity.
Qed.

Lemma trimStart_id s :
  allChars (fun c => negb (is_space c)) s = true -> trimStart s = s.
Proof.
  destruct s as [|c s]; [reflexivity|]. simpl. intros H.
  apply andb_prop in H as [Hc _]. apply negb_true_iff in Hc. now rewrite Hc.
Qed.

Lemma trim_id s :
  allChars (fun c => negb (is_space c)) s = true -> trim s = s.
Proof.
  intros H. unfold trim, trimEnd. rewrite (trimStart_id s H).
  rewrite trimStart_id; [apply rev_involutive|].
  unfold JS.rev. rewrite allChars_rev_onto, H. reflexivity.
Qed.

Lemma token_trim s : allChars tokenChar s = true -> trim s = s.
Proof.
  intros H. apply trim_id. revert H. apply allChars_impl.
  intros c Hc. apply tokenChar_cases in Hc. simpl in Hc.
  repeat (destruct Hc as [<-|Hc]; [reflexivity|]). destruct Hc.
Qed.

(** The date pattern on a balance line. *)
Lemma search_bol_later r s : forall c off,
  search_from no_flags (Seq Bol r) (Some c) s off = None.
Proof.
  induction s as [|b s IH]; intros c off; [reflexivity|].
  cbn [search_from]. rewrite IH. reflexivity.
Qed.

Lemma token_no_date c s year :
  is_digit c = true ->
  BalanceBased.lineDate cibc year (String c s) = None.
Proof.
  intros Hc. unfold BalanceBased.lineDate, exec.
  assert (E : search_from no_flags cibcDateRe None (String c s) 0 = None).
  { cbn [search_from].
    change cibcDateRe with (Seq Bol (seq [Group 1 (monthsFrom monthsNovFirst);
                                          plus space; Group 2 (plus digit)])).
    rewrite search_bol_later.
    apply digit_cases in Hc. simpl in Hc.
    repeat (destruct Hc as [<-|Hc]; [reflexivity|]). destruct Hc. }
  now rewrite E.
Qed.

Lemma token_just_balance c ds d1 d2 :
  is_digit c = true -> allChars is_digit ds = true ->
  is_digit d1 = true -> is_digit d2 = true ->
  test no_flags BalanceBased.justBalanceRe (plain c ds d1 d2) = true.
Proof.
  intros Hc Hds H1 H2. unfold test, exec.
  assert (E : exists m, match_here no_flags BalanceBased.justBalanceRe None
                          (plain c ds d1 d2) 0 = Some m).
  { unfold match_here, BalanceBased.justBalanceRe, plain.
    change (seq [Bol; plus digit; cls [IChar "."; IChar ","]; rep 2 digit; Eol])
      with (Seq Bol (Seq (plus (Cls false [IDigit]))
                      (Seq (cls [IChar "."; IChar ","]) (Seq (Seq digit digit) Eol)))).
    cbn [run]. change (at_bol no_flags (MState None _ 0 [])) with true. cbv iota.
    erewrite run_plus_class.
    - eexists. reflexivity.
    - now apply digitClass_digit.
    - eapply allChars_impl; [|exact Hds]. apply digitClass_digit.
    - reflexivity.
    - unfold cls. cbn [run]. unfold step1. cbn [rest].
      change (class_match no_flags false [IChar "."; IChar ","] ".") with true. cbv iota.
      unfold advance. cbn [rest pos Regex.caps prev].
      rewrite (run_digit _ _ _ _ _ _ _ H1), (run_digit _ _ _ _ _ _ _ H2).
      reflexivity. }
  destruct E as [m E]. unfold plain in *. cbn [search_from]. now rewrite E.
Qed.

Lemma Plain_tokenChars t : Plain t -> allChars tokenChar t = true.
Proof.
  intros [c [ds [d1 [d2 [-> [Hc [Hds [H1 H2]]]]]]]]. now apply plain_tokenChars.
Qed.

Lemma slice_window {A} (pre : list A) a b c rest :
  slice (List.length pre) (List.length pre + 3) (pre ++ a :: b :: c :: rest) = [a; b; c].
Proof.
  unfold slice. replace (List.length pre + 3 - List.length pre)%nat with 3%nat by lia.
  rewrite skipn_app, Nat.sub_diag, skipn_all. reflexivity.
Qed.

Lemma header_transaction pre t rest d p :
  Plain t ->
  exists tx,
    BalanceBased.parseTransactionLine depositLine d (pre ++ depositLine :: t :: EmptyString :: rest)
      (List.length pre) (Some p) cibc = Some tx /\
    balance tx = Some (parseNumber t).
Proof.
  intros Ht. unfold BalanceBased.parseTransactionLine.
  change (test no_flags BalanceBased.justBalanceRe depositLine) with false.
  change (includes depositLine "CORRECTION") with false.
  change (existsb (fun p0 => test flag_i p0 depositLine) BalanceBased.patterns) with true.
  cbv iota. cbn [negb].
  unfold BalanceBased.searchText. rewrite slice_window.
  pose proof (Plain_tokenChars t Ht) as Htok.
  destruct Ht as [c [ds [d1 [d2 [-> [Hc [Hds [H1 H2]]]]]]]].
  rewrite matchAll_window by assumption.
  eexists. split; [reflexivity|]. cbn [balance BalanceBased.makeTransaction].
  unfold BalanceBased.selectBalance. cbn [List.rev app BalanceBased.rightmostComma].
  rewrite (token_no_comma _ Htok). reflexivity.
Qed.

Lemma token_line_skipped pre t d prev i :
  Plain t ->
  BalanceBased.parseTransactionLine t d pre i prev cibc = None.
Proof.
  intros [c [ds [d1 [d2 [-> [Hc [Hds [H1 H2]]]]]]]].
  unfold BalanceBased.parseTransactionLine.
  now rewrite token_just_balance.
Qed.

Lemma scan_blocks year ts : forall pre cd p,
  Forall Plain ts ->
  map balance
    (BalanceBased.scanLines cibc year (pre ++ flat_map spacedBlock ts) (flat_map spacedBlock ts)
       (List.length pre) cd (Some p)) =
  map (fun t => Some (parseNumber t)) ts.
Proof.
  induction ts as [|t ts IH]; intros pre cd p Hts; [reflexivity|].
  inversion Hts as [|? ? Ht Hts']; subst.
  pose proof (Plain_tokenChars t Ht) as Htok.
  cbn [flat_map spacedBlock app].
  (* the header line *)
  cbn [BalanceBased.scanLines].
  change (trim depositLine) with depositLine.
  change (BalanceBased.isJunk depositLine) with false. cbv iota.
  change (BalanceBased.lineDate cibc year depositLine)
    with (Some (convertToISO monthTable ("Nov" +:+ " " +:+ "3") year)).
  cbv iota.
  destruct (header_transaction pre t (flat_map spacedBlock ts)
              (convertToISO monthTable ("Nov" +:+ " " +:+ "3") year) p Ht)
    as [tx [Htx Hbal]].
  rewrite Htx. cbn [map]. rewrite Hbal. f_equal.
  (* the balance line *)
  rewrite (token_trim _ Htok).
  assert (Hshape : exists c s, t = String c s /\ is_digit c = true).
  { destruct Ht as [c [ds [d1 [d2 [-> [Hc _]]]]]]. unfold plain. eauto. }
  destruct Hshape as [c [s [-> Hc]]].
  rewrite (token_not_junk _ _ Htok), (token_no_date _ _ _ Hc).
  rewrite (token_line_skipped _ _ _ _ _ Ht).
  (* the empty line *)
  change (trim EmptyString) with EmptyString.
  change (BalanceBased.isJunk EmptyString) with true. cbv iota.
  (* the rest *)
  specialize (IH (pre ++ [depositLine; String c s; EmptyString])%list
                (Some (convertToISO monthTable ("Nov" +:+ " " +:+ "3") year))
                (parseNumber (String c s)) Hts').
  rewrite <- app_assoc in IH. cbn [app] in IH.
  rewrite length_app in IH. cbn [List.length] in IH.
  replace (List.length pre + 3)%nat with (S (S (S (List.length pre)))) in IH by lia.
  exact IH.
Qed.

Lemma split_go_line l : forall cur tail,
  noLF l = true ->
  JS.split_go LF (l +:+ tail) cur = JS.split_go LF tail (rev_onto l cur).
Proof.
  induction l as [|c l IH]; intros cur tail H; [reflexivity|].
  simpl in H. apply andb_prop in H as [Hc Hl]. apply negb_true_iff in Hc.
  rewrite append_cons. simpl. rewrite Hc. now apply IH.
Qed.

Lemma rev_rev_onto l : JS.rev (rev_onto l EmptyString) = l.
Proof. apply rev_involutive. Qed.

Lemma split_ofLines x ls :
  Forall (fun l => noLF l = true) (x :: ls) ->
  JS.split LF (ofLines (x :: ls)) = x :: ls.
Proof.
  unfold JS.split, ofLines. revert x.
  induction ls as [|y ls IH]; intros x H; inversion H as [|? ? Hx Hls]; subst.
  - cbn [join]. rewrite <- (append_nil_r x) at 1.
    rewrite split_go_line by exact Hx. simpl. now rewrite rev_rev_onto.
  - cbn [join]. rewrite split_go_line by exact Hx.
    unfold str1. rewrite append_cons, append_nil. cbn [JS.split_go].
    change (Ascii.eqb LF LF) with true. cbv iota.
    rewrite rev_rev_onto. f_equal. now apply IH.
Qed.

Lemma token_noLF s : allChars tokenChar s = true -> noLF s = true.
Proof.
  apply allChars_impl. intros c Hc. apply tokenChar_cases in Hc. simpl in Hc.
  repeat (destruct Hc as [<-|Hc]; [reflexivity|]). destruct Hc.
Qed.

Lemma run_alt_first fl r1 r2 st k res :
  run fl r1 st k = Some res -> run fl (Alt r1 r2) st k = Some res.
Proof. intros H. cbn [run]. now rewrite H. Qed.

Lemma opening_run c ds d1 d2 tail :
  is_digit c = true -> allChars is_digit ds = true ->
  is_digit d1 = true -> is_digit d2 = true ->
  run flag_i BalanceBased.openingRe
    (MState None (openingLine (plain c ds d1 d2) +:+ tail) 0 []) Some =
  Some (MState (Some d2) tail (17 + String.length (plain c ds d1 d2))
          [(1%nat, take (17 + String.length (plain c ds d1 d2) - 17)
                     (plain c ds d1 d2 +:+ tail))]).
Proof.
  intros Hc Hds H1 H2. unfold openingLine.
  rewrite append_assoc. rewrite !append_cons, append_nil.
  set (T := plain c ds d1 d2 +:+ tail).
  change (run flag_i (Star true (Cls true [IChar "$"]))
            (MState (Some "e"%char) (" " +:+ String "$" T) 15 [])
            (fun st => run flag_i (Seq (opt (Chr "$")) (Group 1 amountRe)) st Some)
          = Some (MState (Some d2) tail (17 + String.length (plain c ds d1 d2))
                    [(1%nat, take (17 + String.length (plain c ds d1 d2) - 17) T)])).
  apply run_star_class; [reflexivity | reflexivity |].
  change (run flag_i (Alt (Chr "$") Eps)
            (MState (Some " "%char) (String "$" T) 16 [])
            (fun st1 => run flag_i (Group 1 amountRe) st1 Some)
          = Some (MState (Some d2) tail (17 + String.length (plain c ds d1 d2))
                    [(1%nat, take (17 + String.length (plain c ds d1 d2) - 17) T)])).
  apply run_alt_first.
  change (run flag_i amountRe (MState (Some "$"%char) T 17 [])
            (fun st1 => Some (set_cap 1 (MState (Some "$"%char) T 17 []) st1))
          = Some (MState (Some d2) tail (17 + String.length (plain c ds d1 d2))
                    [(1%nat, take (17 + String.length (plain c ds d1 d2) - 17) T)])).
  unfold T. apply run_amount; try assumption. reflexivity.
Qed.

Lemma opening_balance c ds d1 d2 tail :
  is_digit c = true -> allChars is_digit ds = true ->
  is_digit d1 = true -> is_digit d2 = true ->
  BalanceBased.openingBalance (openingLine (plain c ds d1 d2) +:+ tail) =
  Some (parseNumber (plain c ds d1 d2)).
Proof.
  intros Hc Hds H1 H2. unfold BalanceBased.openingBalance, exec.
  assert (E : match_here flag_i BalanceBased.openingRe None
                (openingLine (plain c ds d1 d2) +:+ tail) 0 =
              Some (RMatch 0 (take (17 + String.length (plain c ds d1 d2))
                                (openingLine (plain c ds d1 d2) +:+ tail))
                      [(1%nat, plain c ds d1 d2)])).
  { unfold match_here. rewrite opening_run by assumption. cbn [pos Regex.caps].
    replace (17 + String.length (plain c ds d1 d2) - 17)%nat
      with (String.length (plain c ds d1 d2)) by lia.
    now rewrite take_append. }
  destruct (openingLine (plain c ds d1 d2) +:+ tail) eqn:Es.
  - cbn [search_from]. rewrite E. reflexivity.
  - cbn [search_from]. rewrite E. reflexivity.
Qed.

Lemma rev_onto_append a : forall b acc,
  rev_onto (a +:+ b) acc = rev_onto b (rev_onto a acc).
Proof.
  induction a as [|c a IH]; intros b acc; [reflexivity|].
  rewrite append_cons. simpl. apply IH.
Qed.

Lemma trimEnd_last body d :
  is_space d = false ->
  trimEnd (body +:+ String d EmptyString) = body +:+ String d EmptyString.
Proof.
  intros Hd. unfold trimEnd.
  assert (E : JS.rev (body +:+ String d EmptyString) = String d (JS.rev body)).
  { unfold JS.rev. now rewrite rev_onto_append. }
  rewrite E. simpl. rewrite Hd. rewrite <- E. apply rev_involutive.
Qed.

Lemma digit_not_space d : is_digit d = true -> is_space d = false.
Proof.
  intros H. apply digit_cases in H. simpl in H.
  repeat (destruct H as [<-|H]; [reflexivity|]). destruct H.
Qed.

Lemma opening_line_junk t0 :
  Plain t0 -> BalanceBased.isJunk (trim (openingLine t0)) = true.
Proof.
  intros [c [ds [d1 [d2 [-> [Hc [Hds [H1 H2]]]]]]]].
  assert (E : trim (openingLine (plain c ds d1 d2)) = openingLine (plain c ds d1 d2)).
  { unfold trim. change (trimStart (openingLine (plain c ds d1 d2)))
      with (openingLine (plain c ds d1 d2)).
    unfold openingLine, plain.
    replace ("Opening balance $" +:+
             String c (ds +:+ String "." (String d1 (String d2 EmptyString))))
      with (("Opening balance $" +:+ String c (ds +:+ String "." (String d1 EmptyString)))
            +:+ String d2 EmptyString).
    - apply trimEnd_last. now apply digit_not_space.
    - rewrite append_assoc, (append_cons c), append_assoc. reflexivity. }
  rewrite E. unfold BalanceBased.isJunk, openingLine.
  rewrite !append_cons, append_nil.
  apply existsb_exists. exists "Opening balance". split; [|reflexivity].
  unfold BalanceBased.junkMarkers. simpl. tauto.
Qed.

Lemma opening_line_noLF t0 : Plain t0 -> noLF (openingLine t0) = true.
Proof.
  intros Ht. pose proof (token_noLF _ (Plain_tokenChars _ Ht)) as H.
  unfold openingLine, noLF in *. rewrite !append_cons, append_nil. simpl. exact H.
Qed.

Lemma blocks_noLF ts :
  Forall Plain ts -> Forall (fun l => noLF l = true) (flat_map spacedBlock ts).
Proof.
  induction 1 as [|t ts Ht _ IH]; [constructor|].
  cbn [flat_map spacedBlock app]. repeat constructor; [|exact IH].
  apply token_noLF, Plain_tokenChars, Ht.
Qed.

Lemma ofLines_head x ls : exists tail, ofLines (x :: ls) = x +:+ tail.
Proof.
  unfold ofLines. destruct ls as [|y ls]; cbn [join].
  - exists EmptyString. now rewrite append_nil_r.
  - eexists. reflexivity.
Qed.

(** On a spaced statement the extractor reads the opening balance and
    selects, for each transaction, the balance written under it. *)
Theorem spaced_statement_balances year t0 ts :
  Plain t0 -> Forall Plain ts ->
  BalanceBased.openingBalance (spacedStatement t0 ts) = Some (parseNumber t0) /\
  map balance (BalanceBased.parseTransactions (spacedStatement t0 ts) year cibc) =
  map (fun t => Some (parseNumber t)) ts.
Proof.
  intros Ht0 Hts.
  assert (Hopen : BalanceBased.openingBalance (spacedStatement t0 ts)
                  = Some (parseNumber t0)).
  { unfold spacedStatement.
    fold (ofLines (openingLine t0 :: flat_map spacedBlock ts)).
    destruct (ofLines_head (openingLine t0) (flat_map spacedBlock ts)) as [tail ->].
    destruct Ht0 as [c [ds [d1 [d2 [-> [Hc [Hds [H1 H2]]]]]]]].
    now apply opening_balance. }
  split; [exact Hopen|].
  unfold BalanceBased.parseTransactions. rewrite Hopen.
  unfold spacedStatement. fold (ofLines (openingLine t0 :: flat_map spacedBlock ts)).
  rewrite split_ofLines.
  - cbn [BalanceBased.scanLines]. rewrite (opening_line_junk _ Ht0).
    apply (scan_blocks year ts [openingLine t0] None (parseNumber t0) Hts).
  - constructor; [now apply opening_line_noLF | now apply blocks_noLF].
Qed.


Lemma uint_digits d : allChars is_digit (DecimalString.NilEmpty.string_of_uint d) = true.
Proof. induction d; simpl; auto. Qed.

Lemma uint_nonempty n :
  exists c ds, DecimalString.NilEmpty.string_of_uint (Nat.to_uint n) = String c ds.
Proof.
  assert (H : Nat.to_uint n <> Decimal.Nil).
  { rewrite <- (DecimalNat.Unsigned.of_to n) at 1.
    rewrite DecimalNat.Unsigned.to_of. apply DecimalFacts.unorm_nonnil. }
  destruct (Nat.to_uint n); [congruence| | | | | | | | | |]; simpl; eauto.
Qed.

Lemma digitChar_digit k : (k < 10)%nat -> is_digit (digitChar k) = true.
Proof.
  intros H. do 10 (destruct k as [|k]; [reflexivity|]). lia.
Qed.

Lemma digitChar_value k : (k < 10)%nat -> Z.of_nat (code (digitChar k) - 48) = Z.of_nat k.
Proof.
  intros H. do 10 (destruct k as [|k]; [reflexivity|]). lia.
Qed.

Lemma read_digits_uint d : forall (a : nat) tail,
  read_digits (DecimalString.NilEmpty.string_of_uint d +:+ tail) (Z.of_nat a) =
  read_digits tail (Z.of_nat (Nat.of_uint_acc d a)).
Proof.
  induction d; intros a tail; cbn [DecimalString.NilEmpty.string_of_uint Nat.of_uint_acc];
    [reflexivity| | | | | | | | | |];
    rewrite append_cons; cbn [read_digits];
    match goal with |- context [is_digit ?c] => change (is_digit c) with true end;
    cbv iota; rewrite <- IHd; f_equal;
    rewrite Nat.tail_mul_spec;
    match goal with
    | |- context [code ?c] =>
        let v := eval vm_compute in (code c) in change (code c) with v
    end;
    lia.
Qed.

Lemma money_plain z : Plain (money z).
Proof.
  unfold money. set (n := Z.to_nat z).
  destruct (uint_nonempty (n / 100)) as [c [ds E]].
  pose proof (uint_digits (Nat.to_uint (n / 100))) as Hd.
  rewrite E in *. simpl in Hd. apply andb_prop in Hd as [Hc Hds].
  exists c, ds, (digitChar (n mod 100 / 10)), (digitChar (n mod 10)).
  repeat split; try assumption.
  - apply digitChar_digit. apply Nat.Div0.div_lt_upper_bound.
    pose proof (Nat.mod_upper_bound n 100). lia.
  - apply digitChar_digit. apply Nat.mod_upper_bound. lia.
Qed.

Lemma money_value z : (0 <= z)%Z -> parseNumber (money z) = z.
Proof.
  intros Hz. unfold parseNumber.
  assert (Hnc : remove_char "," (money z) = money z).
  { pose proof (Plain_tokenChars _ (money_plain z)) as Ht.
    induction (money z) as [|c s IH]; [reflexivity|].
    simpl in Ht. apply andb_prop in Ht as [Hc Hs]. simpl.
    destruct (Ascii.eqb_spec c ","%char) as [->|_]; [discriminate|].
    now rewrite IH. }
  rewrite Hnc. unfold money, parseFloat. set (n := Z.to_nat z).
  change 0%Z with (Z.of_nat 0).
  rewrite read_digits_uint.
  change (Nat.of_uint_acc (Nat.to_uint (n / 100)) 0)
    with (Nat.of_uint (Nat.to_uint (n / 100))).
  rewrite DecimalNat.Unsigned.of_to.
  assert (H1 : (n mod 100 / 10 < 10)%nat).
  { apply Nat.Div0.div_lt_upper_bound. pose proof (Nat.mod_upper_bound n 100). lia. }
  assert (H2 : (n mod 10 < 10)%nat) by (apply Nat.mod_upper_bound; lia).
  cbn [read_digits]. change (is_digit ".") with false. cbv iota.
  cbn [digit_at]. rewrite (digitChar_digit _ H1).
  cbn [digit_at]. rewrite (digitChar_digit _ H2).
  rewrite (digitChar_value _ H1), (digitChar_value _ H2).
  assert (Hn : Z.of_nat n = z) by (unfold n; lia).
  rewrite <- Hn.
  pose proof (Nat.div_mod_eq n 100) as E1.
  pose proof (Nat.div_mod_eq (n mod 100) 10) as E2.
  assert (E3 : ((n mod 100) mod 10 = n mod 10)%nat).
  { change 100%nat with (10 * 10)%nat. rewrite (Nat.Div0.mod_mul_r n 10 10).
    rewrite (Nat.mul_comm 10), Nat.Div0.mod_add. apply Nat.Div0.mod_mod. }
  lia.
Qed.

Lemma storedAmounts_of_balances out : forall b0 balances,
  map balance out = map Some balances ->
  BalanceBased.storedAmounts (Some b0) out = balanceDrops b0 balances.
Proof.
  induction out as [|t out IH]; intros b0 balances H.
  - destruct balances; [reflexivity | discriminate].
  - destruct balances as [|b balances]; [discriminate|].
    cbn [map] in H. injection H as Hb Hrest.
    cbn [BalanceBased.storedAmounts balanceDrops]. rewrite Hb.
    f_equal. now apply IH.
Qed.

(** With a previous balance at hand, the loop emits one transaction
    for each balance the lines carry, with that balance. *)
Lemma scanLines_carried bk year lines todo : forall i currentDate p,
  map balance (BalanceBased.scanLines bk year lines todo i currentDate (Some p)) =
  map Some (carriedBalances bk year lines todo i currentDate).
Proof.
  induction todo as [|raw todo IH]; intros i currentDate p; [reflexivity|].
  cbn [BalanceBased.scanLines carriedBalances]. cbv zeta.
  destruct (BalanceBased.isJunk (trim raw)); [apply IH|].
  destruct (match BalanceBased.lineDate bk year (trim raw) with
            | Some d => Some d
            | None => currentDate
            end) as [d|]; [|apply IH].
  unfold BalanceBased.parseTransactionLine.
  destruct (test no_flags BalanceBased.justBalanceRe (trim raw)); [apply IH|].
  destruct (includes (trim raw) "CORRECTION"); [apply IH|].
  destruct (negb _); [apply IH|]. cbn [orb].
  rewrite searchText_window.
  destruct (matchAll no_flags amountRe (join " " (window lines i)))
    as [|first others]; [apply IH|].
  cbn [map balance BalanceBased.makeTransaction]. f_equal. apply IH.
Qed.

Lemma runningBalances_length amounts : forall b0,
  List.length (runningBalances b0 amounts) = List.length amounts.
Proof.
  induction amounts as [|a amounts IH]; intros b0; [reflexivity|].
  simpl. now rewrite IH.
Qed.

Lemma map_Some_injective {A} (l1 : list A) : forall l2,
  map Some l1 = map Some l2 -> l1 = l2.
Proof.
  induction l1 as [|x l1 IH]; intros [|y l2] H; try discriminate;
    [reflexivity|].
  injection H as -> H. f_equal. now apply IH.
Qed.




End SpacedLayoutFacts.

(** ** Lines without an amount (C7) *)

Section MissingAmountFacts.
Import JS Regex Ledger Props Examples.

Lemma balanceBased_no_token line date allLines i previous bk :
  noAmountToken (BalanceBased.searchText allLines i) ->
  BalanceBased.parseTransactionLine line date allLines i previous bk = None.
Proof.
  intros H. unfold BalanceBased.parseTransactionLine.
  rewrite (matchAll_no_match _ _ _ H).
  destruct (test no_flags BalanceBased.justBalanceRe line); [reflexivity|].
  destruct (includes line "CORRECTION"); [reflexivity|].
  destruct (negb _); reflexivity.
Qed.

Lemma cibc_tryPatterns_no_token ps line date allLines i :
  noAmountToken (Cibc.searchText allLines i) ->
  Cibc.tryPatterns ps line date allLines i = None.
Proof.
  intros H. apply (exec_group_none _ 1) in H.
  induction ps as [|p ps IH]; simpl; [reflexivity|].
  rewrite H. destruct (test flag_i (Cibc.regex_ p) line); exact IH.
Qed.

Lemma cibc_no_token line date allLines i :
  noAmountToken (Cibc.searchText allLines i) ->
  Cibc.parseTransactionLine line date allLines i = None.
Proof.
  intros H. unfold Cibc.parseTransactionLine.
  destruct (includes line "CORRECTION"); [reflexivity|].
  apply cibc_tryPatterns_no_token, H.
Qed.

Lemma rbc_nextLineAmount_searched allLines i :
  Rbc.nextLineAmount allLines i =
  Rbc.amountOf (matchAll no_flags amountRe (rbcSearched allLines i)).
Proof.
  unfold Rbc.nextLineAmount, rbcSearched.
  destruct (nth_error allLines (i + 1)); reflexivity.
Qed.

Lemma rbc_tryPatterns_no_token ps line date allLines i :
  noAmountToken (rbcSearched allLines i) ->
  Rbc.tryPatterns ps line date allLines i = None.
Proof.
  intros H.
  assert (E : Rbc.nextLineAmount allLines i = 0%Z).
  { rewrite rbc_nextLineAmount_searched. now rewrite (matchAll_no_match _ _ _ H). }
  induction ps as [|p ps IH]; simpl; [reflexivity|].
  rewrite E. simpl. destruct (test flag_i (Rbc.regex_ p) line); exact IH.
Qed.

Lemma rbc_no_token line date allLines i :
  noAmountToken (rbcSearched allLines i) ->
  Rbc.parseTransactionLine line date allLines i = None.
Proof.
  intros H. unfold Rbc.parseTransactionLine.
  destruct (test no_flags Rbc.justBalanceRe line); [reflexivity|].
  apply rbc_tryPatterns_no_token, H.
Qed.

(** The initial [amount = 0] of the two line-scan parsers never reaches
    the output: a CIBC transaction carries the value of a token that
    was found, an RBC transaction a value that is not zero. *)
Lemma cibc_tryPatterns_amount ps line date allLines i t :
  Cibc.tryPatterns ps line date allLines i = Some t ->
  exists m,
    exec no_flags (Group 1 amountRe) (Cibc.searchText allLines i) = Some m /\
    (amount t = parseNumber (group_text 1 m) \/
     amount t = (- parseNumber (group_text 1 m))%Z).
Proof.
  induction ps as [|p ps IH]; simpl; [discriminate|].
  destruct (test flag_i (Cibc.regex_ p) line); [|exact IH].
  destruct (exec no_flags (Group 1 amountRe) (Cibc.searchText allLines i))
    as [m|]; [|exact IH].
  intros H. injection H as <-. exists m. split; [reflexivity|].
  simpl. destruct (Cibc.isCredit p); auto.
Qed.

Lemma rbc_tryPatterns_amount ps line date allLines i t :
  Rbc.tryPatterns ps line date allLines i = Some t -> amount t <> 0%Z.
Proof.
  induction ps as [|p ps IH]; simpl; [discriminate|].
  destruct (test flag_i (Rbc.regex_ p) line); [|exact IH].
  destruct (Z.ltb_spec 0 (Rbc.nextLineAmount allLines i)) as [Hpos|_];
    [|exact IH].
  intros H. injection H as <-. simpl. destruct (Rbc.isCredit p); lia.
Qed.

(** C7: in each of the three extractors, a line for which no
    decimal-formatted numeric token is found in the text searched for
    its amount yields no transaction, and the scan goes on with the
    next line; no transaction is emitted with the amount left at its
    initial zero. *)
Theorem C7_no_amount_no_transaction :
  (forall line date lines i t,
      Cibc.parseTransactionLine line date lines i = Some t ->
      exists m,
        exec no_flags (Group 1 amountRe) (Cibc.searchText lines i) = Some m /\
        (amount t = parseNumber (group_text 1 m) \/
         amount t = (- parseNumber (group_text 1 m))%Z)) /\
  (forall line date lines i t,
      Rbc.parseTransactionLine line date lines i = Some t -> amount t <> 0%Z) /\
  (forall bk year lines raw todo i currentDate previous,
      noAmountToken (BalanceBased.searchText lines i) ->
      (forall line date,
          BalanceBased.parseTransactionLine line date lines i previous bk = None) /\
      exists currentDate',
        BalanceBased.scanLines bk year lines (raw :: todo) i currentDate previous =
        BalanceBased.scanLines bk year lines todo (S i) currentDate' previous) /\
  (forall year lines raw todo i currentDate,
      noAmountToken (Cibc.searchText lines i) ->
      (forall line date, Cibc.parseTransactionLine line date lines i = None) /\
      exists currentDate',
        Cibc.scanLines year lines (raw :: todo) i currentDate =
        Cibc.scanLines year lines todo (S i) currentDate') /\
  (forall year lines raw todo i currentDate,
      noAmountToken (rbcSearched lines i) ->
      (forall line date, Rbc.parseTransactionLine line date lines i = None) /\
      exists currentDate',
        Rbc.scanLines year lines (raw :: todo) i currentDate =
        Rbc.scanLines year lines todo (S i) currentDate').
Proof.
  split; [|split; [|split; [|split]]].
  - intros line date lines i t. unfold Cibc.parseTransactionLine.
    destruct (includes line "CORRECTION"); [discriminate|].
    apply cibc_tryPatterns_amount.
  - intros line date lines i t. unfold Rbc.parseTransactionLine.
    destruct (test no_flags Rbc.justBalanceRe line); [discriminate|].
    apply rbc_tryPatterns_amount.
  - intros bk year lines raw todo i currentDate previous H.
    split; [intros; now apply balanceBased_no_token|].
    simpl. destruct (BalanceBased.isJunk (trim raw)); [eauto|].
    destruct (match BalanceBased.lineDate bk year (trim raw) with
              | Some d => Some d
              | None => currentDate
              end) as [d|]; [|eauto].
    rewrite (balanceBased_no_token _ _ _ _ _ _ H). eauto.
  - intros year lines raw todo i currentDate H.
    split; [intros; now apply cibc_no_token|].
    simpl. destruct (Cibc.isJunk (trim raw)); [eauto|].
    destruct (exec no_flags cibcDateRe (trim raw)).
    + rewrite (cibc_no_token _ _ _ _ H). simpl. eauto.
    + destruct currentDate; [|eauto].
      rewrite (cibc_no_token _ _ _ _ H). simpl. eauto.
  - intros year lines raw todo i currentDate H.
    split; [intros; now apply rbc_no_token|].
    simpl. destruct (Rbc.isJunk (trim raw)); [eauto|].
    destruct (exec no_flags rbcDateRe (trim raw)).
    + rewrite (rbc_no_token _ _ _ _ H). simpl. eauto.
    + destruct currentDate; [|eauto].
      rewrite (rbc_no_token _ _ _ _ H). simpl. eauto.
Qed.

Lemma C7_witness :
  noAmountToken (Cibc.searchText missingAmountLines 0) /\
  Cibc.parseTransactionLine " VISA DEBIT PURCHASE" "2025-11-03"
    missingAmountLines 0 = None /\
  map amount (Cibc.scanLines "2025" missingAmountLines missingAmountLines 0 None)
    = [(-1100)%Z].
Proof.
  assert (H : noAmountToken (Cibc.searchText missingAmountLines 0))
    by (vm_compute; reflexivity).
  destruct C7_no_amount_no_transaction as [_ [_ [_ [Hcibc _]]]].
  destruct (Hcibc "2025" missingAmountLines "Nov 3 VISA DEBIT PURCHASE"
              (tl missingAmountLines) 0%nat None H) as [Hline _].
  split; [exact H | split; [apply Hline | vm_compute; reflexivity]].
Defined.

End MissingAmountFacts.

(** ** Corrections and reversals (C6) *)

Section ReversalFacts.
Import JS Regex Ledger Props Examples.

Lemma read_digits_nonneg s : forall acc,
  (0 <= acc)%Z -> (0 <= fst (read_digits s acc))%Z.
Proof.
  induction s as [|c s IH]; intros acc H; simpl; [exact H|].
  destruct (is_digit c); [|exact H]. apply IH. lia.
Qed.

Lemma digit_at_nonneg s : (0 <= fst (digit_at s))%Z.
Proof.
  destruct s as [|c s]; simpl; [lia|]. destruct (is_digit c); simpl; lia.
Qed.

Lemma parseFloat_nonneg s : (0 <= parseFloat s)%Z.
Proof.
  unfold parseFloat.
  pose proof (read_digits_nonneg s 0 (Z.le_refl 0)) as Hi.
  destruct (read_digits s 0) as [ip s1]. simpl in Hi.
  destruct s1 as [|c s2]; [lia|].
  destruct (Ascii.eqb_spec c "."%char) as [->|Hne].
  - pose proof (digit_at_nonneg s2) as H1.
    destruct (digit_at s2) as [d1 s3]. simpl in H1.
    pose proof (digit_at_nonneg s3) as H2.
    destruct (digit_at s3) as [d2 s4]. simpl in H2. lia.
  - destruct c as [[] [] [] [] [] [] [] []]; try lia; congruence.
Qed.

Lemma parseNumber_nonneg n : (0 <= parseNumber n)%Z.
Proof. apply parseFloat_nonneg. Qed.




(** A reversal line that also reads PURCHASE is taken by the PURCHASE
    pattern, which comes first in the table, and is typed as a debit. *)
Example purchase_reversal_is_typed_debit :
  map (fun t => (type t, description t, amount t))
      (Cibc.parseTransactions purchaseReversalStatement "2025")
  = [(debit, "VISA DEBIT RETAIL PURCHASE", (-1000)%Z)].
Proof. vm_compute. reflexivity. Qed.

End ReversalFacts.

(** ** The glued-number heuristic (C8) *)

Section GluedNumberFacts.
Import JS Regex Ledger Props Examples.

Lemma digit_not_dot c : is_digit c = true -> Ascii.eqb c "." = false.
Proof.
  intros H. apply digit_cases in H. simpl in H.
  repeat (destruct H as [<-|H]; [reflexivity|]). destruct H.
Qed.

Lemma digit_not_comma c : is_digit c = true -> Ascii.eqb c "," = false.
Proof.
  intros H. apply digit_cases in H. simpl in H.
  repeat (destruct H as [<-|H]; [reflexivity|]). destruct H.
Qed.

(** Whatever the digits, a single number with a three-digit integer
    part keeps all three: nothing is split off as a store code. *)
Lemma glued_three_digits c1 c2 c3 d1 d2 :
  is_digit c1 = true -> is_digit c2 = true -> is_digit c3 = true ->
  is_digit d1 = true -> is_digit d2 = true ->
  Rbc.oneNumberAmount (threeDigit c1 c2 c3 d1 d2) =
  parseFloat (threeDigit c1 c2 c3 d1 d2).
Proof.
  intros H1 H2 H3 H4 H5. unfold Rbc.oneNumberAmount, threeDigit.
  assert (Hsplit : nth 0 (JS.split "." (threeDigit c1 c2 c3 d1 d2)) EmptyString
                   = String c1 (String c2 (String c3 EmptyString))).
  { unfold JS.split, threeDigit. cbn [JS.split_go].
    rewrite (digit_not_dot _ H1), (digit_not_dot _ H2), (digit_not_dot _ H3).
    reflexivity. }
  unfold threeDigit in Hsplit. rewrite Hsplit.
  cbn [remove_char].
  rewrite (digit_not_comma _ H1), (digit_not_comma _ H2), (digit_not_comma _ H3).
  cbn [String.length Nat.leb andb].
  assert (Hcomma : includes (threeDigit c1 c2 c3 d1 d2) "," = false).
  { apply token_no_comma. unfold threeDigit. simpl. unfold tokenChar.
    rewrite H1, H2, H3, H4, H5. reflexivity. }
  unfold threeDigit in Hcomma. rewrite Hcomma. cbn [negb].
  assert (Hm : exec no_flags Rbc.gluedTailRe (threeDigit c1 c2 c3 d1 d2) =
               Some (RMatch 0 (threeDigit c1 c2 c3 d1 d2)
                       [(2%nat, String d1 (String d2 EmptyString));
                        (1%nat, String c1 (String c2 (String c3 EmptyString)))])).
  { unfold exec, threeDigit. cbn [search_from]. unfold match_here.
    change Rbc.gluedTailRe
      with (Seq (Group 1 (Seq (Cls false [IDigit])
                            (Alt (Seq (Cls false [IDigit])
                                    (Alt (Seq (Cls false [IDigit]) Eps) Eps)) Eps)))
              (Seq (Chr ".")
                 (Seq (Group 2 (Seq (Cls false [IDigit]) (Cls false [IDigit]))) Eol))).
    cbn [run]. unfold step1. cbn [rest].
    rewrite (digitClass_digit no_flags _ H1). unfold advance at 1. cbn [rest].
    rewrite (digitClass_digit no_flags _ H2). unfold advance at 1. cbn [rest].
    rewrite (digitClass_digit no_flags _ H3). unfold advance at 1. cbn [rest].
    unfold set_cap at 1. cbn [rest].
    change (chr_match no_flags "." ".") with true. cbv iota.
    unfold advance at 1. cbn [rest].
    rewrite (digitClass_digit no_flags _ H4). unfold advance at 1. cbn [rest].
    rewrite (digitClass_digit no_flags _ H5). reflexivity. }
  unfold threeDigit in Hm. rewrite Hm. reflexivity.
Qed.

(** C8: on the single token [873.98] the RBC parser keeps [873.98], not
    the [3.98] its comment and the specification give; likewise
    [87110.71] gives [110.71] and [74613.56] gives [613.56]: the tail
    pattern is matched at the leftmost position where it fits, which
    takes three digits whenever three are available. *)
Theorem C8_glued_number_keeps_last_three_digits :
  Rbc.oneNumberAmount "873.98" = 87398%Z /\
  Rbc.oneNumberAmount "87110.71" = 11071%Z /\
  Rbc.oneNumberAmount "74613.56" = 61356%Z /\
  map amount (Rbc.parseTransactions (ofLines gluedLines) "2025") = [(-87398)%Z].
Proof. repeat split; vm_compute; reflexivity. Qed.

End GluedNumberFacts.

(** ** Order of the redaction rules (C3) *)

Section RuleOrderFacts.
Import JS Regex Scrubbers Props Examples.

Lemma run_app rules1 rules2 text :
  run (rules1 ++ rules2) text = run rules2 (run rules1 text).
Proof. apply fold_left_app. Qed.

Lemma run_cons r rules text : run (r :: rules) text = run rules (apply r text).
Proof. reflexivity. Qed.

(** C3 (as stated) fails: in neither pass does the e-transfer rule come
    before the name-stripping rule, and the order shows in the output:
    on an e-transfer followed by two lines in capitals the CIBC pass
    removes the second of them together with the recipient, where a
    pass with the e-transfer rule first would keep a separate
    redaction marker for it. *)
Lemma C3_counterexample :
  ~ appliedBefore isETransfer isPersonName (rulesOf IssuerCIBC) /\
  ~ appliedBefore isETransfer isPersonName (rulesOf IssuerRBC) /\
  scrub IssuerCIBC eTransferThenName
    = ofLines ["E-TRANSFER [REF]"; "[RECIPIENT]"] /\
  run (movedFirst isETransfer (rulesOf IssuerCIBC)) eTransferThenName
    = ofLines ["E-TRANSFER [REF]"; "[RECIPIENT]"; "[NAME REDACTED]"].
Proof.
  split; [|split; [|split]].
  - intros [i [j [Hi [Hj Hlt]]]]. vm_compute in Hi, Hj.
    injection Hi as <-. injection Hj as <-. lia.
  - intros [i [j [Hi [Hj Hlt]]]]. vm_compute in Hi, Hj.
    injection Hi as <-. injection Hj as <-. lia.
  - vm_compute. reflexivity.
  - vm_compute. reflexivity.
Qed.

(** C3 (amended): in every issuer's redaction pass the all-caps
    name-stripping rule is applied before the rule that collapses an
    e-transfer reference and recipient into placeholders, so the
    e-transfer rule operates on text the name rule has already
    rewritten. *)
Theorem C3_name_rule_precedes_etransfer_rule :
  forall i : issuer,
    appliedBefore isPersonName isETransfer (rulesOf i) /\
    exists before between after,
      rulesOf i = before ++ nameRuleOf i :: between ++ eTransferRuleOf i :: after /\
      forall text,
        scrub i text =
        run after (apply (eTransferRuleOf i)
                     (run between (apply (nameRuleOf i) (run before text)))).
Proof.
  intros i. split.
  - destruct i.
    + exists 2%nat, 7%nat. repeat split. lia.
    + exists 0%nat, 3%nat. repeat split. lia.
  - destruct i.
    + exists (firstn 2 RBC.rules), (firstn 4 (skipn 3 RBC.rules)),
        (skipn 8 RBC.rules).
      split; [reflexivity|]. intros text.
      rewrite <- run_cons, <- run_app, <- run_cons, <- run_app. reflexivity.
    + exists [], (firstn 2 (skipn 1 CIBC.rules)), (skipn 4 CIBC.rules).
      split; [reflexivity|]. intros text.
      rewrite <- run_cons, <- run_app, <- run_cons, <- run_app. reflexivity.
Qed.

End RuleOrderFacts.

(** ** Guarded learning (C9) *)

Section LearningFacts.
Import JS Ledger LearnMerchant.

Variable category_set : list string.
Variable is_transfer_kind : sample -> bool.
Variable min_name_length : nat.
Variable now : string.
Variable accumulate : entry -> option sample -> nat * Z * string.
Variable sh : string -> option (list string).
Variable stringify : sample -> string.
Variable loads : string -> option sample.
Variable execError : string -> string.
Variable tempScriptPath : string.
Variable projectRoot : string.
Variable hasDictionaryModule : string -> bool.


End LearningFacts.

Section LearningWitness.
Import JS Ledger LearnMerchant.


End LearningWitness.

(** * Further properties of the extractors *)

(** Evaluates the list a [Forall] goal ranges over. *)
Ltac lines_of_text :=
  match goal with
  | |- Forall _ ?l => let l' := eval vm_compute in l in change l with l'
  end.

Section LoopFacts.
Import JS Regex Ledger Props.

(** What holds of every transaction a line can yield holds of every
    transaction of the output. *)
Lemma balanceBased_scanLines_each (P : transaction -> Prop) bk year lines :
  (forall line date i previous t,
      BalanceBased.parseTransactionLine line date lines i previous bk = Some t ->
      P t) ->
  forall todo i currentDate previous,
    Forall P (BalanceBased.scanLines bk year lines todo i currentDate previous).
Proof.
  intros HP. induction todo as [|raw todo IH]; intros i currentDate previous;
    simpl; [constructor|].
  destruct (BalanceBased.isJunk (trim raw)); [apply IH|].
  destruct (match BalanceBased.lineDate bk year (trim raw) with
            | Some d => Some d
            | None => currentDate
            end) as [d|]; [|apply IH].
  destruct (BalanceBased.parseTransactionLine (trim raw) d lines i previous bk)
    as [t|] eqn:E; [|apply IH].
  constructor; [eapply HP, E | apply IH].
Qed.

Lemma pushed_each (P : transaction -> Prop) (o : option transaction) :
  (forall t, o = Some t -> P t) ->
  Forall P (match o with Some x => [x] | None => [] end).
Proof. destruct o as [t|]; intros H; repeat constructor. now apply H. Qed.

Lemma cibc_scanLines_each (P : transaction -> Prop) year lines :
  (forall line date i t,
      Cibc.parseTransactionLine line date lines i = Some t -> P t) ->
  forall todo i currentDate,
    Forall P (Cibc.scanLines year lines todo i currentDate).
Proof.
  intros HP. induction todo as [|raw todo IH]; intros i currentDate;
    simpl; [constructor|].
  destruct (Cibc.isJunk (trim raw)); [apply IH|].
  destruct (exec no_flags cibcDateRe (trim raw)) as [m|].
  - apply Forall_app. split; [|apply IH].
    apply pushed_each. intros t. apply HP.
  - destruct currentDate as [d|]; [|apply IH].
    apply Forall_app. split; [|apply IH].
    apply pushed_each. intros t. apply HP.
Qed.

Lemma rbc_scanLines_each (P : transaction -> Prop) year lines :
  (forall line date i t,
      Rbc.parseTransactionLine line date lines i = Some t -> P t) ->
  forall todo i currentDate,
    Forall P (Rbc.scanLines year lines todo i currentDate).
Proof.
  intros HP. induction todo as [|raw todo IH]; intros i currentDate;
    simpl; [constructor|].
  destruct (Rbc.isJunk (trim raw)); [apply IH|].
  destruct (exec no_flags rbcDateRe (trim raw)) as [m|].
  - apply Forall_app. split; [|apply IH].
    apply pushed_each. intros t. apply HP.
  - destruct currentDate as [d|]; [|apply IH].
    apply Forall_app. split; [|apply IH].
    apply pushed_each. intros t. apply HP.
Qed.

(** What a transaction of a line-scan parser was built from. *)
Lemma cibc_tryPatterns_inv ps line date lines i t :
  Cibc.tryPatterns ps line date lines i = Some t ->
  exists p m,
    In p ps /\
    test flag_i (Cibc.regex_ p) line = true /\
    exec no_flags (Group 1 amountRe) (Cibc.searchText lines i) = Some m /\
    t = {| date := date;
           type := if Cibc.isCredit p then credit else debit;
           merchant := Cibc.cleanMerchantName (Cibc.guessMerchant p lines i);
           description := Cibc.ptype p;
           amount := if Cibc.isCredit p then parseNumber (group_text 1 m)
                     else (- parseNumber (group_text 1 m))%Z;
           balance := None |}.
Proof.
  induction ps as [|p ps IH]; simpl; [discriminate|].
  destruct (test flag_i (Cibc.regex_ p) line) eqn:Ht.
  - destruct (exec no_flags (Group 1 amountRe) (Cibc.searchText lines i))
      as [m|] eqn:Em.
    + intros H. injection H as <-. exists p, m. auto.
    + intros H. destruct (IH H) as [q [m [Hin Hrest]]].
      exists q, m. split; [now right | exact Hrest].
  - intros H. destruct (IH H) as [q [m [Hin Hrest]]].
    exists q, m. split; [now right | exact Hrest].
Qed.

Lemma cibc_parseTransactionLine_inv line date lines i t :
  Cibc.parseTransactionLine line date lines i = Some t ->
  exists p m,
    In p Cibc.patterns /\
    test flag_i (Cibc.regex_ p) line = true /\
    exec no_flags (Group 1 amountRe) (Cibc.searchText lines i) = Some m /\
    t = {| date := date;
           type := if Cibc.isCredit p then credit else debit;
           merchant := Cibc.cleanMerchantName (Cibc.guessMerchant p lines i);
           description := Cibc.ptype p;
           amount := if Cibc.isCredit p then parseNumber (group_text 1 m)
                     else (- parseNumber (group_text 1 m))%Z;
           balance := None |}.
Proof.
  unfold Cibc.parseTransactionLine.
  destruct (includes line "CORRECTION"); [discriminate|].
  apply cibc_tryPatterns_inv.
Qed.

Lemma rbc_tryPatterns_inv ps line date lines i t :
  Rbc.tryPatterns ps line date lines i = Some t ->
  exists p,
    In p ps /\
    test flag_i (Rbc.regex_ p) line = true /\
    (0 < Rbc.nextLineAmount lines i)%Z /\
    t = {| date := date;
           type := if Rbc.isCredit p then credit else debit;
           merchant := Rbc.cleanMerchantName (Rbc.extractMerchant p line lines i);
           description := Rbc.ptype p;
           amount := if Rbc.isCredit p then Rbc.nextLineAmount lines i
                     else (- Rbc.nextLineAmount lines i)%Z;
           balance := None |}.
Proof.
  induction ps as [|p ps IH]; simpl; [discriminate|].
  destruct (test flag_i (Rbc.regex_ p) line) eqn:Ht.
  - destruct (Z.ltb_spec 0 (Rbc.nextLineAmount lines i)) as [Hpos|_].
    + intros H. injection H as <-. exists p. auto.
    + intros H. destruct (IH H) as [q [Hin Hrest]].
      exists q. split; [now right | exact Hrest].
  - intros H. destruct (IH H) as [q [Hin Hrest]].
    exists q. split; [now right | exact Hrest].
Qed.

Lemma rbc_parseTransactionLine_inv line date lines i t :
  Rbc.parseTransactionLine line date lines i = Some t ->
  exists p,
    In p Rbc.patterns /\
    test flag_i (Rbc.regex_ p) line = true /\
    (0 < Rbc.nextLineAmount lines i)%Z /\
    t = {| date := date;
           type := if Rbc.isCredit p then credit else debit;
           merchant := Rbc.cleanMerchantName (Rbc.extractMerchant p line lines i);
           description := Rbc.ptype p;
           amount := if Rbc.isCredit p then Rbc.nextLineAmount lines i
                     else (- Rbc.nextLineAmount lines i)%Z;
           balance := None |}.
Proof.
  unfold Rbc.parseTransactionLine.
  destruct (test no_flags Rbc.justBalanceRe line); [discriminate|].
  apply rbc_tryPatterns_inv.
Qed.

End LoopFacts.

(** ** Statements without an opening balance or without dates *)

Section EmptyLedgerFacts.
Import JS Regex Ledger Props Statement.

(** Without a previous balance no line yields a transaction, so the
    previous balance stays unset to the end of the loop. *)
Lemma balanceBased_scanLines_unseeded bk year lines todo : forall i currentDate,
  BalanceBased.scanLines bk year lines todo i currentDate None = [].
Proof.
  induction todo as [|raw todo IH]; intros i currentDate; simpl; [reflexivity|].
  destruct (BalanceBased.isJunk (trim raw)); [apply IH|].
  destruct (match BalanceBased.lineDate bk year (trim raw) with
            | Some d => Some d
            | None => currentDate
            end) as [d|]; [|apply IH].
  destruct (BalanceBased.parseTransactionLine (trim raw) d lines i None bk)
    as [t|] eqn:E; [|apply IH].
  apply parseTransactionLine_inv in E as [p [_ [_ [Hp _]]]]. discriminate.
Qed.

(** X1: A statement in which the summary finds no opening balance yields
    no transaction at all in the balance-based parser, whatever its
    lines hold: the summary and the loop read the opening balance with
    the same pattern, and every amount needs a previous balance. *)
Theorem no_opening_balance_no_transactions text bk :
  opening_balance (summary (BalanceBasedParse.parse text bk)) = None ->
  transactions (BalanceBasedParse.parse text bk) = [].
Proof.
  unfold BalanceBasedParse.parse, BalanceBasedParse.parseAccountSummary.
  cbn [summary opening_balance transactions]. unfold summaryField.
  intros H. unfold BalanceBased.parseTransactions, BalanceBased.openingBalance.
  destruct (exec flag_i BalanceBased.openingRe text); [discriminate|].
  apply balanceBased_scanLines_unseeded.
Qed.

Lemma no_opening_balance_no_transactions_witness :
  transactions
    (BalanceBasedParse.parse
       (Examples.ofLines ["Nov 3 DEPOSIT 900.00"; "Nov 4 DEPOSIT 950.00"]) cibc)
  = [].
Proof.
  apply no_opening_balance_no_transactions. vm_compute. reflexivity.
Defined.

(** Lines before the first dated line yield nothing; so a text none of
    whose lines opens with a date yields no transaction. *)
Lemma balanceBased_scanLines_undated bk year lines todo : forall i previous,
  Forall (fun l => BalanceBased.lineDate bk year (trim l) = None) todo ->
  BalanceBased.scanLines bk year lines todo i None previous = [].
Proof.
  induction todo as [|raw todo IH]; intros i previous H; simpl; [reflexivity|].
  inversion H as [|? ? Hraw Htodo]; subst.
  destruct (BalanceBased.isJunk (trim raw)); [now apply IH|].
  rewrite Hraw. now apply IH.
Qed.

Lemma cibc_scanLines_undated year lines todo : forall i,
  Forall (fun l => exec no_flags cibcDateRe (trim l) = None) todo ->
  Cibc.scanLines year lines todo i None = [].
Proof.
  induction todo as [|raw todo IH]; intros i H; simpl; [reflexivity|].
  inversion H as [|? ? Hraw Htodo]; subst.
  destruct (Cibc.isJunk (trim raw)); [now apply IH|].
  rewrite Hraw. now apply IH.
Qed.

Lemma rbc_scanLines_undated year lines todo : forall i,
  Forall (fun l => exec no_flags rbcDateRe (trim l) = None) todo ->
  Rbc.scanLines year lines todo i None = [].
Proof.
  induction todo as [|raw todo IH]; intros i H; simpl; [reflexivity|].
  inversion H as [|? ? Hraw Htodo]; subst.
  destruct (Rbc.isJunk (trim raw)); [now apply IH|].
  rewrite Hraw. now apply IH.
Qed.

(** X2: In each of the three parsers, a text none of whose (trimmed) lines
    opens with a date in the parser's date format yields no
    transaction, even when its lines match transaction patterns and
    carry amounts. *)
Theorem undated_text_no_transactions :
  (forall text year bk,
      Forall (fun l => BalanceBased.lineDate bk year (trim l) = None)
             (JS.split LF text) ->
      BalanceBased.parseTransactions text year bk = []) /\
  (forall text year,
      Forall (fun l => exec no_flags cibcDateRe (trim l) = None)
             (JS.split LF text) ->
      Cibc.parseTransactions text year = []) /\
  (forall text year,
      Forall (fun l => exec no_flags rbcDateRe (trim l) = None)
             (JS.split LF text) ->
      Rbc.parseTransactions text year = []).
Proof.
  split; [|split].
  - intros text year bk H. now apply balanceBased_scanLines_undated.
  - intros text year H. now apply cibc_scanLines_undated.
  - intros text year H. now apply rbc_scanLines_undated.
Qed.

Lemma undated_text_no_transactions_witness :
  BalanceBased.parseTransactions
    (Examples.ofLines ["Opening balance $1,000.00"; "3 Nov DEPOSIT 900.00"])
    "2025" cibc = [] /\
  Cibc.parseTransactions
    (Examples.ofLines ["3 Nov VISA DEBIT PURCHASE"; "UBER 10.00"]) "2025" = [] /\
  Rbc.parseTransactions
    (Examples.ofLines ["Oct 27 Monthly fee"; "4.00"]) "2025" = [].
Proof.
  destruct undated_text_no_transactions as [Hb [Hc Hr]].
  split; [|split].
  - apply Hb. lines_of_text. repeat constructor.
  - apply Hc. lines_of_text. repeat constructor.
  - apply Hr. lines_of_text. repeat constructor.
Defined.

Lemma lineDate_unsupported bk year line :
  bk <> rbc -> bk <> cibc -> BalanceBased.lineDate bk year line = None.
Proof. destruct bk; intros H1 H2; try congruence; reflexivity. Qed.

(** X3: The v3 entry point hands every detected tag to the balance-based
    parser, which knows the period and date formats of RBC and CIBC
    only: a statement detected as TD, Scotiabank or BMO comes back
    without an error, without a period and without any transaction. *)
Theorem v3_other_issuers_parse_to_nothing text bk :
  DetectBank.detectBank text = inl bk -> bk <> rbc -> bk <> cibc ->
  exists r,
    EntryPoints.parseTransactionsV3 text = inl r /\
    statement_period r = None /\
    transactions r = [].
Proof.
  intros Hd H1 H2. unfold EntryPoints.parseTransactionsV3. rewrite Hd.
  eexists. split; [reflexivity|]. unfold BalanceBasedParse.parse.
  cbn [statement_period transactions]. split.
  - destruct bk; try congruence; reflexivity.
  - apply balanceBased_scanLines_undated.
    apply List.Forall_forall. intros l _. now apply lineDate_unsupported.
Qed.

Lemma v3_other_issuers_parse_to_nothing_witness :
  exists r,
    EntryPoints.parseTransactionsV3
      (Examples.ofLines ["TD Canada Trust"; "Opening balance $1,000.00";
                         "Nov 3 DEPOSIT 900.00"]) = inl r /\
    statement_period r = None /\
    transactions r = [].
Proof.
  apply (v3_other_issuers_parse_to_nothing _ td).
  - vm_compute. reflexivity.
  - discriminate.
  - discriminate.
Defined.

End EmptyLedgerFacts.

(** ** The shape of the emitted transactions *)

Section ShapeFacts.
Import JS Regex Ledger Props Statement.

Lemma balanceBased_scanLines_length bk year lines todo :
  forall i currentDate previous,
  (List.length (BalanceBased.scanLines bk year lines todo i currentDate previous)
   <= List.length todo)%nat.
Proof.
  induction todo as [|raw todo IH]; intros i currentDate previous; simpl; [lia|].
  destruct (BalanceBased.isJunk (trim raw));
    [specialize (IH (S i) currentDate previous); lia|].
  destruct (match BalanceBased.lineDate bk year (trim raw) with
            | Some d => Some d
            | None => currentDate
            end) as [d|].
  - destruct (BalanceBased.parseTransactionLine (trim raw) d lines i previous bk)
      as [t|]; simpl.
    + specialize (IH (S i) (Some d) (balance t)). lia.
    + specialize (IH (S i) (Some d) previous). lia.
  - specialize (IH (S i) None previous). lia.
Qed.

Lemma cibc_scanLines_length year lines todo : forall i currentDate,
  (List.length (Cibc.scanLines year lines todo i currentDate)
   <= List.length todo)%nat.
Proof.
  induction todo as [|raw todo IH]; intros i currentDate; simpl; [lia|].
  destruct (Cibc.isJunk (trim raw)); [specialize (IH (S i) currentDate); lia|].
  destruct (exec no_flags cibcDateRe (trim raw)) as [m|].
  - rewrite length_app.
    match goal with
    | |- (_ + List.length (Cibc.scanLines _ _ _ _ ?d) <= _)%nat =>
        specialize (IH (S i) d)
    end.
    destruct (Cibc.parseTransactionLine _ _ _ _); simpl; lia.
  - destruct currentDate as [d|].
    + rewrite length_app. specialize (IH (S i) (Some d)).
      destruct (Cibc.parseTransactionLine _ _ _ _); simpl; lia.
    + specialize (IH (S i) None). lia.
Qed.

Lemma rbc_scanLines_length year lines todo : forall i currentDate,
  (List.length (Rbc.scanLines year lines todo i currentDate)
   <= List.length todo)%nat.
Proof.
  induction todo as [|raw todo IH]; intros i currentDate; simpl; [lia|].
  destruct (Rbc.isJunk (trim raw)); [specialize (IH (S i) currentDate); lia|].
  destruct (exec no_flags rbcDateRe (trim raw)) as [m|].
  - rewrite length_app.
    match goal with
    | |- (_ + List.length (Rbc.scanLines _ _ _ _ ?d) <= _)%nat =>
        specialize (IH (S i) d)
    end.
    destruct (Rbc.parseTransactionLine _ _ _ _); simpl; lia.
  - destruct currentDate as [d|].
    + rewrite length_app. specialize (IH (S i) (Some d)).
      destruct (Rbc.parseTransactionLine _ _ _ _); simpl; lia.
    + specialize (IH (S i) None). lia.
Qed.

(** X4: No parser emits more transactions than the text has lines: a line
    yields at most one transaction, whatever the three-line window of
    its neighbours holds. *)
Theorem at_most_one_transaction_per_line :
  (forall text year bk,
      (List.length (BalanceBased.parseTransactions text year bk)
       <= List.length (JS.split LF text))%nat) /\
  (forall text year,
      (List.length (Cibc.parseTransactions text year)
       <= List.length (JS.split LF text))%nat) /\
  (forall text year,
      (List.length (Rbc.parseTransactions text year)
       <= List.length (JS.split LF text))%nat).
Proof.
  split; [|split]; intros.
  - apply balanceBased_scanLines_length.
  - apply cibc_scanLines_length.
  - apply rbc_scanLines_length.
Qed.

(** *** Balances *)

Lemma rightmostComma_nonneg backwards b :
  BalanceBased.rightmostComma backwards = Some b -> (0 <= b)%Z.
Proof.
  induction backwards as [|n backwards IH]; simpl; [discriminate|].
  destruct (includes n ","); [|exact IH].
  intros H. injection H as <-. apply parseNumber_nonneg.
Qed.

Lemma selectBalance_nonneg first others :
  (0 <= BalanceBased.selectBalance first others)%Z.
Proof.
  unfold BalanceBased.selectBalance.
  destruct (BalanceBased.rightmostComma (List.rev (first :: others))) as [b|] eqn:E.
  - eapply rightmostComma_nonneg, E.
  - destruct (mathMax_spec (map parseNumber others) (parseNumber first))
      as [_ Hall].
    inversion Hall as [|? ? Hfirst _]; subst.
    pose proof (parseNumber_nonneg first). lia.
Qed.

(** X5: Every transaction of the balance-based parser carries a balance,
    and that balance is never negative: the token pattern has no sign,
    so an overdrawn balance is read as its absolute value.  The two
    line-scan parsers never set the balance. *)
Theorem balances_present_and_nonnegative :
  (forall text year bk,
      Forall (fun t => exists b, balance t = Some b /\ (0 <= b)%Z)
             (BalanceBased.parseTransactions text year bk)) /\
  (forall text year,
      Forall (fun t => balance t = None) (Cibc.parseTransactions text year)) /\
  (forall text year,
      Forall (fun t => balance t = None) (Rbc.parseTransactions text year)).
Proof.
  split; [|split].
  - intros text year bk. apply balanceBased_scanLines_each.
    intros line date i previous t H.
    apply parseTransactionLine_inv in H as [p [first [others [_ [_ [_ ->]]]]]].
    eexists. split; [reflexivity|]. apply selectBalance_nonneg.
  - intros text year. apply cibc_scanLines_each.
    intros line date i t H.
    apply cibc_parseTransactionLine_inv in H as [p [m [_ [_ [_ ->]]]]].
    reflexivity.
  - intros text year. apply rbc_scanLines_each.
    intros line date i t H.
    apply rbc_parseTransactionLine_inv in H as [p [_ [_ [_ ->]]]].
    reflexivity.
Qed.

(** *** Merchants *)

Lemma firstAlias_in aliases merchant name :
  firstAlias aliases merchant = Some name -> In name (map snd aliases).
Proof.
  induction aliases as [|[k v] aliases IH]; simpl; [discriminate|].
  destruct (includes merchant k).
  - intros H. injection H as <-. now left.
  - intros H. right. now apply IH.
Qed.

Lemma orUnknownMerchant_nonempty merchant :
  orUnknownMerchant merchant <> EmptyString.
Proof. destruct merchant; discriminate. Qed.

Lemma alias_or_unknown_nonempty aliases merchant fallback :
  Forall (fun name => name <> EmptyString) (map snd aliases) ->
  match firstAlias aliases merchant with
  | Some name => name
  | None => orUnknownMerchant fallback
  end <> EmptyString.
Proof.
  intros Hall. destruct (firstAlias aliases merchant) as [name|] eqn:E.
  - apply firstAlias_in in E. rewrite List.Forall_forall in Hall. now apply Hall.
  - apply orUnknownMerchant_nonempty.
Qed.

Lemma balanceBased_cleanMerchantName_nonempty merchant :
  BalanceBased.cleanMerchantName merchant <> EmptyString.
Proof.
  unfold BalanceBased.cleanMerchantName. apply alias_or_unknown_nonempty.
  repeat constructor; discriminate.
Qed.

Lemma cibc_cleanMerchantName_nonempty merchant :
  Cibc.cleanMerchantName merchant <> EmptyString.
Proof.
  unfold Cibc.cleanMerchantName. apply alias_or_unknown_nonempty.
  repeat constructor; discriminate.
Qed.

Lemma rbc_cleanMerchantName_nonempty merchant :
  Rbc.cleanMerchantName merchant <> EmptyString.
Proof.
  unfold Rbc.cleanMerchantName. apply alias_or_unknown_nonempty.
  repeat constructor; discriminate.
Qed.

(** X7: No parser ever emits a transaction with an empty merchant name:
    [cleanMerchantName] ends in an alias or in
    [merchant || 'Unknown Merchant']. *)
Theorem merchant_never_empty :
  (forall text year bk,
      Forall (fun t => merchant t <> EmptyString)
             (BalanceBased.parseTransactions text year bk)) /\
  (forall text year,
      Forall (fun t => merchant t <> EmptyString)
             (Cibc.parseTransactions text year)) /\
  (forall text year,
      Forall (fun t => merchant t <> EmptyString)
             (Rbc.parseTransactions text year)).
Proof.
  split; [|split].
  - intros text year bk. apply balanceBased_scanLines_each.
    intros line date i previous t H.
    apply parseTransactionLine_inv in H as [p [first [others [_ [_ [_ ->]]]]]].
    apply balanceBased_cleanMerchantName_nonempty.
  - intros text year. apply cibc_scanLines_each.
    intros line date i t H.
    apply cibc_parseTransactionLine_inv in H as [p [m [_ [_ [_ ->]]]]].
    apply cibc_cleanMerchantName_nonempty.
  - intros text year. apply rbc_scanLines_each.
    intros line date i t H.
    apply rbc_parseTransactionLine_inv in H as [p [_ [_ [_ ->]]]].
    apply rbc_cleanMerchantName_nonempty.
Qed.

(** *** Descriptions *)

Lemma take_length_le n : forall s, (String.length (take n s) <= n)%nat.
Proof.
  induction n as [|n IH]; intros s; [simpl; lia|].
  destruct s as [|c s]; simpl; [lia|]. specialize (IH s). lia.
Qed.

Lemma trimStart_length_le s : (String.length (trimStart s) <= String.length s)%nat.
Proof.
  induction s as [|c s IH]; simpl; [lia|].
  destruct (is_space c); simpl; lia.
Qed.

Lemma rev_onto_string_length s : forall acc,
  String.length (rev_onto s acc) = (String.length s + String.length acc)%nat.
Proof.
  induction s as [|c s IH]; intros acc; simpl; [reflexivity|].
  rewrite IH. simpl. lia.
Qed.

Lemma rev_string_length s : String.length (JS.rev s) = String.length s.
Proof. unfold JS.rev. rewrite rev_onto_string_length. simpl. lia. Qed.

Lemma trim_length_le s : (String.length (trim s) <= String.length s)%nat.
Proof.
  unfold trim, trimEnd. rewrite rev_string_length.
  pose proof (trimStart_length_le (JS.rev (trimStart s))) as H1.
  rewrite rev_string_length in H1. pose proof (trimStart_length_le s). lia.
Qed.

(** X8: The description of a balance-based transaction is at most 50 units
    long; the description of a line-scan transaction is one of the
    labels of the parser's pattern table. *)
Theorem descriptions_bounded :
  (forall text year bk,
      Forall (fun t => (String.length (description t) <= 50)%nat)
             (BalanceBased.parseTransactions text year bk)) /\
  (forall text year,
      Forall (fun t => In (description t) (map Cibc.ptype Cibc.patterns))
             (Cibc.parseTransactions text year)) /\
  (forall text year,
      Forall (fun t => In (description t) (map Rbc.ptype Rbc.patterns))
             (Rbc.parseTransactions text year)).
Proof.
  split; [|split].
  - intros text year bk. apply balanceBased_scanLines_each.
    intros line date i previous t H.
    apply parseTransactionLine_inv in H as [p [first [others [_ [_ [_ ->]]]]]].
    cbn [BalanceBased.makeTransaction description].
    change (substring 0 50 line) with (take 50 line).
    pose proof (trim_length_le (take 50 line)) as H1.
    pose proof (take_length_le 50 line) as H2. lia.
  - intros text year. apply cibc_scanLines_each.
    intros line date i t H.
    apply cibc_parseTransactionLine_inv in H as [p [m [Hin [_ [_ ->]]]]].
    cbn [description]. now apply in_map.
  - intros text year. apply rbc_scanLines_each.
    intros line date i t H.
    apply rbc_parseTransactionLine_inv in H as [p [Hin [_ [_ ->]]]].
    cbn [description]. now apply in_map.
Qed.

(** *** Signs *)

(** X9: The parsers do not share a sign convention.  In the line-scan
    parsers an amount carries the sign of its type: a CIBC credit is
    never negative and a CIBC debit never positive; an RBC credit is
    positive and an RBC debit negative, a zero amount being no
    transaction.  In the balance-based parser it is the other way
    round: a debit is never negative and a credit is negative. *)
Theorem sign_conventions_of_the_parsers :
  (forall text year,
      Forall (signAgrees false) (Cibc.parseTransactions text year)) /\
  (forall text year,
      Forall (signAgrees true) (Rbc.parseTransactions text year)) /\
  (forall text year bk,
      Forall signOpposes (BalanceBased.parseTransactions text year bk)).
Proof.
  split; [|split].
  - intros text year. apply cibc_scanLines_each.
    intros line date i t H.
    apply cibc_parseTransactionLine_inv in H as [p [m [_ [_ [_ ->]]]]].
    unfold signAgrees. cbn [type amount].
    pose proof (parseNumber_nonneg (group_text 1 m)).
    destruct (Cibc.isCredit p); lia.
  - intros text year. apply rbc_scanLines_each.
    intros line date i t H.
    apply rbc_parseTransactionLine_inv in H as [p [_ [_ [Hpos ->]]]].
    unfold signAgrees. cbn [type amount].
    destruct (Rbc.isCredit p); lia.
  - intros text year bk. apply balanceBased_scanLines_each.
    intros line date i previous t H.
    apply parseTransactionLine_inv in H as [p [first [others [_ [_ [_ ->]]]]]].
    unfold signOpposes. cbn [BalanceBased.makeTransaction type amount].
    destruct (Z.ltb_spec (p - BalanceBased.selectBalance first others) 0); lia.
Qed.

End ShapeFacts.

(** ** The entry points *)

Section EntryPointFacts.
Import JS Regex Ledger Props Statement.

Variable cannotFindModule : string -> string.

(** X10: The entry points return a value only for a statement detected as
    RBC or CIBC, and then the value is the result of that issuer's own
    module on the text; when no issuer is detected, each throws the
    detection message behind its own prefix.  In particular [scrubPII]
    never returns a text that has not gone through a scrubber. *)
Theorem entry_points_dispatch_on_detected_issuer text :
  (forall out,
      EntryPoints.scrubPII cannotFindModule text = inl out ->
      (DetectBank.detectBank text = inl rbc /\ out = Scrubbers.RBC.scrub text) \/
      (DetectBank.detectBank text = inl cibc /\ out = Scrubbers.CIBC.scrub text)) /\
  (forall r,
      EntryPoints.parseTransactionsV2 cannotFindModule text = inl r ->
      (DetectBank.detectBank text = inl rbc /\ r = RbcParse.parse text) \/
      (DetectBank.detectBank text = inl cibc /\ r = CibcParse.parse text)) /\
  (forall message,
      DetectBank.detectBank text = inr message ->
      EntryPoints.scrubPII cannotFindModule text =
        inr ("Cannot scrub PII: " +:+ DetectBank.unableToDetect) /\
      EntryPoints.parseTransactionsV2 cannotFindModule text =
        inr ("Cannot parse transactions: " +:+ DetectBank.unableToDetect) /\
      EntryPoints.parseTransactionsV3 text =
        inr ("Cannot parse transactions: " +:+ DetectBank.unableToDetect)).
Proof.
  assert (Hmsg : forall message,
             DetectBank.detectBank text = inr message ->
             message = DetectBank.unableToDetect).
  { unfold DetectBank.detectBank. intros message.
    repeat match goal with
           | |- (if ?b then _ else _) = _ -> _ => destruct b; [discriminate|]
           end.
    intros H. now injection H as <-. }
  split; [|split].
  - unfold EntryPoints.scrubPII. intros out.
    destruct (DetectBank.detectBank text) as [[] | message]; simpl;
      intros H; try discriminate; injection H as <-; auto.
  - unfold EntryPoints.parseTransactionsV2. intros r.
    destruct (DetectBank.detectBank text) as [[] | message]; simpl;
      intros H; try discriminate; injection H as <-; auto.
  - intros message H. pose proof (Hmsg message H) as ->.
    unfold EntryPoints.scrubPII, EntryPoints.parseTransactionsV2,
      EntryPoints.parseTransactionsV3.
    rewrite H. repeat split.
Qed.

End EntryPointFacts.

Section EntryPointWitness.
Import JS Regex Ledger Props Statement.

Lemma entry_points_dispatch_on_detected_issuer_witness :
  EntryPoints.scrubPII (fun path => "Cannot find module " +:+ path) "statement" =
    inr ("Cannot scrub PII: " +:+ DetectBank.unableToDetect) /\
  EntryPoints.parseTransactionsV2 (fun path => "Cannot find module " +:+ path)
      "statement" =
    inr ("Cannot parse transactions: " +:+ DetectBank.unableToDetect) /\
  EntryPoints.parseTransactionsV3 "statement" =
    inr ("Cannot parse transactions: " +:+ DetectBank.unableToDetect).
Proof.
  destruct (entry_points_dispatch_on_detected_issuer
              (fun path => "Cannot find module " +:+ path) "statement")
    as [_ [_ H]].
  apply (H DetectBank.unableToDetect). vm_compute. reflexivity.
Defined.

End EntryPointWitness.

(** ** The first scrubber *)

Section LegacyScrubberFacts.
Import JS Regex Ledger Props.

(** X11: The first scrubber, written for one issuer, and the CIBC scrubber
    of the multi-issuer version are the same function: the eight rules
    were carried over unchanged and in the same order. *)
Theorem legacy_scrubber_is_cibc_scrubber text :
  LegacyScrubber.scrubPII text = Scrubbers.CIBC.scrub text.
Proof. reflexivity. Qed.

End LegacyScrubberFacts.

(** ** Blank lines after scrubbing *)

Section BlankLineFacts.
Import JS Regex Ledger Props Scrubbers.

Lemma run_star_lf_cons fl p c s n cs k :
  Regex.run fl (Star true (Chr LF)) (MState p (String c s) n cs) k =
  if chr_match fl LF c then
    match Regex.run fl (Star true (Chr LF)) (MState (Some c) s (S n) cs) k with
    | Some res => Some res
    | None => k (MState p (String c s) n cs)
    end
  else k (MState p (String c s) n cs).
Proof.
  cbn -[Nat.ltb]. unfold step1. cbn -[Nat.ltb].
  destruct (chr_match fl LF c); [|reflexivity].
  now rewrite (proj2 (Nat.ltb_lt n (S n)) (Nat.lt_succ_diag_r n)).
Qed.

(** A greedy run of line feeds takes all the line feeds there are. *)
Lemma run_star_lf s : forall p n cs,
  exists p',
    Regex.run no_flags (Star true (Chr LF)) (MState p s n cs) Some =
    Some (MState p' (drop (leadingLF s) s) (n + leadingLF s) cs).
Proof.
  induction s as [|c s IH]; intros p n cs.
  - exists p. simpl. now rewrite Nat.add_0_r.
  - rewrite run_star_lf_cons. unfold chr_match. cbn [icase no_flags leadingLF].
    rewrite Ascii.eqb_sym.
    destruct (Ascii.eqb_spec c LF) as [->|Hne].
    + destruct (IH (Some LF) (S n) cs) as [p' E]. exists p'.
      rewrite E. cbn [drop]. now rewrite Nat.add_succ_r.
    + exists p. cbn [drop]. now rewrite Nat.add_0_r.
Qed.

Lemma take_leadingLF s : take (leadingLF s) s = filler LF (leadingLF s).
Proof.
  induction s as [|c s IH]; [reflexivity|]. simpl.
  destruct (Ascii.eqb_spec c LF) as [->|Hne]; [|reflexivity].
  simpl. now rewrite IH.
Qed.

Lemma leadingLF_drop s : leadingLF (drop (leadingLF s) s) = 0%nat.
Proof.
  induction s as [|c s IH]; [reflexivity|]. simpl.
  destruct (Ascii.eqb c LF) eqn:E; [exact IH|]. simpl. now rewrite E.
Qed.

Lemma filler_length c n : String.length (filler c n) = n.
Proof. induction n; simpl; congruence. Qed.

Lemma drop_length_le n : forall s, (String.length (drop n s) <= String.length s)%nat.
Proof.
  induction n as [|n IH]; intros s; [simpl; lia|].
  destruct s as [|c s]; simpl; [lia|]. specialize (IH s). lia.
Qed.

(** [\n{3,}] matches at a position exactly when at least three line
    feeds start there, and then it covers all of them. *)
Lemma run_seq fl r1 r2 st k :
  Regex.run fl (Seq r1 r2) st k =
  Regex.run fl r1 st (fun st1 => Regex.run fl r2 st1 k).
Proof. reflexivity. Qed.

Lemma run_chr fl x p c s n cs k :
  Regex.run fl (Chr x) (MState p (String c s) n cs) k =
  if chr_match fl x c then k (MState (Some c) s (S n) cs) else None.
Proof. reflexivity. Qed.

Lemma run_chr_nil fl x p n cs k :
  Regex.run fl (Chr x) (MState p EmptyString n cs) k = None.
Proof. reflexivity. Qed.

Lemma chr_match_lf c : chr_match no_flags LF c = Ascii.eqb c LF.
Proof. unfold chr_match. cbn [icase no_flags]. apply Ascii.eqb_sym. Qed.

Lemma match_here_blank s p off :
  match_here no_flags (rep_min 3 (Chr LF)) p s off =
  if (3 <=? leadingLF s)%nat
  then Some (RMatch off (filler LF (leadingLF s)) [])
  else None.
Proof.
  unfold match_here.
  change (rep_min 3 (Chr LF))
    with (Seq (Seq (Chr LF) (Seq (Chr LF) (Chr LF))) (Star true (Chr LF))).
  rewrite !run_seq.
  destruct s as [|c1 s]; [reflexivity|].
  rewrite run_chr, chr_match_lf. cbn [leadingLF].
  destruct (Ascii.eqb_spec c1 LF) as [->|_]; [|reflexivity].
  cbv beta. rewrite ?run_seq.
  destruct s as [|c2 s]; [reflexivity|].
  rewrite run_chr, chr_match_lf. cbn [leadingLF].
  destruct (Ascii.eqb_spec c2 LF) as [->|_]; [|reflexivity].
  cbv beta.
  destruct s as [|c3 s]; [reflexivity|].
  rewrite run_chr, chr_match_lf. cbn [leadingLF].
  destruct (Ascii.eqb_spec c3 LF) as [->|_]; [|reflexivity].
  destruct (run_star_lf s (Some LF) 3 []) as [p' E].
  rewrite E. cbn [pos Regex.caps Nat.leb Nat.add take filler].
  now rewrite take_leadingLF.
Qed.

Lemma replace_go_skip fl r f xs : forall p tail off,
  replace_go fl r f p (xs +:+ tail) (String.length xs) off =
  replace_go fl r f (lastOr p xs) tail 0 (off + String.length xs).
Proof.
  induction xs as [|c xs IH]; intros p tail off.
  - rewrite append_nil. simpl. now rewrite Nat.add_0_r.
  - rewrite append_cons. simpl. rewrite IH. f_equal. lia.
Qed.

Lemma split_leadingLF s :
  s = filler LF (leadingLF s) +:+ drop (leadingLF s) s.
Proof.
  induction s as [|c s IH]; [reflexivity|]. simpl.
  destruct (Ascii.eqb_spec c LF) as [->|Hne]; [|reflexivity].
  simpl. rewrite append_cons. now f_equal.
Qed.

Lemma startsWith_blankRun s :
  startsWith blankRun s = (3 <=? leadingLF s)%nat.
Proof.
  unfold blankRun.
  destruct s as [|c1 s]; [reflexivity|]. cbn [startsWith leadingLF].
  rewrite Ascii.eqb_sym. destruct (Ascii.eqb c1 LF); [|reflexivity].
  destruct s as [|c2 s]; [reflexivity|]. cbn [startsWith leadingLF andb].
  rewrite Ascii.eqb_sym. destruct (Ascii.eqb c2 LF); [|reflexivity].
  destruct s as [|c3 s]; [reflexivity|]. cbn [startsWith leadingLF andb].
  rewrite Ascii.eqb_sym. destruct (Ascii.eqb c3 LF); reflexivity.
Qed.

Lemma no_blankRun_cons c s :
  includes s blankRun = false ->
  (leadingLF (String c s) < 3)%nat ->
  includes (String c s) blankRun = false.
Proof.
  intros Hs Hlead.
  change (includes (String c s) blankRun)
    with (startsWith blankRun (String c s) || includes s blankRun).
  rewrite Hs, startsWith_blankRun.
  destruct (Nat.leb_spec 3 (leadingLF (String c s))); [lia | reflexivity].
Qed.

(** The output of the blank-line rule starts with at most two line
    feeds and holds no run of three. *)
Lemma replace_blank n : forall s p off,
  (String.length s <= n)%nat ->
  let out := replace_go no_flags (rep_min 3 (Chr LF))
               (const (str1 LF +:+ str1 LF)) p s 0 off in
  leadingLF out = Nat.min (leadingLF s) 2 /\ includes out blankRun = false.
Proof.
  induction n as [|n IH]; intros s p off Hlen.
  - destruct s; [|simpl in Hlen; lia]. split; reflexivity.
  - destruct s as [|c s]; [split; reflexivity|].
    simpl in Hlen. cbv zeta. cbn [replace_go].
    rewrite match_here_blank.
    destruct (Nat.leb_spec 3 (leadingLF (String c s))) as [H3|H3].
    + cbn [m_text]. rewrite filler_length.
      destruct (leadingLF (String c s)) as [|m] eqn:Em; [lia|].
      assert (Hm : leadingLF s = m).
      { simpl in Em. destruct (Ascii.eqb c LF); [lia | discriminate]. }
      pose proof (split_leadingLF s) as Hs. rewrite Hm in Hs.
      pose proof (replace_go_skip no_flags (rep_min 3 (Chr LF))
                    (const (str1 LF +:+ str1 LF)) (filler LF m) (Some c)
                    (drop m s) (S off)) as Hskip.
      rewrite <- Hs, filler_length in Hskip. rewrite Hskip.
      specialize (IH (drop m s) (lastOr (Some c) (filler LF m))
                     (S off + m)%nat).
      pose proof (drop_length_le m s) as Hd.
      destruct IH as [IH1 IH2]; [lia|].
      assert (Hz : leadingLF (drop m s) = 0%nat)
        by (rewrite <- Hm; apply leadingLF_drop).
      rewrite Hz in IH1. cbn [Nat.min] in IH1.
      set (out' := replace_go _ _ _ _ (drop m s) 0 _) in *.
      change (const (str1 LF +:+ str1 LF) (RMatch off (filler LF (S m)) [])
              +:+ out')
        with (String LF (String LF out')).
      split.
      * cbn [leadingLF]. change (Ascii.eqb LF LF) with true. cbv iota.
        rewrite IH1. rewrite Nat.min_r by lia. reflexivity.
      * apply no_blankRun_cons; [apply no_blankRun_cons; [exact IH2|]|];
          cbn [leadingLF]; change (Ascii.eqb LF LF) with true; cbv iota;
          rewrite IH1; lia.
    + specialize (IH s (Some c) (S off)). destruct IH as [IH1 IH2]; [lia|].
      assert (Hout : leadingLF (String c (replace_go no_flags (rep_min 3 (Chr LF))
                                           (const (str1 LF +:+ str1 LF))
                                           (Some c) s 0 (S off)))
                     = leadingLF (String c s)).
      { cbn [leadingLF] in *. destruct (Ascii.eqb c LF); [|reflexivity].
        rewrite IH1. rewrite Nat.min_l by lia. reflexivity. }
      split.
      * rewrite Hout. rewrite Nat.min_l by lia. reflexivity.
      * apply no_blankRun_cons; [exact IH2|]. rewrite Hout. exact H3.
Qed.

Lemma apply_blankLines_no_blankRun text :
  includes (apply blankLines text) blankRun = false.
Proof.
  unfold apply, blankLines. cbn [rflags pattern replacement]. unfold replaceAll.
  apply (replace_blank (String.length text) text None 0 (Nat.le_refl _)).
Qed.

(** X12: Whatever the statement, the scrubbed text of either issuer holds no
    three line feeds in a row: the blank-line rule comes last and
    leaves at most two wherever it finds more. *)
Theorem scrubbed_text_has_no_blank_run i text :
  includes (Scrubbers.scrub i text) blankRun = false.
Proof.
  destruct i; cbn [Scrubbers.scrub]; unfold RBC.scrub, CIBC.scrub.
  - change RBC.rules with (firstn 13 RBC.rules ++ [blankLines]).
    rewrite run_app. apply apply_blankLines_no_blankRun.
  - change CIBC.rules with (firstn 7 CIBC.rules ++ [blankLines]).
    rewrite run_app. apply apply_blankLines_no_blankRun.
Qed.

End BlankLineFacts.

(** ** The single number on the line after an RBC entry *)

Section SingleNumberFacts.
Import JS Regex Ledger Props.

Lemma run_group fl i r st k :
  Regex.run fl (Group i r) st k =
  Regex.run fl r st (fun st1 => k (set_cap i st st1)).
Proof. reflexivity. Qed.

Lemma run_alt fl r1 r2 st k :
  Regex.run fl (Alt r1 r2) st k =
  match Regex.run fl r1 st k with
  | Some res => Some res
  | None => Regex.run fl r2 st k
  end.
Proof. reflexivity. Qed.

Lemma run_eps fl st k : Regex.run fl Eps st k = k st.
Proof. reflexivity. Qed.

Lemma run_dot_at_digit fl c s p n cs k :
  is_digit c = true ->
  Regex.run fl (Chr ".") (MState p (String c s) n cs) k = None.
Proof.
  intros H. rewrite run_chr.
  replace (chr_match fl "." c) with false; [reflexivity|].
  apply digit_cases in H. simpl in H. destruct fl as [[] ?];
    repeat (destruct H as [<-|H]; [reflexivity|]); destruct H.
Qed.

Ltac glued_step :=
  cbv beta;
  repeat (rewrite run_seq || rewrite run_group || rewrite run_alt
          || rewrite run_eps);
  cbv beta.

(** The tail pattern [(\d{1,3})\.(\d{2})$] does not fit where four
    digits stand in a row. *)
Lemma glued_tail_fails c1 c2 c3 c4 tail p off :
  is_digit c1 = true -> is_digit c2 = true -> is_digit c3 = true ->
  is_digit c4 = true ->
  match_here no_flags Rbc.gluedTailRe p
    (String c1 (String c2 (String c3 (String c4 tail)))) off = None.
Proof.
  intros H1 H2 H3 H4. unfold match_here.
  change Rbc.gluedTailRe
    with (Seq (Group 1 (Seq digit (Alt (Seq digit (Alt (Seq digit Eps) Eps)) Eps)))
            (Seq (Chr ".") (Seq (Group 2 (Seq digit digit)) Eol))).
  glued_step. rewrite (run_digit _ _ _ _ _ _ _ H1).
  glued_step. rewrite (run_digit _ _ _ _ _ _ _ H2).
  glued_step. rewrite (run_digit _ _ _ _ _ _ _ H3).
  glued_step. unfold set_cap. cbn [Regex.prev Regex.rest Regex.pos Regex.caps].
  rewrite !run_dot_at_digit by assumption. reflexivity.
Qed.

(** It fits where three digits, a point and two digits end the text. *)
Lemma glued_tail_fits c1 c2 c3 d1 d2 p off :
  is_digit c1 = true -> is_digit c2 = true -> is_digit c3 = true ->
  is_digit d1 = true -> is_digit d2 = true ->
  match_here no_flags Rbc.gluedTailRe p
    (String c1 (String c2 (String c3
       (String "." (String d1 (String d2 EmptyString)))))) off =
  Some (RMatch off
          (String c1 (String c2 (String c3
             (String "." (String d1 (String d2 EmptyString))))))
          [(2%nat, String d1 (String d2 EmptyString));
           (1%nat, String c1 (String c2 (String c3 EmptyString)))]).
Proof.
  intros H1 H2 H3 H4 H5. unfold match_here.
  change Rbc.gluedTailRe
    with (Seq (Group 1 (Seq digit (Alt (Seq digit (Alt (Seq digit Eps) Eps)) Eps)))
            (Seq (Chr ".") (Seq (Group 2 (Seq digit digit)) Eol))).
  glued_step. rewrite (run_digit _ _ _ _ _ _ _ H1).
  glued_step. rewrite (run_digit _ _ _ _ _ _ _ H2).
  glued_step. rewrite (run_digit _ _ _ _ _ _ _ H3).
  glued_step. unfold set_cap at 1. cbn [Regex.prev Regex.rest Regex.pos Regex.caps].
  rewrite run_chr. change (chr_match no_flags "." ".") with true. cbv iota.
  glued_step. rewrite (run_digit _ _ _ _ _ _ _ H4).
  rewrite (run_digit _ _ _ _ _ _ _ H5).
  reflexivity.
Qed.

Lemma split_go_dot ds : forall cur rest,
  allChars is_digit ds = true ->
  JS.split_go "." (ds +:+ String "." rest) cur =
  JS.rev (rev_onto ds cur) :: JS.split_go "." rest EmptyString.
Proof.
  induction ds as [|x ds IH]; intros cur rest H.
  - reflexivity.
  - simpl in H. apply andb_prop in H as [Hx Hds].
    rewrite append_cons. cbn [JS.split_go]. rewrite (digit_not_dot _ Hx).
    now rewrite IH.
Qed.

Lemma remove_comma_token s :
  allChars tokenChar s = true -> remove_char "," s = s.
Proof.
  induction s as [|c s IH]; [reflexivity|]. simpl. intros H.
  apply andb_prop in H as [Hc Hs].
  replace (Ascii.eqb c ",") with false; [now rewrite IH|].
  apply tokenChar_cases in Hc. simpl in Hc.
  repeat (destruct Hc as [<-|Hc]; [reflexivity|]). destruct Hc.
Qed.

Lemma digits_tokenChars ds :
  allChars is_digit ds = true -> allChars tokenChar ds = true.
Proof.
  apply allChars_impl. intros c H. unfold tokenChar. now rewrite H.
Qed.

(** The value of a digit. *)
Lemma digit_value_bounds c :
  is_digit c = true -> (0 <= Z.of_nat (code c - 48) <= 9)%Z.
Proof.
  intros H. apply digit_cases in H. simpl in H.
  repeat (destruct H as [<-|H]; [vm_compute; split; discriminate|]). destruct H.
Qed.

(** The integer part of a plain token, as [oneNumberAmount] takes it. *)
Lemma plain_intPart c ds d1 d2 :
  is_digit c = true -> allChars is_digit ds = true ->
  remove_char ","
    (nth 0 (JS.split "." (plain c ds d1 d2)) EmptyString) = String c ds.
Proof.
  intros Hc Hds. unfold JS.split, plain.
  change (String c (ds +:+ String "." (String d1 (String d2 EmptyString))))
    with (String c ds +:+ String "." (String d1 (String d2 EmptyString))).
  rewrite split_go_dot by (simpl; now rewrite Hc, Hds).
  cbn [nth]. change (rev_onto (String c ds) EmptyString) with (JS.rev (String c ds)).
  rewrite rev_involutive. apply remove_comma_token, digits_tokenChars.
  simpl. now rewrite Hc, Hds.
Qed.

(** [parseFloat] on a plain token with a given integer part. *)
Lemma parseFloat_point ip d1 d2 s :
  is_digit d1 = true -> is_digit d2 = true ->
  read_digits s 0 = (ip, String "." (String d1 (String d2 EmptyString))) ->
  parseFloat s =
  (100 * ip + 10 * Z.of_nat (code d1 - 48) + Z.of_nat (code d2 - 48))%Z.
Proof.
  intros H1 H2 E. unfold parseFloat. rewrite E. cbv beta iota zeta.
  cbn [digit_at]. rewrite H1. cbn [digit_at]. now rewrite H2.
Qed.

(** X13: Of a single number without a comma whose integer part has three to
    five digits, the RBC parser keeps the last three digits of the
    integer part and the decimals, that is, the value modulo 1000.00;
    any other plain number is taken whole.  (The comment in the source
    says the last one to three digits are meant to be kept as the
    amount and the digits before them dropped as a store code.) *)
Theorem rbc_single_number_modulo_thousand c ds d1 d2 :
  is_digit c = true -> allChars is_digit ds = true ->
  is_digit d1 = true -> is_digit d2 = true ->
  Rbc.oneNumberAmount (plain c ds d1 d2) =
  if (3 <=? String.length (String c ds))%nat
     && (String.length (String c ds) <=? 5)%nat
  then (parseFloat (plain c ds d1 d2) mod 100000)%Z
  else parseFloat (plain c ds d1 d2).
Proof.
  intros Hc Hds H1 H2. unfold Rbc.oneNumberAmount.
  rewrite (plain_intPart c ds d1 d2 Hc Hds).
  pose proof (plain_tokenChars c ds d1 d2 Hc Hds H1 H2) as Htok.
  rewrite (token_no_comma _ Htok). cbn [negb]. rewrite andb_true_r.
  destruct ((3 <=? String.length (String c ds))%nat
            && (String.length (String c ds) <=? 5)%nat) eqn:En.
  - apply andb_prop in En as [E3 E5].
    apply Nat.leb_le in E3. apply Nat.leb_le in E5. cbn [String.length] in E3, E5.
    pose proof (digit_value_bounds _ Hc) as Bc.
    pose proof (digit_value_bounds _ H1) as B1.
    pose proof (digit_value_bounds _ H2) as B2.
    destruct ds as [|c2 ds]; [simpl in E3; lia|].
    destruct ds as [|c3 ds]; [simpl in E3; lia|].
    simpl in Hds.
    apply andb_prop in Hds as [Hc2 Hds]. apply andb_prop in Hds as [Hc3 Hds].
    pose proof (digit_value_bounds _ Hc2) as Bc2.
    pose proof (digit_value_bounds _ Hc3) as Bc3.
    destruct ds as [|c4 ds].
    + (* three digits *)
      unfold exec, plain. rewrite !append_cons, append_nil. cbn [search_from].
      rewrite (glued_tail_fits c c2 c3 d1 d2 None 0 Hc Hc2 Hc3 H1 H2).
      cbn [group_text group assoc m_caps Nat.eqb]. rewrite !append_cons, append_nil.
      rewrite Z.mod_small; [reflexivity|].
      rewrite (parseFloat_point
                 (10 * (10 * (10 * 0 + Z.of_nat (code c - 48))
                        + Z.of_nat (code c2 - 48)) + Z.of_nat (code c3 - 48))
                 d1 d2) by (try assumption; cbn [read_digits];
                            now rewrite Hc, Hc2, Hc3).
      lia.
    + apply andb_prop in Hds as [Hc4 Hds].
      pose proof (digit_value_bounds _ Hc4) as Bc4.
      destruct ds as [|c5 ds].
      * (* four digits *)
        unfold exec, plain. rewrite !append_cons, append_nil. cbn [search_from].
        rewrite (glued_tail_fails c c2 c3 c4 _ None 0 Hc Hc2 Hc3 Hc4).
        rewrite (glued_tail_fits c2 c3 c4 d1 d2 (Some c) 1 Hc2 Hc3 Hc4 H1 H2).
        cbn [group_text group assoc m_caps Nat.eqb].
        rewrite !append_cons, append_nil.
        rewrite (parseFloat_point
                   (10 * (10 * (10 * 0 + Z.of_nat (code c2 - 48))
                          + Z.of_nat (code c3 - 48)) + Z.of_nat (code c4 - 48))
                   d1 d2) by (try assumption; cbn [read_digits];
                              now rewrite Hc2, Hc3, Hc4).
        rewrite (parseFloat_point
                   (10 * (10 * (10 * (10 * 0 + Z.of_nat (code c - 48))
                                + Z.of_nat (code c2 - 48))
                          + Z.of_nat (code c3 - 48)) + Z.of_nat (code c4 - 48))
                   d1 d2
                   (String c (String c2 (String c3 (String c4
                      (String "." (String d1 (String d2 EmptyString))))))))
          by (try assumption; cbn [read_digits]; now rewrite Hc, Hc2, Hc3, Hc4).
        apply (Z.mod_unique _ _ (Z.of_nat (code c - 48))); lia.
      * apply andb_prop in Hds as [Hc5 Hds].
        pose proof (digit_value_bounds _ Hc5) as Bc5.
        destruct ds as [|c6 ds]; [|simpl in E5; lia].
        unfold exec, plain. rewrite !append_cons, append_nil. cbn [search_from].
        rewrite (glued_tail_fails c c2 c3 c4 _ None 0 Hc Hc2 Hc3 Hc4).
        rewrite (glued_tail_fails c2 c3 c4 c5 _ (Some c) 1 Hc2 Hc3 Hc4 Hc5).
        rewrite (glued_tail_fits c3 c4 c5 d1 d2 (Some c2) 2 Hc3 Hc4 Hc5 H1 H2).
        cbn [group_text group assoc m_caps Nat.eqb].
        rewrite !append_cons, append_nil.
        rewrite (parseFloat_point
                   (10 * (10 * (10 * 0 + Z.of_nat (code c3 - 48))
                          + Z.of_nat (code c4 - 48)) + Z.of_nat (code c5 - 48))
                   d1 d2) by (try assumption; cbn [read_digits];
                              now rewrite Hc3, Hc4, Hc5).
        rewrite (parseFloat_point
                   (10 * (10 * (10 * (10 * (10 * 0 + Z.of_nat (code c - 48))
                                      + Z.of_nat (code c2 - 48))
                                + Z.of_nat (code c3 - 48))
                          + Z.of_nat (code c4 - 48)) + Z.of_nat (code c5 - 48))
                   d1 d2
                   (String c (String c2 (String c3 (String c4 (String c5
                      (String "." (String d1 (String d2 EmptyString)))))))))
          by (try assumption; cbn [read_digits];
              now rewrite Hc, Hc2, Hc3, Hc4, Hc5).
        apply (Z.mod_unique _ _ (10 * Z.of_nat (code c - 48)
                                 + Z.of_nat (code c2 - 48))); lia.
  - unfold parseNumber. now rewrite (remove_comma_token _ Htok).
Qed.

Lemma rbc_single_number_modulo_thousand_witness :
  Rbc.oneNumberAmount (plain "8" "7110" "7" "1") =
  (parseFloat (plain "8" "7110" "7" "1") mod 100000)%Z.
Proof.
  apply (rbc_single_number_modulo_thousand "8" "7110" "7" "1"); reflexivity.
Defined.

End SingleNumberFacts.

(** ** The dates of the emitted transactions *)

Section MatchInversion.
Import JS Regex Ledger Props.

(** What a successful match went through. *)
Lemma run_star_class_inv fl neg items s : forall p n cs k res,
  Regex.run fl (Star true (Cls neg items)) (MState p s n cs) k = Some res ->
  exists ds tail,
    s = ds +:+ tail /\
    allChars (class_match fl neg items) ds = true /\
    k (MState (lastOr p ds) tail (n + String.length ds) cs) = Some res.
Proof.
  induction s as [|c s IH]; intros p n cs k res H.
  - exists EmptyString, EmptyString. simpl in *. rewrite Nat.add_0_r. auto.
  - rewrite run_star_cons in H.
    destruct (class_match fl neg items c) eqn:Hc.
    + destruct (Regex.run fl (Star true (Cls neg items))
                  (MState (Some c) s (S n) cs) k) as [res'|] eqn:E.
      * injection H as <-. destruct (IH _ _ _ _ _ E) as [ds [tail [-> [Hds Hk]]]].
        exists (String c ds), tail. rewrite append_cons. simpl. rewrite Hc, Hds.
        rewrite Nat.add_succ_r. auto.
      * exists EmptyString, (String c s). simpl. rewrite Nat.add_0_r. auto.
    + exists EmptyString, (String c s). simpl. rewrite Nat.add_0_r. auto.
Qed.

Lemma run_plus_class_inv fl neg items s p n cs k res :
  Regex.run fl (plus (Cls neg items)) (MState p s n cs) k = Some res ->
  exists c ds tail,
    s = String c (ds +:+ tail) /\
    class_match fl neg items c = true /\
    allChars (class_match fl neg items) ds = true /\
    k (MState (lastOr (Some c) ds) tail (S n + String.length ds) cs) = Some res.
Proof.
  unfold plus. rewrite run_seq. cbn [Regex.run]. unfold step1. cbn [rest].
  destruct s as [|c s]; [discriminate|].
  destruct (class_match fl neg items c) eqn:Hc; [|discriminate].
  unfold advance. cbn [pos Regex.caps]. intros H.
  apply run_star_class_inv in H as [ds [tail [-> [Hds Hk]]]].
  exists c, ds, tail. auto.
Qed.

Lemma run_lit_inv w : forall p s n cs k res,
  Regex.run no_flags (lit w) (MState p s n cs) k = Some res ->
  exists tail,
    s = w +:+ tail /\
    k (MState (lastOr p w) tail (n + String.length w) cs) = Some res.
Proof.
  induction w as [|c w IH]; intros p s n cs k res H.
  - exists s. simpl in *. rewrite Nat.add_0_r. auto.
  - assert (Hstep : exists s1,
               s = String c s1 /\
               Regex.run no_flags (lit w) (MState (Some c) s1 (S n) cs) k = Some res).
    { destruct w as [|c' w].
      - cbn [lit] in H. destruct s as [|x s1]; [discriminate|].
        rewrite run_chr in H. unfold chr_match in H. cbn [icase no_flags] in H.
        destruct (Ascii.eqb_spec c x) as [<-|]; [|discriminate].
        exists s1. auto.
      - change (lit (String c (String c' w)))
          with (Seq (Chr c) (lit (String c' w))) in H.
        rewrite run_seq in H. destruct s as [|x s1]; [discriminate|].
        rewrite run_chr in H. unfold chr_match in H. cbn [icase no_flags] in H.
        destruct (Ascii.eqb_spec c x) as [<-|]; [|discriminate].
        exists s1. auto. }
    destruct Hstep as [s1 [-> H1]].
    destruct (IH _ _ _ _ _ _ H1) as [tail [-> Hk]].
    exists tail. rewrite append_cons. simpl. rewrite Nat.add_succ_r. auto.
Qed.

Lemma run_alt_lits_inv w ws : forall st k res,
  Regex.run no_flags (alt (map lit (w :: ws))) st k = Some res ->
  exists w', In w' (w :: ws) /\ Regex.run no_flags (lit w') st k = Some res.
Proof.
  revert w. induction ws as [|w2 ws IH]; intros w st k res H.
  - exists w. split; [now left | exact H].
  - change (alt (map lit (w :: w2 :: ws)))
      with (Alt (lit w) (alt (map lit (w2 :: ws)))) in H.
    rewrite run_alt in H.
    destruct (Regex.run no_flags (lit w) st k) as [res'|] eqn:E.
    + exists w. split; [now left | now rewrite E].
    + destruct (IH _ _ _ _ H) as [w' [Hin Hw]].
      exists w'. split; [now right | exact Hw].
Qed.

(** A pattern that opens with [^] matches at the start or not at all. *)
Lemma exec_bol r line :
  exec no_flags (Seq Bol r) line = match_here no_flags (Seq Bol r) None line 0.
Proof.
  unfold exec. destruct line as [|c s]; cbn [search_from].
  - destruct (match_here no_flags (Seq Bol r) None EmptyString 0); reflexivity.
  - rewrite search_bol_later.
    destruct (match_here no_flags (Seq Bol r) None (String c s) 0); reflexivity.
Qed.

Lemma digit_class_inv fl c :
  class_match fl false [IDigit] c = true -> is_digit c = true.
Proof.
  unfold class_match, item_match. destruct (icase fl); simpl; [|now rewrite orb_false_r].
  destruct c as [[] [] [] [] [] [] [] []]; vm_compute; congruence.
Qed.

Lemma digits_class_inv fl ds :
  allChars (class_match fl false [IDigit]) ds = true -> allChars is_digit ds = true.
Proof. apply allChars_impl, digit_class_inv. Qed.

Lemma run_bol_start fl s n cs k :
  Regex.run fl Bol (MState None s n cs) k = k (MState None s n cs).
Proof. reflexivity. Qed.

Lemma run_digit_nil fl p n cs k :
  Regex.run fl digit (MState p EmptyString n cs) k = None.
Proof. reflexivity. Qed.

Lemma run_digit_other fl c s p n cs k :
  is_digit c = false ->
  Regex.run fl digit (MState p (String c s) n cs) k = None.
Proof.
  intros H. unfold digit. cbn [Regex.run]. unfold step1. cbn [rest].
  destruct (class_match fl false [IDigit] c) eqn:E; [|reflexivity].
  apply digit_class_inv in E. congruence.
Qed.

(** After the day, the RBC date pattern reads white space and a month
    abbreviation. *)
Lemma rbc_month_inv p s n day st :
  Regex.run no_flags (Seq (plus space) (Group 2 (monthsFrom monthsJanFirst)))
    (MState p s n [(1%nat, day)]) Some = Some st ->
  exists month, In month monthsJanFirst /\
                Regex.caps st = [(2%nat, month); (1%nat, day)].
Proof.
  intros H. rewrite run_seq in H.
  apply run_plus_class_inv in H as [c [ds [tail [_ [_ [_ H]]]]]].
  rewrite run_group in H. unfold monthsFrom, monthsJanFirst in H.
  apply run_alt_lits_inv in H as [month [Hin H]].
  apply run_lit_inv in H as [tail' [-> H]].
  injection H as <-. exists month. split; [exact Hin|].
  unfold set_cap. cbn [pos rest Regex.caps].
  match goal with
  | |- context [take ?j (month +:+ _)] =>
      replace j with (String.length month) by lia
  end.
  now rewrite take_append.
Qed.

(** The captures of the RBC date pattern: a day of one or two digits
    and a month abbreviation. *)
Lemma rbc_date_inv line m :
  exec no_flags rbcDateRe line = Some m ->
  exists day month,
    In month monthsJanFirst /\
    allChars is_digit day = true /\
    (1 <= String.length day <= 2)%nat /\
    group_text 1 m = day /\ group_text 2 m = month.
Proof.
  change rbcDateRe
    with (Seq Bol (Seq (Group 1 (Seq digit (Alt (Seq digit Eps) Eps)))
                     (Seq (plus space) (Group 2 (monthsFrom monthsJanFirst))))).
  rewrite exec_bol. unfold match_here.
  destruct (Regex.run no_flags _ _ Some) as [st|] eqn:E; [|discriminate].
  intros H. injection H as <-.
  unfold group_text, group. cbn [m_caps].
  assert (Hcaps : exists day month,
             In month monthsJanFirst /\ allChars is_digit day = true /\
             (1 <= String.length day <= 2)%nat /\
             Regex.caps st = [(2%nat, month); (1%nat, day)]).
  { rewrite run_seq, run_bol_start, run_seq in E.
    set (K := fun st1 => Regex.run no_flags
                           (Seq (plus space) (Group 2 (monthsFrom monthsJanFirst)))
                           st1 Some) in E.
    rewrite run_group, run_seq in E.
    destruct line as [|c1 s1]; [discriminate|].
    destruct (is_digit c1) eqn:H1; [|now rewrite run_digit_other in E].
    rewrite (run_digit _ _ _ _ _ _ _ H1) in E.
    rewrite run_alt, run_seq, run_eps in E.
    assert (Hone : K (set_cap 1 (MState None (String c1 s1) 0 [])
                        (MState (Some c1) s1 1 [])) = Some st ->
                   exists day month,
                     In month monthsJanFirst /\ allChars is_digit day = true /\
                     (1 <= String.length day <= 2)%nat /\
                     Regex.caps st = [(2%nat, month); (1%nat, day)]).
    { unfold K, set_cap. cbn [pos rest Regex.caps prev Nat.sub take].
      intros H. apply rbc_month_inv in H as [month [Hin Hc]].
      exists (String c1 EmptyString), month. simpl. rewrite H1.
      repeat split; auto. }
    destruct s1 as [|c2 s2]; [now apply Hone|].
    destruct (is_digit c2) eqn:H2; [|rewrite run_digit_other in E by exact H2;
                                     now apply Hone].
    rewrite (run_digit _ _ _ _ _ _ _ H2), run_eps in E.
    destruct (K (set_cap 1 (MState None (String c1 (String c2 s2)) 0 [])
                   (MState (Some c2) s2 2 []))) as [st'|] eqn:E2.
    - injection E as <-. unfold K, set_cap in E2.
      cbn [pos rest Regex.caps prev Nat.sub take] in E2.
      apply rbc_month_inv in E2 as [month [Hin Hc]].
      exists (String c1 (String c2 EmptyString)), month. simpl. rewrite H1, H2.
      repeat split; auto.
    - now apply Hone. }
  destruct Hcaps as [day [month [Hin [Hd [Hl Hc]]]]].
  exists day, month. rewrite Hc. cbn [assoc Nat.eqb]. auto.
Qed.

(** The captures of the CIBC date pattern: a month abbreviation and a
    day of one or more digits. *)
Lemma cibc_date_inv line m :
  exec no_flags cibcDateRe line = Some m ->
  exists month day,
    In month monthsNovFirst /\
    allChars is_digit day = true /\
    (1 <= String.length day)%nat /\
    group_text 1 m = month /\ group_text 2 m = day.
Proof.
  change cibcDateRe
    with (Seq Bol (Seq (Group 1 (monthsFrom monthsNovFirst))
                     (Seq (plus space) (Group 2 (plus digit))))).
  rewrite exec_bol. unfold match_here.
  destruct (Regex.run no_flags _ _ Some) as [st|] eqn:E; [|discriminate].
  intros H. injection H as <-.
  unfold group_text, group. cbn [m_caps].
  rewrite run_seq, run_bol_start, run_seq, run_group in E.
  unfold monthsFrom, monthsNovFirst in E.
  apply run_alt_lits_inv in E as [month [Hin E]].
  apply run_lit_inv in E as [tail [-> E]].
  rewrite run_seq in E.
  apply run_plus_class_inv in E as [c [ds [tail' [_ [_ [_ E]]]]]].
  rewrite run_group in E. unfold digit in E.
  apply run_plus_class_inv in E as [d [day [tail2 [-> [Hd [Hday E]]]]]].
  injection E as <-.
  exists month, (String d day).
  unfold set_cap. cbn [pos rest Regex.caps assoc Nat.eqb].
  repeat match goal with
         | |- context [take ?j (?w +:+ _)] =>
             replace j with (String.length w) by lia; rewrite take_append
         | |- context [take ?j (String d (day +:+ ?t))] =>
             replace j with (String.length (String d day)) by (simpl; lia);
             change (String d (day +:+ t)) with (String d day +:+ t);
             rewrite take_append
         end.
  repeat split; auto.
  - simpl. rewrite (digit_class_inv _ _ Hd). simpl. eapply digits_class_inv, Hday.
  - simpl. lia.
Qed.

End MatchInversion.

Section DateFacts.
Import JS Regex Ledger Props.

(** *** [convertToISO] on a month and a day *)

Lemma space_class c : class_match no_flags false [ISpace] c = is_space c.
Proof. unfold class_match, item_match. simpl. now rewrite orb_false_r. Qed.

Lemma match_here_space_none c s p off :
  is_space c = false ->
  match_here no_flags (plus space) p (String c s) off = None.
Proof.
  intros H. unfold match_here, plus, space. rewrite run_seq.
  cbn [Regex.run]. unfold step1. cbn [rest]. now rewrite space_class, H.
Qed.

Lemma match_here_space_one x tail p off :
  is_space x = true -> stops is_space tail = true ->
  match_here no_flags (plus space) p (String x tail) off =
  Some (RMatch off (String x EmptyString) []).
Proof.
  intros Hx Ht. unfold match_here, space.
  pose proof (run_plus_class no_flags false [ISpace] x EmptyString p tail 0 [] Some
                (MState (Some x) tail 1 [])) as R.
  rewrite append_nil in R. rewrite R.
  - cbn [pos Regex.caps take]. destruct tail; reflexivity.
  - now rewrite space_class.
  - reflexivity.
  - destruct tail as [|c tail]; [reflexivity|]. unfold stops in *.
    now rewrite space_class.
  - reflexivity.
Qed.

Lemma split_go_word a : forall cur p tail,
  allChars (fun c => negb (is_space c)) a = true ->
  Regex.split_go no_flags (plus space) p (a +:+ tail) 0 cur =
  Regex.split_go no_flags (plus space) (lastOr p a) tail 0 (rev_onto a cur).
Proof.
  induction a as [|c a IH]; intros cur p tail H; [reflexivity|].
  simpl in H. apply andb_prop in H as [Hc Ha]. apply negb_true_iff in Hc.
  rewrite append_cons. cbn [Regex.split_go].
  rewrite (match_here_space_none _ _ _ _ Hc). now rewrite IH.
Qed.

Lemma split_two_words a b :
  allChars (fun c => negb (is_space c)) a = true ->
  allChars (fun c => negb (is_space c)) b = true ->
  Regex.split no_flags (plus space) (a +:+ String " " b) = [a; b].
Proof.
  intros Ha Hb.
  assert (E : Regex.split no_flags (plus space) (a +:+ String " " b) =
              Regex.split_go no_flags (plus space) None (a +:+ String " " b) 0
                EmptyString).
  { destruct a; reflexivity. }
  rewrite E, split_go_word by exact Ha.
  cbn [Regex.split_go]. rewrite match_here_space_one; [|reflexivity|].
  - cbn [m_text String.length].
    rewrite rev_rev_onto.
    f_equal. rewrite <- (append_nil_r b) at 1. rewrite split_go_word by exact Hb.
    cbn [Regex.split_go]. now rewrite rev_rev_onto.
  - destruct b as [|c b]; [reflexivity|]. simpl in *.
    now apply andb_prop in Hb as [-> _].
Qed.

Lemma last_unit s : forall p,
  s <> EmptyString ->
  exists body d, s = body +:+ String d EmptyString /\ lastOr p s = Some d.
Proof.
  induction s as [|c s IH]; intros p H; [congruence|].
  destruct s as [|c' s].
  - exists EmptyString, c. auto.
  - destruct (IH (Some c)) as [body [d [E L]]]; [discriminate|].
    exists (String c body), d. rewrite append_cons, <- E. auto.
Qed.

Lemma allChars_append f a b :
  allChars f (a +:+ b) = allChars f a && allChars f b.
Proof.
  induction a as [|c a IH]; [reflexivity|]. rewrite append_cons. simpl.
  rewrite IH. now destruct (f c).
Qed.

Lemma trim_two_words a b :
  allChars (fun c => negb (is_space c)) a = true -> a <> EmptyString ->
  allChars (fun c => negb (is_space c)) b = true -> b <> EmptyString ->
  trim (a +:+ String " " b) = a +:+ String " " b.
Proof.
  intros Ha Hane Hb Hbne. unfold trim.
  assert (Hs : trimStart (a +:+ String " " b) = a +:+ String " " b).
  { destruct a as [|c a]; [congruence|]. rewrite append_cons. simpl in *.
    apply andb_prop in Ha as [Hc _]. apply negb_true_iff in Hc. now rewrite Hc. }
  rewrite Hs.
  destruct (last_unit b None Hbne) as [body [d [E _]]].
  assert (Hd : is_space d = false).
  { rewrite E, allChars_append in Hb. apply andb_prop in Hb as [_ Hd].
    simpl in Hd. rewrite andb_true_r in Hd. now apply negb_true_iff. }
  rewrite E.
  replace (a +:+ String " " (body +:+ String d EmptyString))
    with ((a +:+ String " " body) +:+ String d EmptyString)
    by (now rewrite append_assoc, append_cons).
  now apply trimEnd_last.
Qed.

(** On a month name and a day, [convertToISO] prints the year, the
    table entry of the month and the day padded to two digits. *)
Lemma convertToISO_words months month day year :
  allChars (fun c => negb (is_space c)) month = true -> month <> EmptyString ->
  allChars (fun c => negb (is_space c)) day = true -> day <> EmptyString ->
  convertToISO months (month +:+ " " +:+ day) year =
  year +:+ "-" +:+
  match lookupMonth months month with Some m => m | None => "undefined" end
  +:+ "-" +:+ padStart0 2 day.
Proof.
  intros Hm Hmne Hd Hdne. unfold convertToISO.
  change (" " +:+ day) with (String " " day).
  rewrite trim_two_words, split_two_words by assumption.
  reflexivity.
Qed.

Lemma digits_not_space ds :
  allChars is_digit ds = true ->
  allChars (fun c => negb (is_space c)) ds = true.
Proof.
  apply allChars_impl. intros c H. now rewrite (digit_not_space _ H).
Qed.

(** Every month abbreviation of a date pattern is a word of both month
    tables, with the same number in each. *)
Lemma month_known month :
  In month monthsJanFirst \/ In month monthsNovFirst ->
  allChars (fun c => negb (is_space c)) month = true /\
  month <> EmptyString /\
  exists mm, lookupMonth monthTable month = Some mm /\
             lookupMonth shortMonthTable month = Some mm /\
             In mm monthNumbers.
Proof.
  intros [H|H]; simpl in H;
    repeat (destruct H as [<-|H];
            [split; [reflexivity|]; split; [discriminate|];
             eexists; split; [reflexivity|]; split; [reflexivity|];
             vm_compute; tauto|]);
    destruct H.
Qed.

Lemma padded_day (strict : bool) day :
  allChars is_digit day = true ->
  (if strict return Prop then (1 <= String.length day <= 2)%nat
   else (1 <= String.length day)%nat) ->
  allChars is_digit (padStart0 2 day) = true /\
  if strict return Prop then String.length (padStart0 2 day) = 2%nat
  else (2 <= String.length (padStart0 2 day))%nat.
Proof.
  intros Hd Hl. unfold padStart0.
  destruct day as [|c1 [|c2 day]]; simpl in *.
  - destruct strict; lia.
  - rewrite Hd. destruct strict; auto.
  - rewrite Hd. destruct strict; split; auto; simpl in *; lia.
Qed.

Lemma isoDate_of_match (strict : bool) months month day year :
  (months = monthTable \/ months = shortMonthTable) ->
  In month monthsJanFirst \/ In month monthsNovFirst ->
  allChars is_digit day = true ->
  (if strict return Prop then (1 <= String.length day <= 2)%nat
   else (1 <= String.length day)%nat) ->
  isoDate strict year (convertToISO months (month +:+ " " +:+ day) year).
Proof.
  intros Hmonths Hin Hd Hl.
  destruct (month_known month Hin) as [Hm [Hmne [mm [Hl1 [Hl2 Hmm]]]]].
  assert (Hdne : day <> EmptyString).
  { destruct day; [destruct strict; simpl in Hl; lia | discriminate]. }
  rewrite convertToISO_words; auto using digits_not_space.
  destruct (padded_day strict day Hd Hl) as [Hp1 Hp2].
  exists mm, (padStart0 2 day).
  repeat split; auto.
  destruct Hmonths as [-> | ->]; [now rewrite Hl1 | now rewrite Hl2].
Qed.

(** *** The loops keep the dates they computed *)

Lemma rbc_scanLines_dates (P : string -> Prop) year lines :
  (forall line m,
      exec no_flags rbcDateRe line = Some m ->
      P (convertToISO monthTable (group_text 2 m +:+ " " +:+ group_text 1 m) year)) ->
  forall todo i currentDate,
    (forall d, currentDate = Some d -> P d) ->
    Forall (fun t => P (date t)) (Rbc.scanLines year lines todo i currentDate).
Proof.
  intros HP. induction todo as [|raw todo IH]; intros i currentDate Hcd;
    simpl; [constructor|].
  destruct (Rbc.isJunk (trim raw)); [now apply IH|].
  destruct (exec no_flags rbcDateRe (trim raw)) as [m|] eqn:E.
  - apply Forall_app. split.
    + apply pushed_each. intros t Ht.
      apply rbc_parseTransactionLine_inv in Ht as [p [_ [_ [_ ->]]]].
      cbn [date]. apply (HP _ _ E).
    + apply IH. intros d Hd. injection Hd as <-. apply (HP _ _ E).
  - destruct currentDate as [d|]; [|now apply IH].
    apply Forall_app. split; [|now apply IH].
    apply pushed_each. intros t Ht.
    apply rbc_parseTransactionLine_inv in Ht as [p [_ [_ [_ ->]]]].
    cbn [date]. now apply Hcd.
Qed.

Lemma cibc_scanLines_dates (P : string -> Prop) year lines :
  (forall line m,
      exec no_flags cibcDateRe line = Some m ->
      P (convertToISO shortMonthTable
           (group_text 1 m +:+ " " +:+ group_text 2 m) year)) ->
  forall todo i currentDate,
    (forall d, currentDate = Some d -> P d) ->
    Forall (fun t => P (date t)) (Cibc.scanLines year lines todo i currentDate).
Proof.
  intros HP. induction todo as [|raw todo IH]; intros i currentDate Hcd;
    simpl; [constructor|].
  destruct (Cibc.isJunk (trim raw)); [now apply IH|].
  destruct (exec no_flags cibcDateRe (trim raw)) as [m|] eqn:E.
  - apply Forall_app. split.
    + apply pushed_each. intros t Ht.
      apply cibc_parseTransactionLine_inv in Ht as [p [m' [_ [_ [_ ->]]]]].
      cbn [date]. apply (HP _ _ E).
    + apply IH. intros d Hd. injection Hd as <-. apply (HP _ _ E).
  - destruct currentDate as [d|]; [|now apply IH].
    apply Forall_app. split; [|now apply IH].
    apply pushed_each. intros t Ht.
    apply cibc_parseTransactionLine_inv in Ht as [p [m' [_ [_ [_ ->]]]]].
    cbn [date]. now apply Hcd.
Qed.

Lemma balanceBased_scanLines_dates (P : string -> Prop) bk year lines :
  (forall line d, BalanceBased.lineDate bk year line = Some d -> P d) ->
  forall todo i currentDate previous,
    (forall d, currentDate = Some d -> P d) ->
    Forall (fun t => P (date t))
           (BalanceBased.scanLines bk year lines todo i currentDate previous).
Proof.
  intros HP. induction todo as [|raw todo IH]; intros i currentDate previous Hcd;
    simpl; [constructor|].
  destruct (BalanceBased.isJunk (trim raw)); [now apply IH|].
  assert (Hcd' : forall d,
             match BalanceBased.lineDate bk year (trim raw) with
             | Some d => Some d
             | None => currentDate
             end = Some d -> P d).
  { intros d. destruct (BalanceBased.lineDate bk year (trim raw)) as [d'|] eqn:E.
    - intros H. injection H as <-. eapply HP, E.
    - apply Hcd. }
  destruct (match BalanceBased.lineDate bk year (trim raw) with
            | Some d => Some d
            | None => currentDate
            end) as [d|]; [|now apply IH].
  destruct (BalanceBased.parseTransactionLine (trim raw) d lines i previous bk)
    as [t|] eqn:Et; [|now apply IH].
  constructor; [|now apply IH].
  apply parseTransactionLine_inv in Et as [p [first [others [_ [_ [_ ->]]]]]].
  cbn [BalanceBased.makeTransaction date]. now apply Hcd'.
Qed.

Lemma rbc_dates text year :
  Forall (fun t => isoDate true year (date t)) (Rbc.parseTransactions text year).
Proof.
  apply rbc_scanLines_dates; [|discriminate].
  intros line m H.
  apply rbc_date_inv in H as [day [month [Hin [Hd [Hl [-> ->]]]]]].
  apply isoDate_of_match; auto.
Qed.

Lemma cibc_dates text year :
  Forall (fun t => isoDate false year (date t)) (Cibc.parseTransactions text year).
Proof.
  apply cibc_scanLines_dates; [|discriminate].
  intros line m H.
  apply cibc_date_inv in H as [month [day [Hin [Hd [Hl [-> ->]]]]]].
  apply isoDate_of_match; auto.
Qed.

Lemma balanceBased_dates text year bk :
  Forall (fun t => isoDate (match bk with rbc => true | _ => false end)
                     year (date t))
         (BalanceBased.parseTransactions text year bk).
Proof.
  apply balanceBased_scanLines_dates; [|discriminate].
  intros line d. unfold BalanceBased.lineDate. destruct bk; try discriminate.
  - destruct (exec no_flags rbcDateRe line) as [m|] eqn:E; [|discriminate].
    intros H. injection H as <-.
    apply rbc_date_inv in E as [day [month [Hin [Hd [Hl [-> ->]]]]]].
    apply isoDate_of_match; auto.
  - destruct (exec no_flags cibcDateRe line) as [m|] eqn:E; [|discriminate].
    intros H. injection H as <-.
    apply cibc_date_inv in E as [month [day [Hin [Hd [Hl [-> ->]]]]]].
    apply isoDate_of_match; auto.
Qed.

(** X15: Every date a parser emits has the form [year-MM-DD] for the year
    it was given: [MM] is a month number from 01 to 12 and [DD] is the
    day as printed in the statement, padded to two digits.  The RBC
    date format allows one or two digits for the day, so [DD] has
    exactly two; the CIBC format allows any number of digits, so [DD]
    has two or more.  No parser checks the day against the month. *)
Theorem dates_are_year_month_day :
  (forall text year,
      Forall (fun t => isoDate true year (date t))
             (Rbc.parseTransactions text year)) /\
  (forall text year,
      Forall (fun t => isoDate false year (date t))
             (Cibc.parseTransactions text year)) /\
  (forall text year bk,
      Forall (fun t => isoDate (match bk with rbc => true | _ => false end)
                         year (date t))
             (BalanceBased.parseTransactions text year bk)).
Proof.
  split; [|split].
  - apply rbc_dates.
  - apply cibc_dates.
  - apply balanceBased_dates.
Qed.

End DateFacts.

(** ** The year of a parsed statement *)

Section PeriodFacts.
Import JS Regex Ledger Props Statement.

(** A successful match went through its continuation, at a state whose
    captures are those it started with and, on top of them, captures of
    the pattern's own groups. *)
Lemma run_caps_inv fl r : forall st k res,
  Regex.run fl r st k = Some res ->
  exists st' added,
    k st' = Some res /\
    Regex.caps st' = (added ++ Regex.caps st)%list /\
    Forall (fun kv => In (fst kv) (groups r)) added.
Proof.
  assert (Hstep : forall ok st k res,
             step1 ok st k = Some res ->
             exists st' added,
               k st' = Some res /\
               Regex.caps st' = (added ++ Regex.caps st)%list /\
               Forall (fun kv : nat * string => False) added).
  { intros ok st k res. unfold step1. destruct (rest st) as [|c s']; [discriminate|].
    destruct (ok c); [|discriminate]. intros H.
    exists (advance c s' st), []. repeat split; auto. }
  assert (Hweak : forall (P Q : nat * string -> Prop) added,
             (forall kv, P kv -> Q kv) -> Forall P added -> Forall Q added).
  { intros P Q added HPQ. apply List.Forall_impl. exact HPQ. }
  induction r as [| x | | neg items | r1 IH1 r2 IH2 | r1 IH1 r2 IH2
                 | greedy r1 IH1 | i r1 IH1 | | | | r1 IH1];
    intros st k res H; cbn [groups].
  - exists st, []. auto.
  - apply Hstep in H as [st' [added [Hk [Hc Ha]]]].
    exists st', added. repeat split; auto.
  - apply Hstep in H as [st' [added [Hk [Hc Ha]]]].
    exists st', added. repeat split; auto.
  - apply Hstep in H as [st' [added [Hk [Hc Ha]]]].
    exists st', added. repeat split; auto.
  - rewrite run_seq in H.
    apply IH1 in H as [st1 [a1 [H [Hc1 Ha1]]]].
    apply IH2 in H as [st2 [a2 [H [Hc2 Ha2]]]].
    exists st2, (a2 ++ a1)%list. rewrite Hc2, Hc1, app_assoc.
    repeat split; auto. apply Forall_app. split.
    + eapply Hweak; [|exact Ha2]. intros kv Hkv. apply in_or_app. now right.
    + eapply Hweak; [|exact Ha1]. intros kv Hkv. apply in_or_app. now left.
  - rewrite run_alt in H.
    destruct (Regex.run fl r1 st k) as [res'|] eqn:E.
    + injection H as <-. apply IH1 in E as [st1 [a1 [H [Hc1 Ha1]]]].
      exists st1, a1. repeat split; auto.
      eapply Hweak; [|exact Ha1]. intros kv Hkv. apply in_or_app. now left.
    + apply IH2 in H as [st2 [a2 [H [Hc2 Ha2]]]].
      exists st2, a2. repeat split; auto.
      eapply Hweak; [|exact Ha2]. intros kv Hkv. apply in_or_app. now right.
  - cbn [Regex.run] in H.
    remember (String.length (rest st)) as n eqn:En. clear En.
    revert st H. induction n as [|n IHn]; intros st H.
    + exists st, []. auto.
    + assert (Hiter :
                 Regex.run fl r1 st
                   (fun st1 =>
                      if (pos st <? pos st1)%nat
                      then (fix loop (n : nat) (st0 : mstate) {struct n}
                              : option mstate :=
                              match n with
                              | O => k st0
                              | S n' =>
                                  if greedy then
                                    match Regex.run fl r1 st0
                                            (fun st1 => if (pos st0 <? pos st1)%nat
                                                        then loop n' st1 else None) with
                                    | Some res => Some res
                                    | None => k st0
                                    end
                                  else
                                    match k st0 with
                                    | Some res => Some res
                                    | None =>
                                        Regex.run fl r1 st0
                                          (fun st1 => if (pos st0 <? pos st1)%nat
                                                      then loop n' st1 else None)
                                    end
                              end) n st1
                      else None) = Some res ->
                 exists st' added,
                   k st' = Some res /\
                   Regex.caps st' = (added ++ Regex.caps st)%list /\
                   Forall (fun kv => In (fst kv) (groups r1)) added).
      { intros E. apply IH1 in E as [st1 [a1 [E [Hc1 Ha1]]]].
        destruct (pos st <? pos st1)%nat; [|discriminate].
        apply IHn in E as [st2 [a2 [E [Hc2 Ha2]]]].
        exists st2, (a2 ++ a1)%list. rewrite Hc2, Hc1, app_assoc.
        repeat split; auto. apply Forall_app. split; assumption. }
      destruct greedy.
      * match type of H with
        | match ?X with _ => _ end = _ => destruct X as [res'|] eqn:E
        end.
        -- injection H as ->. now apply Hiter.
        -- exists st, []. auto.
      * destruct (k st) as [res'|] eqn:E.
        -- injection H as ->. exists st, []. auto.
        -- now apply Hiter.
  - rewrite run_group in H.
    apply IH1 in H as [st1 [a1 [H [Hc1 Ha1]]]].
    exists (set_cap i st st1), ((i, take (pos st1 - pos st) (rest st)) :: a1).
    unfold set_cap at 2. cbn [Regex.caps]. rewrite Hc1.
    repeat split; auto. constructor; [now left|].
    eapply Hweak; [|exact Ha1]. intros kv Hkv. now right.
  - cbn [Regex.run] in H. destruct (at_bol fl st); [|discriminate].
    exists st, []. auto.
  - cbn [Regex.run] in H. destruct (at_eol fl st); [|discriminate].
    exists st, []. auto.
  - cbn [Regex.run] in H.
    destruct (xorb (at_word (prev st)) (at_word (next st))); [|discriminate].
    exists st, []. auto.
  - cbn [Regex.run] in H.
    destruct (Regex.run fl r1 st Some) as [st1|] eqn:E; [|discriminate].
    apply IH1 in E as [st1' [a1 [E [Hc1 Ha1]]]]. injection E as ->.
    exists (MState (prev st) (rest st) (pos st) (Regex.caps st1)), a1.
    cbn [Regex.caps]. auto.
Qed.

Lemma exec_inv fl r s m :
  exec fl r s = Some m ->
  exists p s' off, match_here fl r p s' off = Some m.
Proof.
  unfold exec. generalize (@None ascii) as p, 0%nat as off.
  induction s as [|c s IH]; intros p off; cbn [search_from];
    destruct (match_here fl r p _ off) as [m'|] eqn:E; try discriminate.
  - intros H. injection H as <-. eauto.
  - intros H. injection H as <-. eauto.
  - apply IH.
Qed.

Lemma run_four_digits fl p s n cs k res :
  Regex.run fl (rep 4 digit) (MState p s n cs) k = Some res ->
  exists d1 d2 d3 d4 tail,
    s = String d1 (String d2 (String d3 (String d4 tail))) /\
    is_digit d1 = true /\ is_digit d2 = true /\
    is_digit d3 = true /\ is_digit d4 = true /\
    k (MState (Some d4) tail (S (S (S (S n)))) cs) = Some res.
Proof.
  change (rep 4 digit) with (Seq digit (Seq digit (Seq digit digit))).
  rewrite !run_seq. intros H.
  destruct s as [|d1 s]; [discriminate|].
  destruct (is_digit d1) eqn:H1; [|now rewrite run_digit_other in H].
  rewrite (run_digit _ _ _ _ _ _ _ H1) in H. rewrite run_seq in H.
  destruct s as [|d2 s]; [discriminate|].
  destruct (is_digit d2) eqn:H2; [|now rewrite run_digit_other in H].
  rewrite (run_digit _ _ _ _ _ _ _ H2) in H. rewrite run_seq in H.
  destruct s as [|d3 s]; [discriminate|].
  destruct (is_digit d3) eqn:H3; [|now rewrite run_digit_other in H].
  rewrite (run_digit _ _ _ _ _ _ _ H3) in H.
  destruct s as [|d4 s]; [discriminate|].
  destruct (is_digit d4) eqn:H4; [|now rewrite run_digit_other in H].
  rewrite (run_digit _ _ _ _ _ _ _ H4) in H.
  exists d1, d2, d3, d4, s. auto 10.
Qed.

Lemma assoc_skip i added : forall l,
  Forall (fun kv : nat * string => fst kv <> i) added ->
  assoc i (added ++ l) = assoc i l.
Proof.
  induction added as [|[j v] added IH]; intros l H; [reflexivity|].
  inversion H as [|? ? Hj Hrest]; subst. simpl in *.
  destruct (Nat.eqb_spec i j) as [->|_]; [congruence|]. now apply IH.
Qed.

Lemma four_digits d1 d2 d3 d4 :
  is_digit d1 = true -> is_digit d2 = true ->
  is_digit d3 = true -> is_digit d4 = true ->
  fourDigits (String d1 (String d2 (String d3 (String d4 EmptyString)))).
Proof. intros H1 H2 H3 H4. split; [simpl; now rewrite H1, H2, H3, H4 | reflexivity]. Qed.

Ltac peel E :=
  rewrite run_seq in E;
  let st1 := fresh "st" in
  let a := fresh "a" in
  apply run_caps_inv in E as [st1 [a [E _]]];
  destruct st1 as [? ? ? ?].

(** The year a CIBC period line gives is a group of four digits, and
    the start date opens with it. *)
Lemma cibcPeriod_year text m :
  exec no_flags cibcPeriodRe text = Some m -> fourDigits (group_text 3 m).
Proof.
  intros E.
  apply exec_inv in E as [p0 [s0 [off E]]]. unfold match_here in E.
  destruct (Regex.run no_flags cibcPeriodRe _ Some) as [st|] eqn:R; [|discriminate].
  injection E as <-. unfold group_text, group. cbn [m_caps].
  unfold cibcPeriodRe in R. cbn [seq] in R.
  do 8 peel R.
  rewrite run_group in R.
  apply run_four_digits in R as [d1 [d2 [d3 [d4 [tail [-> [H1 [H2 [H3 [H4 R]]]]]]]]]].
  injection R as <-. unfold set_cap. cbn [Regex.caps pos rest assoc Nat.eqb].
  match goal with
  | |- context [take ?j _] => replace j with 4%nat by lia
  end.
  cbn [take]. now apply four_digits.
Qed.

Lemma rbcPeriod_year text m :
  exec no_flags rbcPeriodRe text = Some m -> fourDigits (group_text 2 m).
Proof.
  intros E.
  apply exec_inv in E as [p0 [s0 [off E]]]. unfold match_here in E.
  destruct (Regex.run no_flags rbcPeriodRe _ Some) as [st|] eqn:R; [|discriminate].
  injection E as <-. unfold group_text, group. cbn [m_caps].
  unfold rbcPeriodRe in R. cbn [seq] in R.
  do 5 peel R.
  rewrite run_seq, run_group in R.
  apply run_four_digits in R as [d1 [d2 [d3 [d4 [tail [-> [H1 [H2 [H3 [H4 R]]]]]]]]]].
  apply run_caps_inv in R as [st' [added [R [Hc Ha]]]].
  injection R as <-. rewrite Hc. unfold set_cap. cbn [Regex.caps pos rest].
  rewrite (assoc_skip 2).
  - cbn [assoc Nat.eqb].
    match goal with
    | |- context [take ?j _] => replace j with 4%nat by lia
    end.
    cbn [take]. now apply four_digits.
  - eapply List.Forall_impl; [|exact Ha]. intros kv Hkv E2. simpl in Hkv.
    rewrite E2 in Hkv. intuition discriminate.
Qed.

Lemma split_go_dash ds : forall cur rest,
  allChars is_digit ds = true ->
  JS.split_go "-" (ds +:+ String "-" rest) cur =
  JS.rev (rev_onto ds cur) :: JS.split_go "-" rest EmptyString.
Proof.
  induction ds as [|x ds IH]; intros cur rest H.
  - reflexivity.
  - simpl in H. apply andb_prop in H as [Hx Hds].
    rewrite append_cons. cbn [JS.split_go].
    replace (Ascii.eqb x "-") with false; [now rewrite IH|].
    apply digit_cases in Hx. simpl in Hx.
    repeat (destruct Hx as [<-|Hx]; [reflexivity|]). destruct Hx.
Qed.

Lemma yearOf_start p yyyy rest :
  fourDigits yyyy -> start_date p = yyyy +:+ "-" +:+ rest ->
  yearOf (Some p) = yyyy.
Proof.
  intros [Hd _] E. unfold yearOf. rewrite E. unfold JS.split.
  change ("-" +:+ rest) with (String "-" rest).
  rewrite split_go_dash by exact Hd. cbn [nth]. apply rev_rev_onto.
Qed.

Lemma default_year : fourDigits "2025".
Proof. split; reflexivity. Qed.

(** The year handed to the loop is the year the period line prints. *)
Lemma yearOf_cibcPeriod months text :
  exists yyyy,
    fourDigits yyyy /\ printedYear cibcPeriodRe 3 text yyyy /\
    yearOf (cibcPeriod months text) = yyyy.
Proof.
  unfold printedYear, cibcPeriod.
  destruct (exec no_flags cibcPeriodRe text) as [m|] eqn:E.
  - pose proof (cibcPeriod_year _ _ E) as Hy.
    exists (group_text 3 m). repeat split; try apply Hy.
    eapply yearOf_start; [exact Hy|]. cbn [start_date]. unfold convertToISO.
    cbv zeta. reflexivity.
  - exists "2025". repeat split.
Qed.

Lemma yearOf_rbcPeriod text :
  exists yyyy,
    fourDigits yyyy /\ printedYear rbcPeriodRe 2 text yyyy /\
    yearOf (rbcPeriod text) = yyyy.
Proof.
  unfold printedYear, rbcPeriod.
  destruct (exec no_flags rbcPeriodRe text) as [m|] eqn:E.
  - pose proof (rbcPeriod_year _ _ E) as Hy.
    exists (group_text 2 m). repeat split; try apply Hy.
    eapply yearOf_start; [exact Hy|]. cbn [start_date]. unfold convertToISO.
    cbv zeta. reflexivity.
  - exists "2025". repeat split.
Qed.

(** X16: In every parsed statement all transactions are dated
    [yyyy-MM-DD] in one and the same four-digit year, the one the first
    period line of the text prints, or 2025 when the text has none.
    For the RBC period line, [From <start>, <year> to <end>, <year>],
    it is the year printed with the start date (group 2).  For the CIBC
    period line, [<start> to <end>, <year>], it is the only year of the
    line, printed after the end date (group 3): the transactions of a
    statement [For Dec 15 to Jan 14, 2026] are all dated 2026, those of
    December too. *)
Theorem parsed_dates_carry_the_printed_year :
  (forall text,
      exists yyyy,
        printedYear rbcPeriodRe 2 text yyyy /\
        datedIn true yyyy (transactions (RbcParse.parse text))) /\
  (forall text,
      exists yyyy,
        printedYear cibcPeriodRe 3 text yyyy /\
        datedIn false yyyy (transactions (CibcParse.parse text))) /\
  (forall text bk,
      exists yyyy,
        match bk with
        | rbc => printedYear rbcPeriodRe 2 text yyyy
        | cibc => printedYear cibcPeriodRe 3 text yyyy
        | _ => yyyy = "2025"
        end /\
        datedIn (match bk with rbc => true | _ => false end) yyyy
          (transactions (BalanceBasedParse.parse text bk))).
Proof.
  split; [|split].
  - intros text. unfold RbcParse.parse. cbn [transactions].
    unfold RbcParse.parseStatementPeriod.
    destruct (yearOf_rbcPeriod text) as [yyyy [Hy [Hp ->]]].
    exists yyyy. repeat split; [exact Hp | apply Hy | apply Hy | apply rbc_dates].
  - intros text. unfold CibcParse.parse. cbn [transactions].
    unfold CibcParse.parseStatementPeriod.
    destruct (yearOf_cibcPeriod shortMonthTable text) as [yyyy [Hy [Hp ->]]].
    exists yyyy. repeat split; [exact Hp | apply Hy | apply Hy | apply cibc_dates].
  - intros text bk. unfold BalanceBasedParse.parse. cbn [transactions].
    unfold BalanceBasedParse.parseStatementPeriod.
    destruct bk.
    + destruct (yearOf_rbcPeriod text) as [yyyy [Hy [Hp ->]]].
      exists yyyy. repeat split;
        [exact Hp | apply Hy | apply Hy | apply (balanceBased_dates text yyyy rbc)].
    + destruct (yearOf_cibcPeriod monthTable text) as [yyyy [Hy [Hp ->]]].
      exists yyyy. repeat split;
        [exact Hp | apply Hy | apply Hy | apply (balanceBased_dates text yyyy cibc)].
    + exists "2025". repeat split. apply (balanceBased_dates text "2025" td).
    + exists "2025". repeat split. apply (balanceBased_dates text "2025" scotiabank).
    + exists "2025". repeat split. apply (balanceBased_dates text "2025" bmo).
Qed.

End PeriodFacts.

(** ** A deposit on a dated line, in the CIBC line-scan parser *)

Section DepositFacts.
Import JS Regex Ledger Props.

Lemma space_cases c :
  is_space c = true ->
  In c ["009"; "010"; "011"; "012"; "013"; " "; "160"]%char.
Proof.
  destruct c as [[] [] [] [] [] [] [] []]; vm_compute; intros H;
    try discriminate; tauto.
Qed.

(** A pattern that fits neither at a white-space unit nor anywhere in
    a word after white space does not match white space followed by
    that word. *)
Lemma search_after_spaces fl r word :
  (forall c s p off,
      is_space c = true -> match_here fl r p (String c s) off = None) ->
  (forall c off, search_from fl r (Some c) word off = None) ->
  forall ws p off,
    allChars is_space ws = true -> ws <> EmptyString ->
    search_from fl r p (ws +:+ word) off = None.
Proof.
  intros Hspace Hword ws. induction ws as [|c ws IH]; intros p off Hws Hne;
    [congruence|].
  simpl in Hws. apply andb_prop in Hws as [Hc Hws].
  rewrite append_cons. cbn [search_from]. rewrite (Hspace _ _ _ _ Hc).
  destruct ws as [|c' ws]; [apply Hword|].
  apply IH; [exact Hws | discriminate].
Qed.

Lemma cibc_pattern_not_after_spaces p ws prev off :
  In p Cibc.patterns ->
  allChars is_space ws = true -> ws <> EmptyString ->
  search_from flag_i (Cibc.regex_ p) prev (ws +:+ "DEPOSIT") off = None.
Proof.
  intros Hin. apply search_after_spaces.
  - intros c s p0 off0 Hc. apply space_cases in Hc. simpl in Hc, Hin.
    repeat (destruct Hin as [<-|Hin];
            [repeat (destruct Hc as [<-|Hc]; [destruct p0; reflexivity|]);
             destruct Hc|]).
    destruct Hin.
  - intros c off0. simpl in Hin.
    repeat (destruct Hin as [<-|Hin]; [reflexivity|]). destruct Hin.
Qed.

Lemma cibc_tryPatterns_unmatched ps line date lines i :
  Forall (fun p => test flag_i (Cibc.regex_ p) line = false) ps ->
  Cibc.tryPatterns ps line date lines i = None.
Proof.
  induction 1 as [|p ps Hp _ IH]; simpl; [reflexivity|]. now rewrite Hp.
Qed.

(** In the CIBC line-scan parser the DEPOSIT pattern is anchored at
    both ends, and the text handed on from a dated line starts where
    the date ends.  So white space and the word DEPOSIT yield no
    transaction, whatever amounts the lines around hold. *)
Lemma cibc_deposit_line_dropped ws date lines i :
  allChars is_space ws = true -> ws <> EmptyString ->
  Cibc.parseTransactionLine (ws +:+ "DEPOSIT") date lines i = None.
Proof.
  intros Hws Hne. unfold Cibc.parseTransactionLine.
  destruct (includes (ws +:+ "DEPOSIT") "CORRECTION"); [reflexivity|].
  apply cibc_tryPatterns_unmatched. apply List.Forall_forall. intros p Hin.
  unfold test, exec. now rewrite cibc_pattern_not_after_spaces.
Qed.

(** *** The dated line as a whole *)

Lemma run_lit_match w : forall p tail n cs k,
  w <> EmptyString ->
  Regex.run no_flags (lit w) (MState p (w +:+ tail) n cs) k =
  k (MState (lastOr p w) tail (n + String.length w) cs).
Proof.
  induction w as [|c w IH]; intros p tail n cs k Hne; [congruence|].
  destruct w as [|c' w].
  - cbn [lit]. rewrite append_cons, append_nil, run_chr.
    unfold chr_match. cbn [icase no_flags]. rewrite Ascii.eqb_refl.
    simpl. now rewrite Nat.add_1_r.
  - change (lit (String c (String c' w))) with (Seq (Chr c) (lit (String c' w))).
    rewrite run_seq, append_cons, run_chr.
    unfold chr_match. cbn [icase no_flags]. rewrite Ascii.eqb_refl.
    rewrite IH by discriminate. cbn [lastOr String.length].
    f_equal. f_equal. lia.
Qed.

Lemma run_lit_mismatch w' : forall w p tail n cs k,
  String.length w' = String.length w -> w' <> w ->
  Regex.run no_flags (lit w') (MState p (w +:+ tail) n cs) k = None.
Proof.
  induction w' as [|c' w' IH]; intros w p tail n cs k Hlen Hne.
  - destruct w; [congruence | discriminate].
  - destruct w as [|c w]; [discriminate|]. simpl in Hlen.
    rewrite append_cons.
    destruct (Ascii.eqb_spec c' c) as [->|Hc].
    + assert (Hw : w' <> w) by congruence.
      destruct w' as [|c2 w'].
      * destruct w; [congruence | discriminate].
      * change (lit (String c (String c2 w')))
          with (Seq (Chr c) (lit (String c2 w'))).
        rewrite run_seq, run_chr. unfold chr_match. cbn [icase no_flags].
        rewrite Ascii.eqb_refl. apply IH; [lia | exact Hw].
    + assert (E : chr_match no_flags c' c = false).
      { unfold chr_match. cbn [icase no_flags]. now apply Ascii.eqb_neq. }
      destruct w' as [|c2 w'].
      * cbn [lit]. now rewrite run_chr, E.
      * change (lit (String c' (String c2 w')))
          with (Seq (Chr c') (lit (String c2 w'))).
        now rewrite run_seq, run_chr, E.
Qed.

(** Among words of one length, the alternation takes the one the text
    starts with. *)
Lemma run_alt_lits_forward w ws : forall w0 p tail n cs k res,
  In w (w0 :: ws) ->
  Forall (fun w' => String.length w' = String.length w) (w0 :: ws) ->
  w <> EmptyString ->
  k (MState (lastOr p w) tail (n + String.length w) cs) = Some res ->
  Regex.run no_flags (alt (map lit (w0 :: ws))) (MState p (w +:+ tail) n cs) k
  = Some res.
Proof.
  induction ws as [|w1 ws IH]; intros w0 p tail n cs k res Hin Hall Hne Hk.
  - destruct Hin as [->|[]]. cbn [map alt]. now rewrite run_lit_match.
  - change (alt (map lit (w0 :: w1 :: ws)))
      with (Alt (lit w0) (alt (map lit (w1 :: ws)))).
    rewrite run_alt. inversion Hall as [|? ? Hw0 Hrest]; subst.
    destruct (String.eqb_spec w0 w) as [->|Hneq].
    + now rewrite run_lit_match, Hk.
    + rewrite run_lit_mismatch by assumption.
      apply IH; auto. destruct Hin as [->|Hin]; [congruence | exact Hin].
Qed.

Lemma drop_append a b : drop (String.length a) (a +:+ b) = b.
Proof. induction a as [|c a IH]; [destruct b; reflexivity|]. rewrite append_cons. exact IH. Qed.

(** The CIBC date pattern on a month, a blank, a day and a rest that
    does not go on with a digit. *)
Lemma cibc_date_forward month day tail :
  In month monthsNovFirst ->
  allChars is_digit day = true -> day <> EmptyString ->
  stops is_digit tail = true ->
  exec no_flags cibcDateRe (month +:+ " " +:+ day +:+ tail) =
  Some (RMatch 0 (month +:+ " " +:+ day) [(2%nat, day); (1%nat, month)]).
Proof.
  intros Hin Hday Hne Htail.
  destruct (month_known month (or_intror Hin)) as [_ [Hmne _]].
  assert (R : Regex.run no_flags cibcDateRe
                (MState None (month +:+ " " +:+ day +:+ tail) 0 []) Some =
              Some (MState (lastOr (Some " "%char) day) tail
                      (String.length (month +:+ " " +:+ day))
                      [(2%nat, day); (1%nat, month)])).
  { change cibcDateRe
      with (Seq Bol (Seq (Group 1 (alt (map lit monthsNovFirst)))
                       (Seq (plus space) (Group 2 (plus digit))))).
    rewrite run_seq, run_bol_start, run_seq, run_group.
    destruct day as [|d day]; [congruence|].
    simpl in Hday. apply andb_prop in Hday as [Hd Hday].
    unfold monthsNovFirst in *.
    apply run_alt_lits_forward; [exact Hin | | exact Hmne |].
    - simpl in Hin.
      repeat (destruct Hin as [<-|Hin]; [repeat constructor|]). destruct Hin.
    - unfold set_cap. cbn [pos rest Regex.caps prev Nat.add].
      rewrite Nat.sub_0_r, take_append, run_seq.
      change (" " +:+ String d day +:+ tail)
        with (String " " (EmptyString +:+ (String d day +:+ tail))).
      unfold space. apply run_plus_class; [reflexivity | reflexivity | |].
      + rewrite append_cons. unfold stops. rewrite space_class.
        now rewrite (digit_not_space _ Hd).
      + cbn [lastOr String.length]. rewrite run_group, append_cons.
        unfold digit. apply run_plus_class.
        * now apply digitClass_digit.
        * eapply allChars_impl; [|exact Hday]. apply digitClass_digit.
        * destruct tail as [|c tail]; [reflexivity|]. unfold stops in *.
          destruct (class_match no_flags false [IDigit] c) eqn:E; [|reflexivity].
          apply digit_class_inv in E. rewrite E in Htail. discriminate.
        * unfold set_cap. cbn [pos rest Regex.caps prev].
          f_equal. f_equal.
          -- rewrite !length_append. simpl. lia.
          -- f_equal. f_equal.
             match goal with
             | |- take ?j _ = _ =>
                 replace j with (String.length (String d day)) by (simpl; lia)
             end.
             change (String d (day +:+ tail)) with (String d day +:+ tail).
             apply take_append. }
  unfold exec.
  assert (Hm : match_here no_flags cibcDateRe None
                 (month +:+ " " +:+ day +:+ tail) 0 =
               Some (RMatch 0 (month +:+ " " +:+ day)
                       [(2%nat, day); (1%nat, month)])).
  { unfold match_here. rewrite R. cbn [pos Regex.caps]. f_equal. f_equal.
    replace (month +:+ " " +:+ day +:+ tail)
      with ((month +:+ " " +:+ day) +:+ tail)
      by (now rewrite !append_assoc).
    apply take_append. }
  destruct (month +:+ " " +:+ day +:+ tail); cbn [search_from]; now rewrite Hm.
Qed.

(** X17: A dated line that reads DEPOSIT after the date contributes nothing
    to the output of the CIBC line-scan parser: the loop goes on with
    the next line. *)
Theorem cibc_dated_deposit_yields_nothing
    year lines raw todo i currentDate month day ws :
  In month monthsNovFirst ->
  allChars is_digit day = true -> day <> EmptyString ->
  allChars is_space ws = true -> ws <> EmptyString ->
  trim raw = month +:+ " " +:+ day +:+ ws +:+ "DEPOSIT" ->
  exists currentDate',
    Cibc.scanLines year lines (raw :: todo) i currentDate =
    Cibc.scanLines year lines todo (S i) currentDate'.
Proof.
  intros Hin Hday Hne Hws Hwne Hline. cbn [Cibc.scanLines]. cbv zeta.
  destruct (Cibc.isJunk (trim raw)); [eauto|].
  rewrite Hline.
  rewrite (cibc_date_forward month day (ws +:+ "DEPOSIT") Hin Hday Hne).
  - cbn [m_text]. unfold substringFrom.
    replace (month +:+ " " +:+ day +:+ ws +:+ "DEPOSIT")
      with ((month +:+ " " +:+ day) +:+ (ws +:+ "DEPOSIT"))
      by (now rewrite !append_assoc).
    rewrite drop_append.
    rewrite (cibc_deposit_line_dropped ws _ lines i Hws Hwne).
    cbn [Cibc.pushed app]. eauto.
  - destruct ws as [|c ws]; [congruence|]. rewrite append_cons. unfold stops.
    simpl in Hws. apply andb_prop in Hws as [Hc _].
    destruct (is_digit c) eqn:E; [|reflexivity].
    apply digit_not_space in E. congruence.
Qed.

Lemma cibc_dated_deposit_yields_nothing_witness :
  exists currentDate',
    Cibc.scanLines "2025" ["Nov 3 DEPOSIT"; "500.00"]
      ["Nov 3 DEPOSIT"; "500.00"] 0 None =
    Cibc.scanLines "2025" ["Nov 3 DEPOSIT"; "500.00"] ["500.00"] 1 currentDate'.
Proof.
  apply (cibc_dated_deposit_yields_nothing "2025" ["Nov 3 DEPOSIT"; "500.00"]
           "Nov 3 DEPOSIT" ["500.00"] 0 None "Nov" "3" " ");
    try reflexivity; try discriminate.
  simpl. tauto.
Defined.

End DepositFacts.

(** ** Where the opening balance is read *)

Section OpeningBalanceFacts.
Import JS Regex Ledger Props.

Lemma search_from_skip fl r pre : forall p rest off,
  fitsNowhere fl r p pre rest = true ->
  search_from fl r p (pre +:+ rest) off =
  search_from fl r (lastOr p pre) rest (off + String.length pre).
Proof.
  induction pre as [|c pre IH]; intros p rest off H.
  - rewrite append_nil. simpl. now rewrite Nat.add_0_r.
  - cbn [fitsNowhere] in H. apply andb_prop in H as [Hhere Hrest].
    rewrite append_cons in *. cbn [search_from].
    destruct (match_here fl r p (String c (pre +:+ rest)) 0) eqn:E;
      [discriminate|].
    rewrite (match_here_none_offset _ _ _ _ _ off E).
    rewrite IH by exact Hrest. cbn [lastOr String.length]. f_equal. lia.
Qed.

Lemma run_cls fl neg items p c s n cs k :
  Regex.run fl (Cls neg items) (MState p (String c s) n cs) k =
  if class_match fl neg items c then k (MState (Some c) s (S n) cs) else None.
Proof. reflexivity. Qed.

Lemma run_cls_nil fl neg items p n cs k :
  Regex.run fl (Cls neg items) (MState p EmptyString n cs) k = None.
Proof. reflexivity. Qed.

(** The classes of the pattern under the flag [i]. *)
Lemma dollar_class_i c : class_match flag_i true [IChar "$"] c = notDollar c.
Proof. destruct c as [[] [] [] [] [] [] [] []]; reflexivity. Qed.

Lemma amount_class_i c :
  class_match flag_i false [IDigit; IChar ","] c = amountChar c.
Proof. destruct c as [[] [] [] [] [] [] [] []]; reflexivity. Qed.

Lemma digit_class_i c : class_match flag_i false [IDigit] c = is_digit c.
Proof. destruct c as [[] [] [] [] [] [] [] []]; reflexivity. Qed.

Lemma chr_dollar_i c : chr_match flag_i "$" c = negb (notDollar c).
Proof. destruct c as [[] [] [] [] [] [] [] []]; reflexivity. Qed.

Lemma chr_dot_i c : chr_match flag_i "." c = Ascii.eqb c ".".
Proof. destruct c as [[] [] [] [] [] [] [] []]; reflexivity. Qed.

Lemma amountChar_not_dot c : amountChar c = true -> Ascii.eqb c "." = false.
Proof. destruct c as [[] [] [] [] [] [] [] []]; vm_compute; congruence. Qed.

Lemma amountChar_notDollar c : amountChar c = true -> notDollar c = true.
Proof. destruct c as [[] [] [] [] [] [] [] []]; vm_compute; congruence. Qed.

Lemma plainChar_inv c :
  plainChar c = true ->
  notDollar c = true /\ amountChar c = false /\ is_digit c = false.
Proof. destruct c as [[] [] [] [] [] [] [] []]; vm_compute; intuition congruence. Qed.

(** The token pattern on an integer part, a point and two digits. *)
Lemma run_decimal intPart d1 d2 p tail n cs k res :
  allChars amountChar intPart = true -> intPart <> EmptyString ->
  is_digit d1 = true -> is_digit d2 = true ->
  k (MState (Some d2) tail (n + String.length (decimal intPart d1 d2)) cs)
    = Some res ->
  Regex.run flag_i amountRe (MState p (decimal intPart d1 d2 +:+ tail) n cs) k
  = Some res.
Proof.
  intros Hint Hne H1 H2 Hk. destruct intPart as [|c ds]; [congruence|].
  simpl in Hint. apply andb_prop in Hint as [Hc Hds].
  unfold amountRe, decimal. rewrite !append_cons, append_assoc.
  change (Regex.run flag_i (plus (cls [IDigit; IChar ","]))
            (MState p
               (String c (ds +:+ (String "." (String d1 (String d2 EmptyString))
                                  +:+ tail))) n cs)
            (fun st1 => Regex.run flag_i (Seq (Chr ".") (Seq digit digit)) st1 k)
          = Some res).
  apply run_plus_class.
  - now rewrite amount_class_i.
  - eapply allChars_impl; [|exact Hds]. intros x Hx. now rewrite amount_class_i.
  - reflexivity.
  - rewrite !append_cons, append_nil, run_seq, run_chr.
    change (chr_match flag_i "." ".") with true. cbv iota.
    rewrite run_seq, (run_digit _ _ _ _ _ _ _ H1), (run_digit _ _ _ _ _ _ _ H2).
    rewrite <- Hk. f_equal. f_equal. unfold decimal. simpl.
    rewrite length_append. simpl. lia.
Qed.

Lemma run_star_nil fl greedy r p n cs k :
  Regex.run fl (Star greedy r) (MState p EmptyString n cs) k =
  k (MState p EmptyString n cs).
Proof. reflexivity. Qed.

(** A greedy repetition goes on as far as the continuation succeeds. *)
Lemma run_star_class_all fl neg items ds : forall p tail n cs k res,
  allChars (class_match fl neg items) ds = true ->
  Regex.run fl (Star true (Cls neg items))
    (MState (lastOr p ds) tail (n + String.length ds) cs) k = Some res ->
  Regex.run fl (Star true (Cls neg items)) (MState p (ds +:+ tail) n cs) k
  = Some res.
Proof.
  induction ds as [|c ds IH]; intros p tail n cs k res Hall H.
  - rewrite append_nil. simpl in H. now rewrite Nat.add_0_r in H.
  - simpl in Hall. apply andb_prop in Hall as [Hc Hall].
    rewrite append_cons, run_star_cons, Hc.
    rewrite (IH (Some c) tail (S n) cs k res Hall); [reflexivity|].
    simpl in H. now rewrite Nat.add_succ_r in H.
Qed.

(** After the words, the pattern goes through the units that are not a
    dollar sign. *)
Lemma words_run p0 X :
  Regex.run flag_i BalanceBased.openingRe
    (MState p0 ("Opening balance" +:+ X) 0 []) Some =
  Regex.run flag_i (Star true (Cls true [IChar "$"]))
    (MState (Some "e"%char) X 15 []) afterWords.
Proof. reflexivity. Qed.

(** *** With a dollar sign *)

Lemma opening_after_dollar p0 mid intPart d1 d2 rest :
  allChars notDollar mid = true ->
  allChars amountChar intPart = true -> intPart <> EmptyString ->
  is_digit d1 = true -> is_digit d2 = true ->
  exists st,
    Regex.run flag_i BalanceBased.openingRe
      (MState p0 ("Opening balance" +:+ mid +:+ "$" +:+
                  decimal intPart d1 d2 +:+ rest) 0 []) Some = Some st /\
    Regex.caps st = [(1%nat, decimal intPart d1 d2)].
Proof.
  intros Hmid Hint Hne H1 H2. rewrite words_run.
  eexists. split.
  - apply run_star_class.
    + eapply allChars_impl; [|exact Hmid]. intros x Hx. now rewrite dollar_class_i.
    + reflexivity.
    + unfold afterWords. rewrite run_seq. apply run_alt_first.
      change ("$" +:+ decimal intPart d1 d2 +:+ rest)
        with (String "$" (decimal intPart d1 d2 +:+ rest)).
      rewrite run_chr. change (chr_match flag_i "$" "$") with true. cbv iota.
      rewrite run_group. apply run_decimal; try assumption. reflexivity.
  - unfold set_cap. cbn [Regex.caps Regex.pos Regex.rest].
    match goal with
    | |- context [take ?j _] =>
        replace j with (String.length (decimal intPart d1 d2)) by lia
    end.
    now rewrite take_append.
Qed.

(** *** Without one *)

Lemma rest_fails_in_trail trail p n cs k :
  allChars plainChar trail = true ->
  Regex.run flag_i (Seq (Chr ".") (Seq digit digit)) (MState p trail n cs) k = None.
Proof.
  intros Ht. rewrite run_seq. destruct trail as [|x t]; [reflexivity|].
  rewrite run_chr. destruct (chr_match flag_i "." x); [|reflexivity].
  rewrite run_seq. destruct t as [|y t]; [reflexivity|].
  simpl in Ht. apply andb_prop in Ht as [_ Ht]. apply andb_prop in Ht as [Hy _].
  apply plainChar_inv in Hy as [_ [_ Hy]]. now rewrite run_digit_other.
Qed.

Lemma star_rest_none trail cs k ds : forall p n,
  allChars amountChar ds = true -> allChars plainChar trail = true ->
  Regex.run flag_i (Star true (Cls false [IDigit; IChar ","]))
    (MState p (ds +:+ trail) n cs)
    (fun st => Regex.run flag_i (Seq (Chr ".") (Seq digit digit)) st k) = None.
Proof.
  induction ds as [|c ds IH]; intros p n Hds Ht.
  - rewrite append_nil. destruct trail as [|x t].
    + rewrite run_star_nil. now apply rest_fails_in_trail.
    + rewrite run_star_cons, amount_class_i.
      assert (Hx : amountChar x = false).
      { simpl in Ht. apply andb_prop in Ht as [Hx _].
        now apply plainChar_inv in Hx as [_ [Hx _]]. }
      rewrite Hx. now apply rest_fails_in_trail.
  - simpl in Hds. apply andb_prop in Hds as [Hc Hds].
    rewrite append_cons, run_star_cons, amount_class_i, Hc.
    rewrite IH by assumption.
    rewrite run_seq, run_chr, chr_dot_i. now rewrite (amountChar_not_dot _ Hc).
Qed.

(** The token pattern finds no token in digits and commas that are not
    followed by a point and two digits. *)
Lemma amount_fails ds trail p n cs k :
  allChars amountChar ds = true -> allChars plainChar trail = true ->
  Regex.run flag_i amountRe (MState p (ds +:+ trail) n cs) k = None.
Proof.
  intros Hds Ht.
  change amountRe
    with (Seq (Seq (Cls false [IDigit; IChar ","])
                 (Star true (Cls false [IDigit; IChar ","])))
            (Seq (Chr ".") (Seq digit digit))).
  rewrite !run_seq. destruct ds as [|c ds].
  - rewrite append_nil. destruct trail as [|x t]; [reflexivity|].
    rewrite run_cls, amount_class_i.
    simpl in Ht. apply andb_prop in Ht as [Hx _].
    apply plainChar_inv in Hx as [_ [Hx _]]. now rewrite Hx.
  - simpl in Hds. apply andb_prop in Hds as [Hc Hds].
    rewrite append_cons, run_cls, amount_class_i, Hc.
    now apply star_rest_none.
Qed.

Lemma afterWords_fails ds trail p n cs :
  allChars amountChar ds = true -> allChars plainChar trail = true ->
  afterWords (MState p (ds +:+ trail) n cs) = None.
Proof.
  intros Hds Ht. unfold afterWords, opt. rewrite run_seq, run_alt.
  assert (E : Regex.run flag_i (Chr "$") (MState p (ds +:+ trail) n cs)
                (fun st1 => Regex.run flag_i (Group 1 amountRe) st1 Some) = None).
  { destruct ds as [|c ds].
    - rewrite append_nil. destruct trail as [|x t]; [reflexivity|].
      rewrite run_chr, chr_dollar_i.
      simpl in Ht. apply andb_prop in Ht as [Hx _].
      apply plainChar_inv in Hx as [Hx _]. now rewrite Hx.
    - rewrite append_cons, run_chr, chr_dollar_i.
      simpl in Hds. apply andb_prop in Hds as [Hc _].
      now rewrite (amountChar_notDollar _ Hc). }
  rewrite E, run_eps, run_group. now apply amount_fails.
Qed.

Lemma outer_none_trail cs trail : forall p n,
  allChars plainChar trail = true ->
  Regex.run flag_i (Star true (Cls true [IChar "$"])) (MState p trail n cs)
    afterWords = None.
Proof.
  induction trail as [|x t IH]; intros p n Ht.
  - rewrite run_star_nil.
    apply (afterWords_fails EmptyString EmptyString); reflexivity.
  - pose proof Ht as Ht'. simpl in Ht. apply andb_prop in Ht as [Hx Hrest].
    apply plainChar_inv in Hx as [Hx _].
    rewrite run_star_cons, dollar_class_i, Hx, IH by exact Hrest.
    now apply (afterWords_fails EmptyString (String x t)).
Qed.

Lemma outer_none_digits cs trail ds : forall p n,
  allChars amountChar ds = true -> allChars plainChar trail = true ->
  Regex.run flag_i (Star true (Cls true [IChar "$"]))
    (MState p (ds +:+ trail) n cs) afterWords = None.
Proof.
  induction ds as [|c ds IH]; intros p n Hds Ht.
  - rewrite append_nil. now apply outer_none_trail.
  - pose proof Hds as Hds'. simpl in Hds. apply andb_prop in Hds as [Hc Hrest].
    rewrite append_cons, run_star_cons, dollar_class_i.
    rewrite (amountChar_notDollar _ Hc), IH by assumption.
    now apply (afterWords_fails (String c ds) trail).
Qed.

Lemma outer_none_point cs trail d1 d2 p n :
  is_digit d1 = true -> is_digit d2 = true ->
  allChars plainChar trail = true ->
  Regex.run flag_i (Star true (Cls true [IChar "$"]))
    (MState p (String "." (String d1 (String d2 trail))) n cs) afterWords = None.
Proof.
  intros H1 H2 Ht. rewrite run_star_cons.
  change (class_match flag_i true [IChar "$"] ".") with true. cbv iota.
  change (String d1 (String d2 trail))
    with (String d1 (String d2 EmptyString) +:+ trail).
  rewrite outer_none_digits; [reflexivity | | exact Ht].
  simpl. unfold amountChar. now rewrite H1, H2.
Qed.

Lemma opening_without_dollar p0 mid c d1 d2 trail :
  allChars notDollar mid = true ->
  is_digit c = true -> is_digit d1 = true -> is_digit d2 = true ->
  allChars plainChar trail = true ->
  exists st,
    Regex.run flag_i BalanceBased.openingRe
      (MState p0 ("Opening balance" +:+ mid +:+
                  decimal (String c EmptyString) d1 d2 +:+ trail) 0 []) Some
    = Some st /\
    Regex.caps st = [(1%nat, decimal (String c EmptyString) d1 d2)].
Proof.
  intros Hmid Hc H1 H2 Ht. rewrite words_run.
  assert (Hcam : amountChar c = true) by (unfold amountChar; now rewrite Hc).
  eexists. split.
  - apply run_star_class_all.
    + eapply allChars_impl; [|exact Hmid]. intros x Hx. now rewrite dollar_class_i.
    + unfold decimal. repeat (rewrite append_cons || rewrite append_nil).
      rewrite run_star_cons, dollar_class_i, (amountChar_notDollar _ Hcam).
      rewrite outer_none_point by assumption.
      unfold afterWords, opt. rewrite run_seq, run_alt, run_chr, chr_dollar_i.
      rewrite (amountChar_notDollar _ Hcam). cbn [negb]. cbv iota.
      rewrite run_eps, run_group.
      change (String c (String "." (String d1 (String d2 trail))))
        with (decimal (String c EmptyString) d1 d2 +:+ trail).
      apply run_decimal; try assumption; [|discriminate|reflexivity].
      simpl. now rewrite Hcam.
  - unfold set_cap. cbn [Regex.caps Regex.pos Regex.rest].
    match goal with
    | |- context [take ?j _] =>
        replace j with (String.length (decimal (String c EmptyString) d1 d2))
          by lia
    end.
    change (String c (String "." (String d1 (String d2 trail))))
      with (decimal (String c EmptyString) d1 d2 +:+ trail).
    now rewrite take_append.
Qed.

(** *** The two readings *)

Lemma opening_from_run pre found token :
  fitsNowhere flag_i BalanceBased.openingRe None pre found = true ->
  found <> EmptyString ->
  (forall p0, exists st,
      Regex.run flag_i BalanceBased.openingRe (MState p0 found 0 []) Some
      = Some st /\ Regex.caps st = [(1%nat, token)]) ->
  BalanceBased.openingBalance (pre +:+ found) = Some (parseNumber token).
Proof.
  intros Hpre Hne Hrun. unfold BalanceBased.openingBalance, exec.
  rewrite search_from_skip by exact Hpre.
  destruct (Hrun (lastOr None pre)) as [st [R Hc]].
  assert (Hm : match_here flag_i BalanceBased.openingRe (lastOr None pre) found
                 (0 + String.length pre) =
               Some (RMatch (0 + String.length pre) (take (pos st) found)
                       [(1%nat, token)])).
  { unfold match_here. now rewrite R, Hc. }
  destruct found as [|x found]; [congruence|].
  cbn [search_from]. rewrite Hm. reflexivity.
Qed.

(** X18: When the words "Opening balance" are the first place where the
    opening-balance pattern fits and a dollar sign follows them, the
    balance read is the number right after the first such dollar sign:
    whatever stands between the words and that sign, numbers included,
    is passed over, and so is whatever follows the number. *)
Theorem opening_balance_follows_the_first_dollar_sign
    pre mid intPart d1 d2 rest :
  fitsNowhere flag_i BalanceBased.openingRe None pre
    ("Opening balance" +:+ mid +:+ "$" +:+ decimal intPart d1 d2 +:+ rest)
    = true ->
  allChars notDollar mid = true ->
  allChars amountChar intPart = true -> intPart <> EmptyString ->
  is_digit d1 = true -> is_digit d2 = true ->
  BalanceBased.openingBalance
    (pre +:+ "Opening balance" +:+ mid +:+ "$" +:+ decimal intPart d1 d2 +:+ rest)
  = Some (parseNumber (decimal intPart d1 d2)).
Proof.
  intros Hpre Hmid Hint Hne H1 H2.
  apply opening_from_run; [exact Hpre | discriminate|].
  intros p0. now apply opening_after_dollar.
Qed.

Lemma opening_balance_follows_the_first_dollar_sign_witness :
  BalanceBased.openingBalance
    ("CIBC Account Statement" +:+ "Opening balance" +:+ " on Nov 1, 2025 " +:+
     "$" +:+ decimal "1,000" "0" "0" +:+ " Closing balance $700.00")
  = Some (parseNumber (decimal "1,000" "0" "0")).
Proof.
  apply (opening_balance_follows_the_first_dollar_sign
           "CIBC Account Statement" " on Nov 1, 2025 " "1,000" "0" "0"
           " Closing balance $700.00");
    try reflexivity. discriminate.
Defined.

(** X19: When no dollar sign follows the words "Opening balance", the
    pattern runs to the end
    of the text and comes back to the last place where a number fits:
    if the text ends in a number (followed at most by units that are
    neither digits, commas nor dollar signs), the balance read is the
    last digit of its integer part with its decimals, a value below
    10.00, whatever opening balance the statement prints. *)
Theorem opening_balance_without_dollar_sign_is_read_at_the_end
    pre mid c d1 d2 trail :
  fitsNowhere flag_i BalanceBased.openingRe None pre
    ("Opening balance" +:+ mid +:+ decimal (String c EmptyString) d1 d2 +:+ trail)
    = true ->
  allChars notDollar mid = true ->
  is_digit c = true -> is_digit d1 = true -> is_digit d2 = true ->
  allChars plainChar trail = true ->
  BalanceBased.openingBalance
    (pre +:+ "Opening balance" +:+ mid +:+
     decimal (String c EmptyString) d1 d2 +:+ trail)
  = Some (parseNumber (decimal (String c EmptyString) d1 d2)) /\
  (parseNumber (decimal (String c EmptyString) d1 d2) < 1000)%Z.
Proof.
  intros Hpre Hmid Hc H1 H2 Ht. split.
  - apply opening_from_run; [exact Hpre | discriminate|].
    intros p0. now apply opening_without_dollar.
  - unfold parseNumber, decimal. rewrite append_cons, append_nil.
    rewrite remove_comma_token
      by (simpl; unfold tokenChar; now rewrite Hc, H1, H2).
    rewrite (parseFloat_point (10 * 0 + Z.of_nat (code c - 48)) d1 d2)
      by (try assumption; cbn [read_digits]; now rewrite Hc).
    pose proof (digit_value_bounds _ Hc). pose proof (digit_value_bounds _ H1).
    pose proof (digit_value_bounds _ H2). lia.
Qed.

Lemma opening_balance_without_dollar_sign_is_read_at_the_end_witness :
  BalanceBased.openingBalance
    ("CIBC Account Statement" +:+ "Opening balance" +:+
     " 1,000.00 Nov 3 DEPOSIT 90" +:+ decimal "0" "0" "0" +:+ EmptyString)
  = Some (parseNumber (decimal "0" "0" "0")) /\
  (parseNumber (decimal "0" "0" "0") < 1000)%Z.
Proof.
  apply (opening_balance_without_dollar_sign_is_read_at_the_end
           "CIBC Account Statement" " 1,000.00 Nov 3 DEPOSIT 90" "0" "0" "0"
           EmptyString);
    reflexivity.
Defined.

End OpeningBalanceFacts.

(** ** A rule that never applies *)

Section ReferenceCodeFacts.
Import JS Regex Ledger Scrubbers Props.

Lemma run_wordb fl st k :
  Regex.run fl WordB st k =
  if xorb (at_word (prev st)) (at_word (next st)) then k st else None.
Proof. reflexivity. Qed.

Lemma run_ahead fl r st k :
  Regex.run fl (Ahead r) st k =
  match Regex.run fl r st Some with
  | Some st1 =>
      k (MState (prev st) (Regex.rest st) (Regex.pos st) (Regex.caps st1))
  | None => None
  end.
Proof. reflexivity. Qed.

(** [r{m}] for a class consumes [m] units of the class. *)
Lemma run_rep_class_inv fl neg items m : forall p s n cs k res,
  Regex.run fl (rep (S m) (Cls neg items)) (MState p s n cs) k = Some res ->
  exists ds tail,
    s = ds +:+ tail /\ String.length ds = S m /\
    allChars (class_match fl neg items) ds = true /\
    k (MState (lastOr p ds) tail (n + S m) cs) = Some res.
Proof.
  induction m as [|m IH]; intros p s n cs k res H.
  - cbn [rep] in H. destruct s as [|c s]; [discriminate|].
    rewrite run_cls in H.
    destruct (class_match fl neg items c) eqn:E; [|discriminate].
    exists (String c EmptyString), s. cbn [allChars lastOr String.length].
    rewrite E. replace (n + 1)%nat with (S n) by lia. auto.
  - change (rep (S (S m)) (Cls neg items))
      with (Seq (Cls neg items) (rep (S m) (Cls neg items))) in H.
    rewrite run_seq in H. destruct s as [|c s]; [discriminate|].
    rewrite run_cls in H.
    destruct (class_match fl neg items c) eqn:E; [|discriminate].
    apply IH in H as [ds [tail [-> [Hl [Ha Hk]]]]].
    exists (String c ds), tail. cbn [allChars lastOr String.length].
    rewrite E, Ha, Hl. replace (n + S (S m))%nat with (S n + S m)%nat by lia.
    auto.
Qed.

Lemma lastOr_ok (ok : ascii -> bool) ds : forall c,
  ok c = true -> allChars ok ds = true ->
  exists c', lastOr (Some c) ds = Some c' /\ ok c' = true.
Proof.
  induction ds as [|d ds IH]; intros c Hc Hall.
  - exists c. auto.
  - cbn [allChars] in Hall. apply andb_prop in Hall as [Hd Hall].
    cbn [lastOr]. now apply IH.
Qed.

(** A unit of a reference code is a word unit, and so is a digit. *)
Lemma codeClass_word c :
  class_match no_flags false [upperAZ; IRange "0" "9"] c = true ->
  is_word c = true.
Proof.
  destruct c as [[] [] [] [] [] [] [] []]; vm_compute; intros H;
    first [reflexivity | discriminate H].
Qed.

Lemma digit_word c : is_digit c = true -> is_word c = true.
Proof.
  destruct c as [[] [] [] [] [] [] [] []]; vm_compute; intros H;
    first [reflexivity | discriminate H].
Qed.

(** [\b[A-Z0-9]{6}\b(?=\d)] fits nowhere: after six word units the
    second [\b] wants a unit that is no word unit (or the end), and the
    look-ahead wants that same unit to be a digit. *)
Lemma reference_code_never_fits p s off :
  match_here no_flags
    (seq [WordB; rep 6 (cls [upperAZ; IRange "0" "9"]); WordB; Ahead digit])
    p s off = None.
Proof.
  unfold match_here.
  destruct (Regex.run _ _ _ Some) as [res|] eqn:E; [exfalso|reflexivity].
  change (seq [WordB; rep 6 (cls [upperAZ; IRange "0" "9"]); WordB; Ahead digit])
    with (Seq WordB (Seq (rep 6 (Cls false [upperAZ; IRange "0" "9"]))
                         (Seq WordB (Ahead digit)))) in E.
  rewrite run_seq, run_wordb in E.
  destruct (xorb _ _); [|discriminate].
  rewrite run_seq in E.
  apply run_rep_class_inv in E as [ds [tail [-> [Hl [Ha E]]]]].
  rewrite run_seq, run_wordb in E.
  destruct ds as [|c ds]; [cbn in Hl; lia|].
  cbn [allChars lastOr] in *. apply andb_prop in Ha as [Hc Ha].
  destruct (lastOr_ok is_word ds c) as [c' [Hlast Hw]].
  { now apply codeClass_word. }
  { eapply allChars_impl; [|exact Ha]. apply codeClass_word. }
  cbn [prev] in E. rewrite Hlast in E. unfold next in E. cbn [Regex.rest] in E.
  cbn [at_word] in E. rewrite Hw in E.
  destruct tail as [|d tail]; cbn [at_word xorb] in E.
  - rewrite run_ahead, run_digit_nil in E. discriminate.
  - destruct (is_word d) eqn:Hd; cbn [xorb] in E; [discriminate|].
    rewrite run_ahead in E.
    destruct (is_digit d) eqn:Hdig.
    + apply digit_word in Hdig. congruence.
    + rewrite (run_digit_other _ _ _ _ _ _ _ Hdig) in E. discriminate.
Qed.

Lemma search_from_never fl r :
  (forall p s off, match_here fl r p s off = None) ->
  forall s p off, search_from fl r p s off = None.
Proof.
  intros H s. induction s as [|c s IH]; intros p off; cbn [search_from];
    rewrite H; [reflexivity | apply IH].
Qed.

(** X20: The RBC rule for stand-alone reference codes,
    [/\b[A-Z0-9]{6}\b(?=\d)/g] to ['[REF]'], changes no text at all: the
    pass scrubs every statement as it would without that rule, and a
    six-unit code glued to a digit stays in the text unless another
    rule removes it. *)
Theorem rbc_reference_code_rule_never_applies :
  forall text : string,
    (forall r, In r RBC.rules -> what r = ReferenceCode -> apply r text = text) /\
    RBC.scrub text =
    run (List.filter (fun r => negb (isReferenceCode (what r))) RBC.rules) text.
Proof.
  assert (Hrule : forall text,
             apply (Rule ReferenceCode no_flags
                      (seq [WordB; rep 6 (cls [upperAZ; IRange "0" "9"]); WordB;
                            Ahead digit])
                      (const "[REF]")) text = text).
  { intros text. apply apply_unmatched. cbn [rflags pattern]. unfold exec.
    apply search_from_never. apply reference_code_never_fits. }
  intros text. split.
  - intros r Hin Hw. unfold RBC.rules in Hin. cbn [In] in Hin.
    repeat (destruct Hin as [<- | Hin]; [first [discriminate Hw | apply Hrule]|]).
    destruct Hin.
  - unfold RBC.scrub.
    change (List.filter (fun r => negb (isReferenceCode (what r))) RBC.rules)
      with (firstn 8 RBC.rules ++ skipn 9 RBC.rules).
    change RBC.rules
      with (firstn 8 RBC.rules ++
            Rule ReferenceCode no_flags
              (seq [WordB; rep 6 (cls [upperAZ; IRange "0" "9"]); WordB;
                    Ahead digit])
              (const "[REF]") :: skipn 9 RBC.rules) at 1.
    rewrite !run_app, run_cons, Hrule. reflexivity.
Qed.

End ReferenceCodeFacts.

(** ** Blocks in capitals *)

Section NameBlockFacts.
Import JS Regex Ledger Scrubbers Props Examples.

(** What a match consumes is a prefix of what was left. *)
Lemma run_consumes fl r : forall st k res,
  Regex.run fl r st k = Some res ->
  exists st' u, k st' = Some res /\ Regex.rest st = u +:+ Regex.rest st'.
Proof.
  assert (Hstep : forall ok st k res,
             step1 ok st k = Some res ->
             exists st' u, k st' = Some res /\ Regex.rest st = u +:+ Regex.rest st').
  { intros ok st k res. unfold step1.
    destruct (Regex.rest st) as [|c s'] eqn:R; [discriminate|].
    destruct (ok c); [|discriminate]. intros H.
    exists (advance c s' st), (String c EmptyString). split; [exact H|].
    reflexivity. }
  induction r as [| x | | neg items | r1 IH1 r2 IH2 | r1 IH1 r2 IH2
                 | greedy r1 IH1 | i r1 IH1 | | | | r1 IH1];
    intros st k res H.
  - exists st, EmptyString. auto.
  - now apply Hstep in H.
  - now apply Hstep in H.
  - now apply Hstep in H.
  - rewrite run_seq in H.
    apply IH1 in H as [st1 [u1 [H R1]]].
    apply IH2 in H as [st2 [u2 [H R2]]].
    exists st2, (u1 +:+ u2). split; [exact H|].
    now rewrite R1, R2, append_assoc.
  - rewrite run_alt in H.
    destruct (Regex.run fl r1 st k) as [res'|] eqn:E.
    + injection H as <-. now apply IH1 in E.
    + now apply IH2 in H.
  - cbn [Regex.run] in H.
    remember (String.length (Regex.rest st)) as n eqn:En. clear En.
    revert st H. induction n as [|n IHn]; intros st H.
    + exists st, EmptyString. auto.
    + assert (Hiter :
                 Regex.run fl r1 st
                   (fun st1 =>
                      if (Regex.pos st <? Regex.pos st1)%nat
                      then (fix loop (n : nat) (st0 : mstate) {struct n}
                              : option mstate :=
                              match n with
                              | O => k st0
                              | S n' =>
                                  if greedy then
                                    match Regex.run fl r1 st0
                                            (fun st1 =>
                                               if (Regex.pos st0 <? Regex.pos st1)%nat
                                               then loop n' st1 else None) with
                                    | Some res => Some res
                                    | None => k st0
                                    end
                                  else
                                    match k st0 with
                                    | Some res => Some res
                                    | None =>
                                        Regex.run fl r1 st0
                                          (fun st1 =>
                                             if (Regex.pos st0 <? Regex.pos st1)%nat
                                             then loop n' st1 else None)
                                    end
                              end) n st1
                      else None) = Some res ->
                 exists st' u,
                   k st' = Some res /\ Regex.rest st = u +:+ Regex.rest st').
      { intros E. apply IH1 in E as [st1 [u1 [E R1]]].
        destruct (Regex.pos st <? Regex.pos st1)%nat; [|discriminate].
        apply IHn in E as [st2 [u2 [E R2]]].
        exists st2, (u1 +:+ u2). split; [exact E|].
        now rewrite R1, R2, append_assoc. }
      destruct greedy.
      * match type of H with
        | match ?X with _ => _ end = _ => destruct X as [res'|] eqn:E
        end.
        -- injection H as ->. now apply Hiter.
        -- exists st, EmptyString. auto.
      * destruct (k st) as [res'|] eqn:E.
        -- injection H as ->. exists st, EmptyString. auto.
        -- now apply Hiter.
  - rewrite run_group in H.
    apply IH1 in H as [st1 [u1 [H R1]]].
    exists (set_cap i st st1), u1. split; [exact H | exact R1].
  - cbn [Regex.run] in H. destruct (at_bol fl st); [|discriminate].
    exists st, EmptyString. auto.
  - cbn [Regex.run] in H. destruct (at_eol fl st); [|discriminate].
    exists st, EmptyString. auto.
  - rewrite run_wordb in H.
    destruct (xorb (at_word (prev st)) (at_word (next st))); [|discriminate].
    exists st, EmptyString. auto.
  - rewrite run_ahead in H.
    destruct (Regex.run fl r1 st Some) as [st1|]; [|discriminate].
    exists (MState (prev st) (Regex.rest st) (Regex.pos st) (Regex.caps st1)),
      EmptyString. auto.
Qed.

Lemma consumed_allChars (ok : ascii -> bool) st st' u :
  Regex.rest st = u +:+ Regex.rest st' ->
  allChars ok (Regex.rest st) = true -> allChars ok (Regex.rest st') = true.
Proof.
  intros ->. rewrite allChars_append. intros H.
  now apply andb_prop in H as [_ H].
Qed.

(** A class none of whose units occurs in what is left cannot match. *)
Lemma class_starved fl neg items (ok : ascii -> bool) st k res :
  (forall c, ok c = true -> class_match fl neg items c = false) ->
  allChars ok (Regex.rest st) = true ->
  Regex.run fl (Cls neg items) st k = Some res -> False.
Proof.
  intros Hno Hall H. cbn [Regex.run] in H. unfold step1 in H.
  destruct (Regex.rest st) as [|c s]; [discriminate|].
  cbn [allChars] in Hall. apply andb_prop in Hall as [Hc _].
  rewrite (Hno c Hc) in H. discriminate.
Qed.

Lemma search_from_starved fl r (ok : ascii -> bool) :
  (forall p s off, allChars ok s = true -> match_here fl r p s off = None) ->
  forall s p off, allChars ok s = true -> search_from fl r p s off = None.
Proof.
  intros H s. induction s as [|c s IH]; intros p off Hall; cbn [search_from];
    rewrite (H _ _ _ Hall); [reflexivity|].
  cbn [allChars] in Hall. apply andb_prop in Hall as [_ Hall]. now apply IH.
Qed.

(** A block in capitals holds neither a digit nor a hyphen. *)
Lemma caps_no_digit fl c :
  capsOrSpace c = true -> class_match fl false [IDigit] c = false.
Proof.
  destruct fl as [[] []];
    destruct c as [[] [] [] [] [] [] [] []]; vm_compute; intros H;
    first [reflexivity | discriminate H].
Qed.

Lemma caps_no_digit_hyphen fl c :
  capsOrSpace c = true -> class_match fl false [IDigit; IChar "-"] c = false.
Proof.
  destruct fl as [[] []];
    destruct c as [[] [] [] [] [] [] [] []]; vm_compute; intros H;
    first [reflexivity | discriminate H].
Qed.

Ltac consume E Hall :=
  let st' := fresh "st" in
  let u := fresh "u" in
  let R := fresh "R" in
  apply run_consumes in E as [st' [u [E R]]];
  apply (consumed_allChars _ _ _ _ R) in Hall; clear R u.

Ltac starved E Hall lem :=
  exfalso; eapply class_starved in E; [exact E | apply lem | exact Hall].

(** Rules 2 to 7 of the CIBC pass each need a digit (or a hyphen). *)
Lemma cibc_digit_rules_unmatched s :
  allChars capsOrSpace s = true ->
  unmatched (firstn 6 (skipn 1 CIBC.rules)) s.
Proof.
  intros Hs. unfold unmatched.
  change (firstn 6 (skipn 1 CIBC.rules))
    with [nth 1 CIBC.rules blankLines; nth 2 CIBC.rules blankLines;
          nth 3 CIBC.rules blankLines; nth 4 CIBC.rules blankLines;
          nth 5 CIBC.rules blankLines; nth 6 CIBC.rules blankLines].
  repeat constructor; cbn [nth CIBC.rules rflags pattern]; unfold exec;
    apply search_from_starved with (ok := capsOrSpace); [|exact Hs| |exact Hs
      | |exact Hs| |exact Hs| |exact Hs| |exact Hs];
    clear s Hs; intros p s off Hall; unfold match_here;
    match goal with
    | |- match ?X with _ => _ end = None =>
        destruct X as [res|] eqn:E; [|reflexivity]
    end;
    change s with (Regex.rest (MState p s 0 [])) in Hall.
  - change (seq [lit "Account number"; plus (cls [IChar ":"; ISpace]);
                 plus (cls [IDigit; IChar "-"])])
      with (Seq (lit "Account number")
              (Seq (plus (cls [IChar ":"; ISpace]))
                   (Seq (Cls false [IDigit; IChar "-"])
                        (star (cls [IDigit; IChar "-"]))))) in E.
    rewrite run_seq in E. consume E Hall.
    rewrite run_seq in E. consume E Hall.
    rewrite run_seq in E. starved E Hall caps_no_digit_hyphen.
  - change (seq [lit "Branch transit number"; plus (cls [IChar ":"; ISpace]);
                 plus digit])
      with (Seq (lit "Branch transit number")
              (Seq (plus (cls [IChar ":"; ISpace]))
                   (Seq (Cls false [IDigit]) (star digit)))) in E.
    rewrite run_seq in E. consume E Hall.
    rewrite run_seq in E. consume E Hall.
    rewrite run_seq in E. starved E Hall caps_no_digit.
  - unfold CIBC.eTransferRule in E. cbn [pattern] in E.
    match type of E with
    | Regex.run _ (seq (?g1 :: Group 2 _ :: ?tl)) _ _ = _ =>
        change (seq (g1 :: Group 2 (plus digit) :: tl))
          with (Seq g1 (Seq (Group 2 (Seq (Cls false [IDigit]) (star digit)))
                            (seq tl))) in E
    end.
    rewrite run_seq in E. consume E Hall.
    rewrite run_seq, run_group, run_seq in E. starved E Hall caps_no_digit.
  - match type of E with
    | Regex.run _ (seq [?g1; ?sp; _]) _ _ = _ =>
        change (seq [g1; sp; Group 2 (rep_min 10 digit)])
          with (Seq g1 (Seq sp
                  (Group 2 (Seq (Seq (Cls false [IDigit]) (rep 9 digit))
                                (star digit))))) in E
    end.
    rewrite run_seq in E. consume E Hall.
    rewrite run_seq in E. consume E Hall.
    rewrite run_group, !run_seq in E. starved E Hall caps_no_digit.
  - match type of E with
    | Regex.run _ (seq (plus digit :: ?tl)) _ _ = _ =>
        change (seq (plus digit :: tl))
          with (Seq (Seq (Cls false [IDigit]) (star digit)) (seq tl)) in E
    end.
    rewrite !run_seq in E. starved E Hall caps_no_digit.
  - change (seq [Bol; rep 10 digit; star space; Eol])
      with (Seq Bol (Seq (Seq (Cls false [IDigit]) (rep 9 digit))
                         (Seq (star space) Eol))) in E.
    rewrite run_seq in E. consume E Hall.
    rewrite !run_seq in E. starved E Hall caps_no_digit.
Qed.

(** Without three line feeds in a row the blank-line rule finds
    nothing. *)
Lemma blankLines_unmatched s : forall p off,
  includes s blankRun = false ->
  search_from no_flags (rep_min 3 (Chr LF)) p s off = None.
Proof.
  induction s as [|c s IH]; intros p off H; cbn [search_from];
    rewrite match_here_blank; rewrite <- startsWith_blankRun.
  - reflexivity.
  - change (includes (String c s) blankRun)
      with (startsWith blankRun (String c s) || includes s blankRun) in H.
    apply orb_false_elim in H as [-> H]. now apply IH.
Qed.

Lemma take_whole s : take (String.length s) s = s.
Proof. induction s; [reflexivity|]. simpl. now f_equal. Qed.

Lemma upper_class c : class_match flag_m false [upperAZ] c = is_upper c.
Proof. destruct c as [[] [] [] [] [] [] [] []]; reflexivity. Qed.

Lemma capsOrSpace_class c :
  class_match flag_m false [upperAZ; ISpace] c = capsOrSpace c.
Proof. destruct c as [[] [] [] [] [] [] [] []]; reflexivity. Qed.

(** The name pattern [^[A-Z][A-Z\s]+$] under [m] takes a block in
    capitals whole, line feeds included. *)
Lemma cibc_name_block c0 c1 ds :
  is_upper c0 = true -> capsOrSpace c1 = true ->
  allChars capsOrSpace ds = true ->
  match_here flag_m (pattern CIBC.nameRule) None (String c0 (String c1 ds)) 0 =
  Some (RMatch 0 (String c0 (String c1 ds)) []).
Proof.
  intros H0 H1 Hds. unfold match_here.
  assert (E : Regex.run flag_m (pattern CIBC.nameRule)
                (MState None (String c0 (String c1 ds)) 0 []) Some =
              Some (MState (lastOr (Some c1) ds) EmptyString
                      (2 + String.length ds) [])).
  { change (pattern CIBC.nameRule)
      with (Seq Bol (Seq (Cls false [upperAZ])
                         (Seq (plus (Cls false [upperAZ; ISpace])) Eol))).
    rewrite run_seq, run_bol_start, run_seq, run_cls, upper_class, H0, run_seq.
    rewrite <- (append_nil_r ds) at 1.
    apply run_plus_class.
    - now rewrite capsOrSpace_class.
    - eapply allChars_impl; [|exact Hds]. intros c Hc.
      now rewrite capsOrSpace_class.
    - reflexivity.
    - reflexivity. }
  rewrite E. cbn [Regex.pos Regex.caps]. f_equal. f_equal.
  apply (take_whole (String c0 (String c1 ds))).
Qed.

Lemma cibc_name_nothing_left p off :
  match_here flag_m (pattern CIBC.nameRule) p EmptyString off = None.
Proof.
  unfold match_here.
  change (pattern CIBC.nameRule)
    with (Seq Bol (Seq (Cls false [upperAZ])
                       (Seq (plus (Cls false [upperAZ; ISpace])) Eol))).
  rewrite run_seq. cbn [Regex.run]. destruct (at_bol flag_m _); reflexivity.
Qed.

Lemma cibc_name_rule_on_block c0 c1 ds :
  is_upper c0 = true -> capsOrSpace c1 = true ->
  allChars capsOrSpace ds = true ->
  apply CIBC.nameRule (String c0 (String c1 ds)) =
  CIBC.nameCallback (RMatch 0 (String c0 (String c1 ds)) []).
Proof.
  intros H0 H1 Hds. unfold apply, replaceAll.
  change (rflags CIBC.nameRule) with flag_m.
  cbn [replace_go]. rewrite (cibc_name_block _ _ _ H0 H1 Hds).
  cbn [m_text String.length].
  pose proof (replace_go_skip flag_m (pattern CIBC.nameRule)
                (replacement CIBC.nameRule) ds (Some c1)
                EmptyString 2) as Hskip.
  rewrite append_nil_r in Hskip.
  rewrite Hskip. cbn [replace_go]. rewrite cibc_name_nothing_left.
  apply append_nil_r.
Qed.

(** X21: A text that is one block in capitals (capital letters and white
    space after a first capital) is judged by the CIBC pass as a
    whole: when one of the kept words occurs anywhere in it, the pass
    returns it unchanged, names included; otherwise the whole block
    becomes a single marker. *)
Theorem cibc_block_in_capitals_is_judged_whole :
  forall (c0 : ascii) (body : string),
    is_upper c0 = true -> body <> EmptyString ->
    allChars capsOrSpace body = true ->
    includes (String c0 body) blankRun = false ->
    CIBC.scrub (String c0 body) =
    if existsb (includes (String c0 body)) CIBC.keepPatterns
    then String c0 body
    else "[NAME REDACTED]".
Proof.
  intros c0 body H0 Hne Hbody Hblank.
  destruct body as [|c1 ds]; [congruence|]. clear Hne.
  cbn [allChars] in Hbody. apply andb_prop in Hbody as [H1 Hds].
  unfold CIBC.scrub.
  change CIBC.rules with (CIBC.nameRule :: skipn 1 CIBC.rules).
  rewrite run_cons, (cibc_name_rule_on_block _ _ _ H0 H1 Hds).
  unfold CIBC.nameCallback. cbn [m_text].
  destruct (existsb (includes (String c0 (String c1 ds))) CIBC.keepPatterns).
  - apply run_unmatched.
    change (skipn 1 CIBC.rules)
      with (firstn 6 (skipn 1 CIBC.rules) ++ [blankLines]).
    apply Forall_app. split.
    + apply cibc_digit_rules_unmatched. cbn [allChars].
      rewrite Hds, andb_true_r.
      unfold capsOrSpace in *. now rewrite H0, H1.
    + constructor; [|constructor]. cbn [rflags pattern blankLines].
      unfold exec. now apply blankLines_unmatched.
  - reflexivity.
Qed.

Lemma cibc_block_in_capitals_is_judged_whole_witness :
  CIBC.scrub (ofLines ["JOHN SMITH"; "ACCOUNT SUMMARY"]) =
  ofLines ["JOHN SMITH"; "ACCOUNT SUMMARY"].
Proof.
  apply (cibc_block_in_capitals_is_judged_whole "J"
           (ofLines ["OHN SMITH"; "ACCOUNT SUMMARY"]));
    first [reflexivity | discriminate].
Defined.

End NameBlockFacts.

